(** * Canopy send plugin: shallow embedding of the contract, the key codec
      and the correlation table of the socket client.

    The embedding follows the TypeScript sources:
    - [Long]                 the 64-bit integers of long.js, as the sources use them;
    - errors                 [src/utils/errors.ts];
    - section [ProtoUtils]   [src/utils/proto-utils.ts] (marshal, unmarshal, fromAny,
                             joinLenPrefix, formatUint64) and [src/core/keys.ts];
    - section [ContractModel] [src/core/contract.ts];
    - [SocketClient]         [src/network/index.ts], the pending table and the
                             routing of inbound messages;
    - [Sample]               one codec and one FSM peer, to run the scenarios of
                             the specification.

    Conventions.  A JavaScript exception is a [Throw] carrying the message of
    the Error object.  A finite JavaScript number is modelled by its exact
    rational value (every finite double is a rational; the sources only
    compare numbers with zero, test integrality and truncate them, which are
    exact operations).  A JavaScript string is modelled by the byte string of
    its UTF-8 encoding.  A 64-bit integer is a [Z] bit pattern in
    [0, 2^64) with the wrap-around written out.  A handler returns its result
    together with the list of requests it sent to the FSM, in order. *)

From Stdlib Require Import ZArith QArith Qround String Ascii List Bool Lia.
From Stdlib Require Import Strings.Byte.
From stdpp Require Import base option list gmap.

Import ListNotations.
Local Open Scope string_scope.
Local Open Scope Z_scope.

Set Implicit Arguments.

(* ===================================================================== *)
(** ** Exceptions *)

Inductive Result (A : Type) : Type :=
| Ok (a : A)
| Throw (message : string).
Arguments Ok {A} a.
Arguments Throw {A} message.

Definition rbind {A B} (r : Result A) (k : A -> Result B) : Result B :=
  match r with
  | Ok a => k a
  | Throw m => Throw m
  end.

(** [try { body } catch (err) { handler(err.message) }] *)
Definition try_catch {A} (body : Result A) (handler : string -> Result A) : Result A :=
  match body with
  | Ok a => Ok a
  | Throw m => handler m
  end.

Declare Scope result_scope.
Delimit Scope result_scope with result.
Notation "'let?' x := e 'in' k" := (rbind e (fun x => k))
  (at level 10, x pattern, e at level 100, k at level 200) : result_scope.
Local Open Scope result_scope.

(* ===================================================================== *)
(** ** Bytes and buffers *)

Abbreviation bytes := (list byte).

Definition byte_of_Z (z : Z) : byte :=
  match Byte.of_N (Z.to_N (z mod 256)) with
  | Some b => b
  | None => x00
  end.

Definition Z_of_byte (b : byte) : Z := Z.of_N (Byte.to_N b).

Fixpoint bytes_eqb (a b : bytes) : bool :=
  match a, b with
  | [], [] => true
  | x :: a', y :: b' => Byte.eqb x y && bytes_eqb a' b'
  | _, _ => false
  end.

(** [Buffer.compare(a, b) === 0] *)
Definition Buffer_compare_is_zero (a b : bytes) : bool := bytes_eqb a b.

(** Big-endian value of a byte sequence. *)
Definition be_value (bs : bytes) : Z :=
  fold_left (fun acc b => acc * 256 + Z_of_byte b) bs 0.

(* ===================================================================== *)
(** ** JavaScript numbers *)

Inductive JsNumber : Type :=
| Finite (q : Q)
| NaN
| PosInf
| NegInf.

Definition Number_isFinite (n : JsNumber) : bool :=
  match n with Finite _ => true | _ => false end.

Definition Number_isInteger (n : JsNumber) : bool :=
  match n with
  | Finite q => Qeq_bool q (inject_Z (Qfloor q))
  | _ => false
  end.

(** [n > 0] *)
Definition number_gt0 (n : JsNumber) : bool :=
  match n with
  | Finite q => negb (Qle_bool q 0)
  | PosInf => true
  | NaN | NegInf => false
  end.

Definition num (z : Z) : JsNumber := Finite (inject_Z z).

(* ===================================================================== *)
(** ** long.js *)

Module Long.

Definition TWO_PWR_63 : Z := 2 ^ 63.
Definition TWO_PWR_64 : Z := 2 ^ 64.

(** [bits] is the 64-bit pattern [high * 2^32 + low] read as an unsigned
    number; [unsigned] is the flag long.js keeps next to it. *)
Record t : Type := mk { bits : Z; unsigned : bool }.

Definition wrap (z : Z) : Z := z mod TWO_PWR_64.

Definition fromBits (z : Z) (u : bool) : t := mk (wrap z) u.

Definition ZERO : t := mk 0 false.
Definition UZERO : t := mk 0 true.
Definition ONE : t := mk 1 false.
Definition MAX_VALUE : t := mk (TWO_PWR_63 - 1) false.
Definition MIN_VALUE : t := mk TWO_PWR_63 false.
Definition MAX_UNSIGNED_VALUE : t := mk (TWO_PWR_64 - 1) true.

(** The u64 [n] as the protobuf reader hands it over. *)
Definition ofU64 (n : Z) : t := mk n true.

(** [(this.high >>> 31) === 1] *)
Definition topBit (a : t) : bool := TWO_PWR_63 <=? bits a.

Definition isNegative (a : t) : bool := negb (unsigned a) && topBit a.

(** The number the Long stands for ([toString] prints it). *)
Definition toZ (a : t) : Z :=
  if isNegative a then bits a - TWO_PWR_64 else bits a.

Definition eq (a b : t) : bool :=
  if negb (Bool.eqb (unsigned a) (unsigned b)) && topBit a && topBit b
  then false
  else bits a =? bits b.

Definition add (a b : t) : t := mk (wrap (bits a + bits b)) (unsigned a).

(** [not().add(ONE)]; the [MIN_VALUE] shortcut returns the same bits. *)
Definition neg (a : t) : t := mk (wrap (- bits a)) (unsigned a).

Definition sub (a b : t) : t := add a (neg b).

(** [compare]: -1, 0 or 1. *)
Definition compare (a b : t) : Z :=
  if eq a b then 0
  else
    let thisNeg := isNegative a in
    let otherNeg := isNegative b in
    if thisNeg && negb otherNeg then -1
    else if negb thisNeg && otherNeg then 1
    else if negb (unsigned a) then
      (if isNegative (sub a b) then -1 else 1)
    else
      (if bits a <? bits b then -1 else 1).

Definition lt (a b : t) : bool := compare a b <? 0.
Definition greaterThan (a b : t) : bool := compare a b >? 0.

(** [Long.fromValue(val, unsigned)] on a Long: same bits, new flag. *)
Definition fromValue (a : t) (u : bool) : t := fromBits (bits a) u.

(** [Long.fromNumber(value, unsigned)] *)
Definition fromNumber (n : JsNumber) (u : bool) : t :=
  match n with
  | NaN => if u then UZERO else ZERO
  | PosInf => if u then MAX_UNSIGNED_VALUE else MAX_VALUE
  | NegInf => if u then UZERO else MIN_VALUE
  | Finite q =>
      if u then
        if negb (Qle_bool 0 q) then UZERO
        else if Qle_bool (inject_Z TWO_PWR_64) q then MAX_UNSIGNED_VALUE
        else fromBits (Qfloor q) true
      else
        if Qle_bool q (inject_Z (- TWO_PWR_63)) then MIN_VALUE
        else if Qle_bool (inject_Z TWO_PWR_63) (q + 1) then MAX_VALUE
        else if negb (Qle_bool 0 q) then neg (fromBits (Qfloor (- q)) false)
        else fromBits (Qfloor q) false
  end.

(** Well-formed bit pattern. *)
Definition wf (a : t) : Prop := 0 <= bits a < TWO_PWR_64.

End Long.

Abbreviation Long := Long.t.

(* ===================================================================== *)
(** ** JavaScript values reaching the validators *)

Inductive JsValue : Type :=
| VUndefined
| VNull
| VBool (b : bool)
| VNumber (n : JsNumber)
| VString (s : string)
| VLong (l : Long)
| VBuffer (b : bytes)                       (* Buffer *)
| VUint8Array (b : bytes)                   (* Uint8Array that is no Buffer *)
| VNumArray (xs : list Z)                   (* number[] *)
| VLongLike (low high : Z) (uns : bool)     (* plain object with low, high *)
| VObject.                                  (* any other plain object *)

(** [!v] *)
Definition falsy (v : JsValue) : bool :=
  match v with
  | VUndefined | VNull => true
  | VBool b => negb b
  | VNumber NaN => true
  | VNumber (Finite q) => Qeq_bool q 0
  | VNumber _ => false
  | VString EmptyString => true
  | _ => false
  end.

Definition bytes_of_string (s : string) : bytes := list_byte_of_string s.

(** [Buffer.isBuffer(v) ? v : Buffer.from(v)] *)
Definition toBuffer (v : JsValue) : Result bytes :=
  match v with
  | VBuffer b => Ok b
  | VUint8Array b => Ok b
  | VString s => Ok (bytes_of_string s)
  | VNumArray xs => Ok (map byte_of_Z xs)
  | _ => Throw "The first argument must be of type string or an instance of Buffer, ArrayBuffer, or Array or an Array-like Object."
  end.

(** Messages of the errors the JavaScript runtime raises by itself. *)
Definition RangeError_writeUInt8 : string :=
  "The value of 'value' is out of range. It must be >= 0 and <= 255.".
Definition RangeError_writeBigUInt64BE : string :=
  "The value of 'value' is out of range. It must be >= 0n and < 2n ** 64n.".
Definition RangeError_BigInt_not_integer : string :=
  "The number cannot be converted to a BigInt because it is not an integer".
Definition TypeError_null_amount : string :=
  "Cannot read properties of null (reading 'amount')".

(* ===================================================================== *)
(** ** src/utils/errors.ts *)

Record ProtoError : Type := mkProtoError {
  code : Z;
  module : string;
  msg : string
}.

Definition DEFAULT_MODULE : string := "plugin".

Definition PLUGIN_TIMEOUT : Z := 1.
Definition MARSHAL : Z := 2.
Definition UNMARSHAL : Z := 3.
Definition FAILED_PLUGIN_READ : Z := 4.
Definition FAILED_PLUGIN_WRITE : Z := 5.
Definition INVALID_PLUGIN_RESP_ID : Z := 6.
Definition UNEXPECTED_FSM_TO_PLUGIN : Z := 7.
Definition INVALID_FSM_TO_PLUGIN_MESSAGE : Z := 8.
Definition INSUFFICIENT_FUNDS : Z := 9.
Definition FROM_ANY : Z := 10.
Definition INVALID_MESSAGE_CAST : Z := 11.
Definition INVALID_ADDRESS : Z := 12.
Definition INVALID_AMOUNT : Z := 13.
Definition TX_FEE_BELOW_STATE_LIMIT : Z := 14.

(** [newError(code, module, message).toProtoError()] *)
Definition newError (c : Z) (m : string) (message : string) : ProtoError :=
  mkProtoError c m message.

Definition errPluginTimeout : ProtoError :=
  newError PLUGIN_TIMEOUT DEFAULT_MODULE "a plugin timeout occurred".
Definition errMarshal (err : string) : ProtoError :=
  newError MARSHAL DEFAULT_MODULE ("marshal() failed with err: " ++ err).
Definition errUnmarshal (err : string) : ProtoError :=
  newError UNMARSHAL DEFAULT_MODULE ("unmarshal() failed with err: " ++ err).
Definition errInsufficientFunds : ProtoError :=
  newError INSUFFICIENT_FUNDS DEFAULT_MODULE "insufficient funds".
Definition errFromAny (err : string) : ProtoError :=
  newError FROM_ANY DEFAULT_MODULE ("fromAny() failed with err: " ++ err).
Definition errInvalidMessageCast : ProtoError :=
  newError INVALID_MESSAGE_CAST DEFAULT_MODULE "the message cast failed".
Definition errInvalidAddress : ProtoError :=
  newError INVALID_ADDRESS DEFAULT_MODULE "address is invalid".
Definition errInvalidAmount : ProtoError :=
  newError INVALID_AMOUNT DEFAULT_MODULE "amount is invalid".
Definition errTxFeeBelowStateLimit : ProtoError :=
  newError TX_FEE_BELOW_STATE_LIMIT DEFAULT_MODULE "tx.fee is below state limit".

(* ===================================================================== *)
(** ** Data carried by the protobuf messages *)

(** [type ChainId = number | Long | string] *)
Inductive ChainId : Type :=
| CidNumber (n : JsNumber)
| CidLong (l : Long)
| CidString (s : string).

Record AnyMessage : Type := mkAny {
  typeUrl : option string;
  type_url : option string;
  value : option bytes
}.

(** The decoder is set up with long.js, so a u64 field is a Long (as
    contract.ts assumes of the amounts it reads). *)
Record MessageSend : Type := mkMessageSend {
  fromAddress : JsValue;
  toAddress : JsValue;
  amount : Long
}.

Record Transaction : Type := mkTransaction {
  fee : JsValue;
  tx_msg : option AnyMessage
}.

Inductive KnownMessageTypes : Type :=
| KMessageSend (m : MessageSend)
| KTransaction (t : Transaction).

Record Account : Type := mkAccount {
  acc_address : JsValue;
  acc_amount : Long
}.

Record Pool : Type := mkPool {
  pool_id : option ChainId;
  pool_amount : Long
}.

Record FeeParams : Type := mkFeeParams {
  sendFee : JsValue
}.

(** A protobuf message type: [encode] after [create], and [decode]. *)
Record ProtobufMessage (T : Type) : Type := mkProtobufMessage {
  encode : T -> Result bytes;
  decode : bytes -> Result T
}.

(** [protobuf.types], the generated codec (src/proto is not part of the
    sources at hand; it is taken as given). *)
Record ProtobufTypes : Type := mkProtobufTypes {
  types_Account : ProtobufMessage Account;
  types_Pool : ProtobufMessage Pool;
  types_FeeParams : ProtobufMessage FeeParams;
  types_MessageSend : ProtobufMessage MessageSend;
  types_Transaction : ProtobufMessage Transaction
}.

(** Library functions on strings the sources call, taken as given. *)
Record Runtime : Type := mkRuntime {
  Long_fromString : string -> Result Long;       (* Long.fromString(s) *)
  BigInt_of_string : string -> Result Z;         (* BigInt(s) *)
  JSON_stringify : JsValue -> string             (* JSON.stringify(v) *)
}.

(* ===================================================================== *)
(** ** src/utils/proto-utils.ts *)

Definition marshal {T} (messageType : ProtobufMessage T) (data : T) : Result bytes :=
  try_catch (encode messageType data)
            (fun m => Throw ("Marshal failed: " ++ m)).

Definition unmarshal {T} (messageType : ProtobufMessage T) (bs : option bytes)
  : Result (option T) :=
  try_catch
    (match bs with
     | None => Ok None
     | Some b =>
         if (Z.of_nat (length b) =? 0) then Ok None
         else let? m := decode messageType b in Ok (Some m)
     end)
    (fun m => Throw ("Unmarshal failed: " ++ m)).

(** [result.writeUInt8(n, offset)] *)
Definition writeUInt8 (n : Z) : Result byte :=
  if (0 <=? n) && (n <=? 255) then Ok (byte_of_Z n)
  else Throw RangeError_writeUInt8.

Fixpoint joinLenPrefix (items : list (option bytes)) : Result bytes :=
  match items with
  | [] => Ok []
  | None :: rest => joinLenPrefix rest
  | Some item :: rest =>
      if (Z.of_nat (length item) =? 0) then joinLenPrefix rest
      else
        let? len := writeUInt8 (Z.of_nat (length item)) in
        let? tail := joinLenPrefix rest in
        Ok (len :: (item ++ tail)%list)
  end.

(** [buffer.writeBigUInt64BE(v, 0)] on a fresh 8-byte buffer. *)
Definition writeBigUInt64BE (v : Z) : Result bytes :=
  if (0 <=? v) && (v <? 2 ^ 64) then
    Ok (map (fun i => byte_of_Z (Z.shiftr v (8 * i))) [7; 6; 5; 4; 3; 2; 1; 0])
  else Throw RangeError_writeBigUInt64BE.

(** [BigInt(value)] for a number. *)
Definition BigInt_of_number (n : JsNumber) : Result Z :=
  match n with
  | Finite q => if Number_isInteger n then Ok (Qfloor q)
                else Throw RangeError_BigInt_not_integer
  | _ => Throw RangeError_BigInt_not_integer
  end.

Section ProtoUtils.

Variable rt : Runtime.
Variable protobuf : ProtobufTypes.

Definition formatUint64 (v : ChainId) : Result bytes :=
  match v with
  | CidLong l => writeBigUInt64BE (Long.toZ l)
  | CidNumber n => let? b := BigInt_of_number n in writeBigUInt64BE b
  | CidString s => let? b := BigInt_of_string rt s in writeBigUInt64BE b
  end.

(** [typeUrl.split('/').pop()]: the part after the last slash. *)
Fixpoint lastSegment (acc : string) (s : string) : string :=
  match s with
  | EmptyString => acc
  | String c rest =>
      if Ascii.eqb c "/"%char then lastSegment EmptyString rest
      else lastSegment (acc ++ String c EmptyString) rest
  end.

Definition fromAny (anyMessage : option AnyMessage) : Result KnownMessageTypes :=
  try_catch
    (match anyMessage with
     | None => Throw "Any message is null or undefined"
     | Some a =>
         let url := match typeUrl a with Some u => Some u | None => type_url a end in
         match url with
         | None => Throw "Any message missing type URL"
         | Some EmptyString => Throw "Any message missing type URL"
         | Some u =>
               match value a with
               | None => Throw "Any message missing value"
               | Some v =>
                   let typeName := lastSegment EmptyString u in
                   if String.eqb typeName "MessageSend"
                      || String.eqb typeName "types.MessageSend" then
                     let? m := unmarshal (types_MessageSend protobuf) (Some v) in
                     match m with
                     | None => Throw "Failed to unmarshal MessageSend"
                     | Some m => Ok (KMessageSend m)
                     end
                   else if String.eqb typeName "Transaction"
                           || String.eqb typeName "types.Transaction" then
                     let? m := unmarshal (types_Transaction protobuf) (Some v) in
                     match m with
                     | None => Throw "Failed to unmarshal Transaction"
                     | Some m => Ok (KTransaction m)
                     end
                   else Throw ("Unknown message type in Any: " ++ typeName)
               end
         end
     end)
    (fun m => Throw ("FromAny failed: " ++ m)).

(* =================================================================== *)
(** ** src/core/keys.ts *)

Definition ACCOUNT_PREFIX : bytes := [x01].
Definition POOL_PREFIX : bytes := [x02].
Definition PARAMS_PREFIX : bytes := [x07].

Definition keyForAccount (address : JsValue) : Result bytes :=
  let? addressBuffer := toBuffer address in
  joinLenPrefix [Some ACCOUNT_PREFIX; Some addressBuffer].

Definition keyForFeeParams : Result bytes :=
  let suffix := bytes_of_string "/f/" in
  joinLenPrefix [Some PARAMS_PREFIX; Some suffix].

Definition keyForFeePool (chainId : ChainId) : Result bytes :=
  let? chainIdBytes := formatUint64 chainId in
  joinLenPrefix [Some POOL_PREFIX; Some chainIdBytes].

Definition validateAddress (address : JsValue) : bool :=
  if falsy address then false
  else
    match toBuffer address with
    | Ok addrBuffer => Z.of_nat (length addrBuffer) =? 20
    | Throw _ => false
    end.

(** [Long.fromBits(low, high, unsigned)] from two 32-bit halves. *)
Definition Long_fromBits32 (low high : Z) (u : bool) : Long :=
  Long.mk ((high mod 2 ^ 32) * 2 ^ 32 + low mod 2 ^ 32) u.

Definition validateAmount (amount : JsValue) : bool :=
  match amount with
  | VLong l => Long.greaterThan l Long.ZERO
  | VNumber n => Number_isFinite n && number_gt0 n
  | VString s =>
      match Long_fromString rt s with
      | Ok longAmount => Long.greaterThan longAmount Long.ZERO
      | Throw _ => false
      end
  | VLongLike low high uns =>
      Long.greaterThan (Long_fromBits32 low high uns) Long.ZERO
  | _ => false
  end.

Definition normalizeAddress (address : JsValue) : Result bytes :=
  if negb (validateAddress address) then
    Throw "Invalid address: must be exactly 20 bytes"
  else toBuffer address.

(** [String(amount)] for the values that reach the last line of
    [normalizeAmount]. *)
Definition String_of (v : JsValue) : string :=
  match v with
  | VString s => s
  | _ => "[object Object]"
  end.

Definition normalizeAmount (amount : JsValue) : Result Long :=
  if negb (validateAmount amount) then
    Throw "Invalid amount: must be greater than 0"
  else
    match amount with
    | VLong l => Ok l
    | VNumber n => Ok (Long.fromNumber n false)
    | _ => Long_fromString rt (String_of amount)
    end.

End ProtoUtils.

(* ===================================================================== *)
(** ** State operations exchanged with the FSM *)

Record StateKeyQuery : Type := mkQuery {
  queryId : Long;
  key : bytes
}.

Record StateReadRequest : Type := mkReadReq {
  keys : list StateKeyQuery
}.

Record StateEntry : Type := mkEntry {
  entry_key : option bytes;
  entry_value : option bytes
}.

Record StateQueryResult : Type := mkResult {
  res_queryId : Long;
  entries : list StateEntry
}.

Record StateReadResponse : Type := mkReadResp {
  read_error : option ProtoError;
  results : list StateQueryResult
}.

Record StateSetOperation : Type := mkSet {
  set_key : bytes;
  set_value : bytes
}.

Record StateDeleteOperation : Type := mkDelete {
  del_key : bytes
}.

Record StateWriteRequest : Type := mkWriteReq {
  sets : list StateSetOperation;
  deletes : list StateDeleteOperation
}.

Record StateWriteResponse : Type := mkWriteResp {
  write_error : option ProtoError
}.

(** [interface SocketClientPlugin]: the two calls a contract makes to the
    FSM.  A rejected promise is a [Throw]. *)
Record SocketClientPlugin : Type := mkPlugin {
  stateRead : StateReadRequest -> Result StateReadResponse;
  stateWrite : StateWriteRequest -> Result StateWriteResponse
}.

Record Config : Type := mkConfig {
  chainId : JsNumber;
  dataDirPath : string
}.

Record Contract : Type := mkContract {
  config : option Config;
  plugin : option SocketClientPlugin
}.

Record TransactionRequest : Type := mkTxRequest {
  tx : Transaction
}.

Record CheckTxResponse : Type := mkCheckTxResponse {
  recipient : option JsValue;
  authorizedSigners : option (list JsValue);
  check_error : option ProtoError
}.

Record DeliverTxResponse : Type := mkDeliverTxResponse {
  deliver_error : option ProtoError
}.

(* ===================================================================== *)
(** ** Handlers: results together with the requests sent to the FSM *)

Inductive FsmCall : Type :=
| CallStateRead (r : StateReadRequest)
| CallStateWrite (w : StateWriteRequest).

Definition M (A : Type) : Type := (Result A * list FsmCall)%type.

Definition mret {A} (a : A) : M A := (Ok a, []).

Definition mlift {A} (r : Result A) : M A := (r, []).

Definition mbind {A B} (m : M A) (k : A -> M B) : M B :=
  match m with
  | (Ok a, l) => let (r, l') := k a in (r, (l ++ l')%list)
  | (Throw e, l) => (Throw e, l)
  end.

(** [try { m } catch (err) { h(err.message) }]: the requests already sent
    stay sent. *)
Definition mcatch {A} (m : M A) (h : string -> M A) : M A :=
  match m with
  | (Ok a, l) => (Ok a, l)
  | (Throw e, l) => let (r, l') := h e in (r, (l ++ l')%list)
  end.

Notation "'let!' x := e 'in' k" := (mbind e (fun x => k))
  (at level 10, x pattern, e at level 100, k at level 200) : result_scope.

Definition call_stateRead (p : SocketClientPlugin) (req : StateReadRequest)
  : M StateReadResponse :=
  (stateRead p req, [CallStateRead req]).

Definition call_stateWrite (p : SocketClientPlugin) (req : StateWriteRequest)
  : M StateWriteResponse :=
  (stateWrite p req, [CallStateWrite req]).

(** [Long.fromNumber(Math.floor(Math.random() * Number.MAX_SAFE_INTEGER), true)]
    with the integer drawn given as [r]. *)
Definition randomQueryId (r : Z) : Long := Long.fromNumber (num r) true.

(** [results[0]?.entries[0]?.value] *)
Definition firstValue (rs : list StateQueryResult) : option bytes :=
  match rs with
  | [] => None
  | r :: _ =>
      match entries r with
      | [] => None
      | e :: _ => entry_value e
      end
  end.

(* ===================================================================== *)
(** ** src/core/contract.ts *)

Section ContractModel.

Variable rt : Runtime.
Variable protobuf : ProtobufTypes.

Definition notInitialized : ProtoError :=
  mkProtoError 1 "contract" "Plugin or config not initialized".

Definition checkFailed (e : ProtoError) : CheckTxResponse :=
  mkCheckTxResponse None None (Some e).

Definition isMessageSend (m : KnownMessageTypes) : bool :=
  match m with
  | KMessageSend message =>
      negb (match fromAddress message with VUndefined => true | _ => false end)
      && negb (match toAddress message with VUndefined => true | _ => false end)
      && true
  | KTransaction _ => false
  end.

Definition checkMessageSend (m : MessageSend) : CheckTxResponse :=
  if negb (validateAddress (fromAddress m)) then checkFailed errInvalidAddress
  else if negb (validateAddress (toAddress m)) then checkFailed errInvalidAddress
  else if negb (validateAmount rt (VLong (amount m))) then checkFailed errInvalidAmount
  else mkCheckTxResponse (Some (toAddress m)) (Some [fromAddress m]) None.

Definition checkTx (c : Contract) (rnd : Z) (request : TransactionRequest)
  : M CheckTxResponse :=
  mcatch
    (match plugin c, config c with
     | Some plugin, Some _ =>
         let! k := mlift keyForFeeParams in
         let! feeParamsResponse :=
           call_stateRead plugin (mkReadReq [mkQuery (randomQueryId rnd) k]) in
         match read_error feeParamsResponse with
         | Some e => mret (checkFailed e)
         | None =>
             match firstValue (results feeParamsResponse) with
             | None =>
                 mret (checkFailed (mkProtoError 1 "contract" "Fee parameters not found"))
             | Some feeParamsBytes =>
                 let! minFees :=
                   mlift (unmarshal (types_FeeParams protobuf) (Some feeParamsBytes)) in
                 match minFees with
                 | None =>
                     mret (checkFailed (errUnmarshal "Failed to decode fee parameters"))
                 | Some minFees =>
                     let! requestFee :=
                       mlift (try_catch
                                (let? n := normalizeAmount rt (fee (tx request)) in
                                 Ok (Long.fromValue n true))
                                (fun m => Throw ("Failed to normalize request.tx.fee: "
                                                 ++ m ++ ". Value: "
                                                 ++ JSON_stringify rt (fee (tx request))))) in
                     let! minSendFee :=
                       mlift (try_catch
                                (let? n := normalizeAmount rt (sendFee minFees) in
                                 Ok (Long.fromValue n true))
                                (fun m => Throw ("Failed to normalize minFees.sendFee: "
                                                 ++ m ++ ". Value: "
                                                 ++ JSON_stringify rt (sendFee minFees)))) in
                     if Long.lt requestFee minSendFee then
                       mret (checkFailed errTxFeeBelowStateLimit)
                     else
                       match fromAny protobuf (tx_msg (tx request)) with
                       | Throw m => mret (checkFailed (errFromAny m))
                       | Ok message =>
                           if isMessageSend message then
                             match message with
                             | KMessageSend m => mret (checkMessageSend m)
                             | KTransaction _ => mret (checkFailed errInvalidMessageCast)
                             end
                           else mret (checkFailed errInvalidMessageCast)
                       end
                 end
             end
         end
     | _, _ => mret (checkFailed notInitialized)
     end)
    (fun m => mret (checkFailed (errUnmarshal m))).

Record QueryIds : Type := mkQueryIds {
  fromQueryId : Long;
  toQueryId : Long;
  feeQueryId : Long
}.

Definition generateQueryIds (r1 r2 r3 : Z) : QueryIds :=
  mkQueryIds (randomQueryId r1) (randomQueryId r2) (randomQueryId r3).

(** [result.entries[0]?.value ?? null] *)
Definition entryValue (r : StateQueryResult) : option bytes :=
  match entries r with
  | [] => None
  | e :: _ => entry_value e
  end.

(** The [for ... switch (true)] loop over the results. *)
Definition parseResults (ids : QueryIds) (rs : list StateQueryResult)
  : option bytes * option bytes * option bytes :=
  fold_left
    (fun '(fromBytes, toBytes, feePoolBytes) result =>
       if Long.eq (res_queryId result) (fromQueryId ids) then
         (entryValue result, toBytes, feePoolBytes)
       else if Long.eq (res_queryId result) (toQueryId ids) then
         (fromBytes, entryValue result, feePoolBytes)
       else if Long.eq (res_queryId result) (feeQueryId ids) then
         (fromBytes, toBytes, entryValue result)
       else (fromBytes, toBytes, feePoolBytes))
    rs (None, None, None).

Definition readAccountsAndFeePool (c : Contract) (ids : QueryIds) (m : MessageSend)
  : M (option bytes * option bytes * option bytes) :=
  match plugin c, config c with
  | Some plugin, Some config =>
      let! fromKey := mlift (keyForAccount (fromAddress m)) in
      let! toKey := mlift (keyForAccount (toAddress m)) in
      let! feePoolKey := mlift (keyForFeePool rt (CidNumber (chainId config))) in
      let! response :=
        call_stateRead plugin
          (mkReadReq [mkQuery (feeQueryId ids) feePoolKey;
                      mkQuery (fromQueryId ids) fromKey;
                      mkQuery (toQueryId ids) toKey]) in
      match read_error response with
      | Some e => mlift (Throw ("State read error: " ++ msg e))
      | None => mret (parseResults ids (results response))
      end
  | _, _ => mlift (Throw "Plugin or config not initialized")
  end.

(** [unmarshal(...) || fallback], inside [try ... catch] giving the same
    fallback. *)
Definition unmarshalOr {T} (messageType : ProtobufMessage T) (bs : option bytes)
           (fallback : T) : T :=
  match unmarshal messageType bs with
  | Ok (Some v) => v
  | Ok None => fallback
  | Throw _ => fallback
  end.

Definition unmarshalAccountsAndPool
           (fromBytes toBytes feePoolBytes : option bytes) (m : MessageSend)
  : Result (option Account * Account * Pool * Long) :=
  let? fromAccount := unmarshal (types_Account protobuf) fromBytes in
  let toAccount :=
    unmarshalOr (types_Account protobuf) toBytes (mkAccount (toAddress m) Long.UZERO) in
  let feePool :=
    unmarshalOr (types_Pool protobuf) feePoolBytes (mkPool None Long.UZERO) in
  (* [fromAccount.amount as Long || Long.UZERO]: a Long object is truthy;
     reading [amount] of [null] raises a TypeError *)
  let? fromAmount :=
    match fromAccount with
    | Some a => Ok (acc_amount a)
    | None => Throw TypeError_null_amount
    end in
  Ok (fromAccount, toAccount, feePool, fromAmount).

Definition calculateUpdatedBalances
           (fromAmount : Long) (toAccount : Account) (m : MessageSend)
           (transactionFee : Long) (fromKey toKey : bytes)
  : Result (Account * Account) :=
  let messageAmount := Long.fromValue (amount m) true in
  let amountToDeduct := Long.add messageAmount transactionFee in
  let? fromAddr := normalizeAddress (fromAddress m) in
  let updatedFromAccount :=
    mkAccount (VBuffer fromAddr) (Long.sub fromAmount amountToDeduct) in
  let isSelfTransfer := Buffer_compare_is_zero fromKey toKey in
  let? toAddr := normalizeAddress (toAddress m) in
  let updatedToAccount :=
    if isSelfTransfer then
      mkAccount (VBuffer toAddr) (Long.sub fromAmount transactionFee)
    else
      mkAccount (VBuffer toAddr) (Long.add (acc_amount toAccount) messageAmount) in
  Ok (updatedFromAccount, updatedToAccount).

Definition prepareStateOperations
           (updatedFromAccount updatedToAccount : Account) (updatedFeePool : Pool)
           (fromKey toKey feePoolKey : bytes) (isSelfTransfer : bool)
  : Result (list StateSetOperation * list StateDeleteOperation) :=
  let? updatedFromBytes := marshal (types_Account protobuf) updatedFromAccount in
  let? updatedToBytes := marshal (types_Account protobuf) updatedToAccount in
  let? updatedFeePoolBytes := marshal (types_Pool protobuf) updatedFeePool in
  let sets0 := [mkSet feePoolKey updatedFeePoolBytes] in
  let deletes0 := [] in
  let '(sets1, deletes1) :=
    if Long.eq (acc_amount updatedFromAccount) Long.UZERO && negb isSelfTransfer
    then (sets0, (deletes0 ++ [mkDelete fromKey])%list)
    else ((sets0 ++ [mkSet fromKey updatedFromBytes])%list, deletes0) in
  let sets2 :=
    if negb isSelfTransfer then (sets1 ++ [mkSet toKey updatedToBytes])%list else sets1 in
  Ok (sets2, deletes1).

Definition deliverMessageSend (c : Contract) (ids : QueryIds)
           (m : MessageSend) (fee : JsValue) : M DeliverTxResponse :=
  mcatch
    (let! normalizedFee := mlift (normalizeAmount rt fee) in
     let transactionFee := Long.fromValue normalizedFee true in
     match plugin c, config c with
     | Some plugin, Some config =>
         let! (fromBytes, toBytes, feePoolBytes) := readAccountsAndFeePool c ids m in
         let! (fromAccount, toAccount, feePool, fromAmount) :=
           mlift (unmarshalAccountsAndPool fromBytes toBytes feePoolBytes m) in
         let messageAmount := Long.fromValue (amount m) true in
         let amountToDeduct := Long.add messageAmount transactionFee in
         if Long.lt fromAmount amountToDeduct then
           mret (mkDeliverTxResponse (Some errInsufficientFunds))
         else
           let! fromKey := mlift (keyForAccount (fromAddress m)) in
           let! toKey := mlift (keyForAccount (toAddress m)) in
           let! feePoolKey := mlift (keyForFeePool rt (CidNumber (chainId config))) in
           let! (updatedFromAccount, updatedToAccount) :=
             mlift (calculateUpdatedBalances fromAmount toAccount m transactionFee
                                             fromKey toKey) in
           let updatedFeePool :=
             mkPool (Some (CidNumber (chainId config)))
                    (Long.add (pool_amount feePool) transactionFee) in
           let isSelfTransfer := Buffer_compare_is_zero fromKey toKey in
           let! (sets, deletes) :=
             mlift (prepareStateOperations updatedFromAccount updatedToAccount
                                           updatedFeePool fromKey toKey feePoolKey
                                           isSelfTransfer) in
           let! writeResponse := call_stateWrite plugin (mkWriteReq sets deletes) in
           mret (mkDeliverTxResponse (write_error writeResponse))
     | _, _ => mret (mkDeliverTxResponse (Some notInitialized))
     end)
    (fun e => mret (mkDeliverTxResponse (Some (errMarshal e)))).

Definition deliverTx (c : Contract) (ids : QueryIds) (request : TransactionRequest)
  : M DeliverTxResponse :=
  mcatch
    (match fromAny protobuf (tx_msg (tx request)) with
     | Throw e => mret (mkDeliverTxResponse (Some (errFromAny e)))
     | Ok message =>
         if isMessageSend message then
           match message with
           | KMessageSend m =>
               mcatch (deliverMessageSend c ids m (fee (tx request)))
                      (fun e => mret (mkDeliverTxResponse
                                        (Some (mkProtoError 1 "contract" e))))
           | KTransaction _ =>
               mret (mkDeliverTxResponse (Some errInvalidMessageCast))
           end
         else mret (mkDeliverTxResponse (Some errInvalidMessageCast))
     end)
    (fun e => mret (mkDeliverTxResponse (Some (errUnmarshal e)))).

End ContractModel.

(* ===================================================================== *)
(** ** src/network/index.ts: the pending table and the routing of inbound
       messages

    [pending] is a [Map<string, PendingRequest>] whose keys are [String(id)],
    the decimal numeral of an id; a numeral determines its number, so the
    table is keyed here by the number itself.  A [PendingRequest] is the
    resolve/reject pair of one promise, named by a [Waiter].  The contents
    of the config, genesis, begin and end payloads are only logged. *)

Module SocketClient.

Record FSMToPlugin : Type := mkFSMToPlugin {
  id : Long;
  msg_config : option unit;
  msg_genesis : option unit;
  msg_begin : option unit;
  msg_check : option TransactionRequest;
  msg_deliver : option TransactionRequest;
  msg_end : option unit;
  msg_stateRead : option StateReadResponse;
  msg_stateWrite : option StateWriteResponse;
  msg_error : option ProtoError
}.

Inductive Payload : Type :=
| PConfig
| PGenesis (e : option ProtoError)
| PBegin (e : option ProtoError)
| PCheck (r : CheckTxResponse)
| PDeliver (r : DeliverTxResponse)
| PEnd (e : option ProtoError)
| PStateRead (r : StateReadRequest)
| PStateWrite (w : StateWriteRequest)
| PError (e : ProtoError).

Record PluginToFSM : Type := mkPluginToFSM {
  out_id : Long;
  out_payload : Payload
}.

Definition Waiter : Type := nat.

Inductive Invocation : Type :=
| InvokeCheckTx (fsmId : Long) (r : TransactionRequest)
| InvokeDeliverTx (fsmId : Long) (r : TransactionRequest).

Record State : Type := mkState {
  pending : gmap Z Waiter;
  requestContract : gset Z;
  resolved : list (Waiter * FSMToPlugin);   (* promises resolved, with what *)
  rejected : list (Waiter * string);        (* promises rejected, with what *)
  started : list Invocation;                (* contract calls begun *)
  written : list PluginToFSM                (* frames written to the socket *)
}.

(** [String(id)] *)
Definition requestKey (i : Long) : Z := Long.toZ i.

Record MessageRouting : Type := mkRouting {
  messageId : Z;
  messageTypes : list string;
  isPending : bool
}.

Definition tag {A} (o : option A) (name : string) : list string :=
  match o with
  | Some _ => [name]
  | None => []
  end.

Definition analyzeMessageRouting (s : State) (message : FSMToPlugin) : MessageRouting :=
  let messageTypes :=
    (tag (msg_config message) "config" ++ tag (msg_genesis message) "genesis"
     ++ tag (msg_begin message) "begin" ++ tag (msg_check message) "check"
     ++ tag (msg_deliver message) "deliver" ++ tag (msg_end message) "end"
     ++ tag (msg_stateRead message) "stateRead"
     ++ tag (msg_stateWrite message) "stateWrite"
     ++ tag (msg_error message) "error")%list in
  let messageId := requestKey (id message) in
  mkRouting messageId messageTypes
            (match pending s !! messageId with Some _ => true | None => false end).

Definition handleFSMResponse (s : State) (message : FSMToPlugin) : State :=
  let messageId := requestKey (id message) in
  match pending s !! messageId with
  | None => s
  | Some waiter =>
      mkState (delete messageId (pending s))
              (requestContract s ∖ {[messageId]})
              (resolved s ++ [(waiter, message)])%list
              (rejected s) (started s) (written s)
  end.

(** What [processRequestMessage] comes to: nothing to send, a reply, a
    contract call whose reply follows when it completes, or a throw (whose
    message is abridged here: the source appends the id and the keys of the
    message). *)
Inductive RequestOutcome : Type :=
| NoResponse
| Respond (p : Payload)
| Invoke (i : Invocation)
| Failed (message : string).

Definition processRequestMessage (message : FSMToPlugin) : RequestOutcome :=
  match msg_config message with
  | Some _ => NoResponse
  | None =>
  match msg_genesis message with
  | Some _ => Respond (PGenesis None)
  | None =>
  match msg_begin message with
  | Some _ => Respond (PBegin None)
  | None =>
  match msg_check message with
  | Some r => Invoke (InvokeCheckTx (id message) r)
  | None =>
  match msg_deliver message with
  | Some r => Invoke (InvokeDeliverTx (id message) r)
  | None =>
  match msg_end message with
  | Some _ => Respond (PEnd None)
  | None =>
  match msg_stateRead message with
  | Some _ => NoResponse
  | None =>
  match msg_stateWrite message with
  | Some _ => NoResponse
  | None =>
  match msg_error message with
  | Some _ => NoResponse
  | None => Failed "Invalid FSM to plugin message type"
  end end end end end end end end end.

Definition write (s : State) (frame : PluginToFSM) : State :=
  mkState (pending s) (requestContract s) (resolved s) (rejected s) (started s)
          (written s ++ [frame])%list.

Definition handleFSMRequest (s : State) (message : FSMToPlugin) : State :=
  match processRequestMessage message with
  | NoResponse => s
  | Respond p => write s (mkPluginToFSM (id message) p)
  | Invoke i =>
      mkState (pending s) (requestContract s) (resolved s) (rejected s)
              (started s ++ [i])%list (written s)
  | Failed m => write s (mkPluginToFSM (id message) (PError (mkProtoError 1 "plugin" m)))
  end.

Definition handleInboundMessage (s : State) (message : FSMToPlugin) : State :=
  let routing := analyzeMessageRouting s message in
  if isPending routing then handleFSMResponse s message
  else handleFSMRequest s message.

(** [sendToPluginAsync] for a contract created with [fsmId]; [waiter] names
    the promise it creates. *)
Definition sendToPluginAsync (s : State) (fsmId : Long) (payload : Payload)
           (waiter : Waiter) : State :=
  let requestId := requestKey fsmId in
  mkState (<[requestId := waiter]> (pending s))
          (requestContract s ∪ {[requestId]})
          (resolved s) (rejected s) (started s)
          (written s ++ [mkPluginToFSM (Long.fromBits requestId true) payload])%list.

(** The timer of [waitForResponse] fires for [requestId]. *)
Definition timeoutFires (s : State) (requestId : Z) (waiter : Waiter) : State :=
  mkState (delete requestId (pending s))
          (requestContract s ∖ {[requestId]})
          (resolved s)
          (rejected s ++ [(waiter, "Plugin timeout occurred")])%list
          (started s) (written s).

(** A message that carries only what the FSM answers the plugin's own
    requests with. *)
Definition isResponse (message : FSMToPlugin) : Prop :=
  msg_genesis message = None /\ msg_begin message = None
  /\ msg_check message = None /\ msg_deliver message = None
  /\ msg_end message = None
  /\ (is_Some (msg_config message) \/ is_Some (msg_stateRead message)
      \/ is_Some (msg_stateWrite message) \/ is_Some (msg_error message)).

End SocketClient.

(* ===================================================================== *)
(** ** Vocabulary of the statements *)

(** An item joinLenPrefix writes. *)
Definition nonEmptyItem (item : option bytes) : bool :=
  match item with
  | Some (_ :: _) => true
  | _ => false
  end.

(** The claim's wording, for addresses: the value coerces to 20 bytes. *)
Definition coercesTo20Bytes (v : JsValue) : Prop :=
  exists b, toBuffer v = Ok b /\ length b = 20%nat.

(** The claim's wording, for amounts: the value is the integer [n]. *)
Definition denotesInteger (rt : Runtime) (v : JsValue) (n : Z) : Prop :=
  match v with
  | VNumber (Finite q) => Qeq q (inject_Z n)
  | VLong l => Long.toZ l = n
  | VLongLike lo hi u => Long.toZ (Long_fromBits32 lo hi u) = n
  | VString s => BigInt_of_string rt s = Ok n
  | _ => False
  end.

Definition nonZeroUint64 (rt : Runtime) (v : JsValue) : Prop :=
  exists n, 0 < n <= 2 ^ 64 - 1 /\ denotesInteger rt v n.

(** The batched read a deliver sends. *)
Definition deliverReadRequest (ids : QueryIds) (fromKey toKey feePoolKey : bytes)
  : StateReadRequest :=
  mkReadReq [mkQuery (feeQueryId ids) feePoolKey;
             mkQuery (fromQueryId ids) fromKey;
             mkQuery (toQueryId ids) toKey].

(** What [unmarshalAccountsAndPool] makes of the results [rs] of that read. *)
Definition readFrom (pb : ProtobufTypes) (ids : QueryIds) (rs : list StateQueryResult)
  : Result (option Account) :=
  unmarshal (types_Account pb) (fst (fst (parseResults ids rs))).

Definition readTo (pb : ProtobufTypes) (ids : QueryIds) (rs : list StateQueryResult)
           (m : MessageSend) : Account :=
  unmarshalOr (types_Account pb) (snd (fst (parseResults ids rs)))
              (mkAccount (toAddress m) Long.UZERO).

Definition readPool (pb : ProtobufTypes) (ids : QueryIds) (rs : list StateQueryResult)
  : Pool :=
  unmarshalOr (types_Pool pb) (snd (parseResults ids rs)) (mkPool None Long.UZERO).

Definition accountKey (addr : bytes) : bytes := ([x01; x01; x14] ++ addr)%list.

(** The batch the claim describes: the pool and the recipient are set; the
    sender is deleted when nothing is left and set otherwise. *)
Definition expectedNonSelfBatch (kPool kFrom kTo bPool bFrom bTo : bytes)
           (newFrom : Z) : StateWriteRequest :=
  if newFrom =? 0 then
    mkWriteReq [mkSet kPool bPool; mkSet kTo bTo] [mkDelete kFrom]
  else
    mkWriteReq [mkSet kPool bPool; mkSet kFrom bFrom; mkSet kTo bTo] [].


(** The single read checkTx sends. *)
Definition feeParamsKey : bytes := [x01; x07; x03; x2f; x66; x2f].

Definition checkReadRequest (rnd : Z) : StateReadRequest :=
  mkReadReq [mkQuery (randomQueryId rnd) feeParamsKey].

(** The FSM answers that read with an entry that decodes to [sendFee]. *)
Definition feeParamsRead (pb : ProtobufTypes) (p : SocketClientPlugin) (rnd : Z)
           (sendFee : Z) : Prop :=
  exists rs b,
    stateRead p (checkReadRequest rnd) = Ok (mkReadResp None rs)
    /\ firstValue rs = Some b
    /\ unmarshal (types_FeeParams pb) (Some b)
       = Ok (Some (mkFeeParams (VLong (Long.ofU64 sendFee)))).

(** The type name fromAny switches on. *)
Definition typeNameOf (url : string) : string := lastSegment EmptyString url.

Definition isSendName (n : string) : bool :=
  String.eqb n "MessageSend" || String.eqb n "types.MessageSend".

Definition isTransactionName (n : string) : bool :=
  String.eqb n "Transaction" || String.eqb n "types.Transaction".

(** A request of fee 2 whose message has type URL [url] and value [v]. *)
Definition requestOfKind (url : string) (v : bytes) : TransactionRequest :=
  mkTxRequest (mkTransaction (VLong (Long.ofU64 2)) (Some (mkAny (Some url) None (Some v)))).

(** [anyMessage.typeUrl ?? anyMessage.type_url]: the type URL fromAny reads. *)
Definition typeUrlOf (a : AnyMessage) : option string :=
  match typeUrl a with
  | Some u => Some u
  | None => type_url a
  end.

(** The same request with the URL under the field name [type_url]. *)
Definition requestOfKindSnake (url : string) (v : bytes) : TransactionRequest :=
  mkTxRequest (mkTransaction (VLong (Long.ofU64 2)) (Some (mkAny None (Some url) (Some v)))).

(* ===================================================================== *)
(** ** A concrete codec and a concrete FSM peer, for closed scenarios

    The general statements below hold for every codec and every peer.  The
    definitions of this module are one instance of them, simple enough to
    evaluate: fixed-width big-endian numbers and one length byte in front of
    an address. *)

Module Sample.

Definition be8 (v : Z) : bytes :=
  map (fun i => byte_of_Z (Z.shiftr v (8 * i))) [7; 6; 5; 4; 3; 2; 1; 0].

Definition truncated : string := "index out of range".

(** One length byte, then that many bytes. *)
Definition takePrefixed (bs : bytes) : Result (bytes * bytes) :=
  match bs with
  | [] => Throw truncated
  | n :: rest =>
      let k := Z.to_nat (Z_of_byte n) in
      if (length rest <? k)%nat then Throw truncated
      else Ok (firstn k rest, skipn k rest)
  end.

Definition takeU64 (bs : bytes) : Result (Long * bytes) :=
  if (length bs <? 8)%nat then Throw truncated
  else Ok (Long.ofU64 (be_value (firstn 8 bs)), skipn 8 bs).

Definition putPrefixed (v : JsValue) : Result bytes :=
  match v with
  | VUndefined => Ok [x00]
  | _ => let? b := toBuffer v in
         let? n := writeUInt8 (Z.of_nat (length b)) in
         Ok (n :: b)
  end.

Definition getAddress (b : bytes) : JsValue :=
  match b with
  | [] => VUndefined
  | _ => VUint8Array b
  end.

Definition AccountType : ProtobufMessage Account :=
  mkProtobufMessage
    (fun a => let? p := putPrefixed (acc_address a) in
              Ok (p ++ be8 (Long.bits (acc_amount a)))%list)
    (fun bs => let? (addr, rest) := takePrefixed bs in
               let? (amt, _) := takeU64 rest in
               Ok (mkAccount (VUint8Array addr) amt)).

Definition chainIdBits (c : option ChainId) : Z :=
  match c with
  | Some (CidNumber (Finite q)) => Qfloor q
  | Some (CidLong l) => Long.bits l
  | _ => 0
  end.

Definition PoolType : ProtobufMessage Pool :=
  mkProtobufMessage
    (fun p => Ok (be8 (chainIdBits (pool_id p)) ++ be8 (Long.bits (pool_amount p)))%list)
    (fun bs => let? (id, rest) := takeU64 bs in
               let? (amt, _) := takeU64 rest in
               Ok (mkPool (Some (CidLong id)) amt)).

Definition FeeParamsType : ProtobufMessage FeeParams :=
  mkProtobufMessage
    (fun p => match sendFee p with
              | VLong l => Ok (be8 (Long.bits l))
              | _ => Throw "sendFee: integer|Long expected"
              end)
    (fun bs => let? (f, _) := takeU64 bs in Ok (mkFeeParams (VLong f))).

Definition MessageSendType : ProtobufMessage MessageSend :=
  mkProtobufMessage
    (fun m => let? f := putPrefixed (fromAddress m) in
              let? t := putPrefixed (toAddress m) in
              Ok (f ++ t ++ be8 (Long.bits (amount m)))%list)
    (fun bs => let? (f, rest) := takePrefixed bs in
               let? (t, rest') := takePrefixed rest in
               let? (amt, _) := takeU64 rest' in
               Ok (mkMessageSend (getAddress f) (getAddress t) amt)).

Definition TransactionType : ProtobufMessage Transaction :=
  mkProtobufMessage
    (fun t => match fee t with
              | VLong l => Ok (be8 (Long.bits l))
              | _ => Throw "fee: integer|Long expected"
              end)
    (fun bs => let? (f, _) := takeU64 bs in Ok (mkTransaction (VLong f) None)).

Definition protobuf : ProtobufTypes :=
  mkProtobufTypes AccountType PoolType FeeParamsType MessageSendType TransactionType.

(** The scenarios pass Longs and numbers only, so the two parsers are never
    called; the text of JSON.stringify only shows inside an error message. *)
Definition rt : Runtime :=
  mkRuntime (fun _ => Ok Long.ZERO) (fun _ => Ok 0) (fun _ => "null").

(** The FSM's key-value store and a peer that answers every query with the
    entry stored under its key, echoing the query id. *)
Definition Store : Type := list (bytes * bytes).

Fixpoint storeGet (s : Store) (k : bytes) : option bytes :=
  match s with
  | [] => None
  | (k', v) :: rest => if bytes_eqb k' k then Some v else storeGet rest k
  end.

Definition answer (s : Store) (q : StateKeyQuery) : StateQueryResult :=
  mkResult (queryId q)
           (match storeGet s (key q) with
            | Some v => [mkEntry (Some (key q)) (Some v)]
            | None => []
            end).

Definition peer (s : Store) : SocketClientPlugin :=
  mkPlugin (fun req => Ok (mkReadResp None (map (answer s) (keys req))))
           (fun _ => Ok (mkWriteResp None)).

Definition contract (s : Store) : Contract :=
  mkContract (Some (mkConfig (num 1) "/tmp/plugin/")) (Some (peer s)).

(** A peer that reads as [peer] does and answers every write with the
    error [e]. *)
Definition refusingPeer (s : Store) (e : ProtoError) : SocketClientPlugin :=
  mkPlugin (stateRead (peer s)) (fun _ => Ok (mkWriteResp (Some e))).

Definition ids : QueryIds := generateQueryIds 11 22 33.

Definition addrA : bytes := repeat x01 20.
Definition addrB : bytes := repeat x02 20.

Definition unwrap (r : Result bytes) : bytes :=
  match r with Ok b => b | Throw _ => [] end.

Definition kA : bytes := unwrap (keyForAccount (VUint8Array addrA)).
Definition kB : bytes := unwrap (keyForAccount (VUint8Array addrB)).
Definition kPool : bytes := unwrap (keyForFeePool rt (CidNumber (num 1))).
Definition kParams : bytes := unwrap keyForFeeParams.

Definition accountBytes (addr : bytes) (n : Z) : bytes :=
  unwrap (encode AccountType (mkAccount (VBuffer addr) (Long.ofU64 n))).
Definition poolBytes (n : Z) : bytes :=
  unwrap (encode PoolType (mkPool (Some (CidNumber (num 1))) (Long.ofU64 n))).
Definition feeParamsBytes (n : Z) : bytes :=
  unwrap (encode FeeParamsType (mkFeeParams (VLong (Long.ofU64 n)))).

Definition sendAny (url : string) (from to : bytes) (amt : Z) : option AnyMessage :=
  Some (mkAny (Some url) None
              (Some (unwrap (encode MessageSendType
                                    (mkMessageSend (VUint8Array from) (VUint8Array to)
                                                   (Long.ofU64 amt)))))).

Definition sendRequest (from to : bytes) (amt fee : Z) : TransactionRequest :=
  mkTxRequest (mkTransaction (VLong (Long.ofU64 fee))
                             (sendAny "types.MessageSend" from to amt)).

(** Stores of the scenarios: balances of A and B, the pool, the send fee. *)
Definition entryOpt (k : bytes) (v : option bytes) : Store :=
  match v with
  | Some b => [(k, b)]
  | None => []
  end.

Definition store (balA balB pool sendFee : option Z) : Store :=
  (entryOpt kA (option_map (accountBytes addrA) balA)
   ++ entryOpt kB (option_map (accountBytes addrB) balB)
   ++ entryOpt kPool (option_map poolBytes pool)
   ++ entryOpt kParams (option_map feeParamsBytes sendFee))%list.

Definition send (from to : bytes) (amt : Z) : MessageSend :=
  mkMessageSend (VUint8Array from) (VUint8Array to) (Long.ofU64 amt).

(** A 19-byte address and a store that holds its account. *)
Definition addrShort : bytes := repeat x03 19.
Definition kShort : bytes := unwrap (keyForAccount (VUint8Array addrShort)).
Definition shortStore : Store :=
  [(kShort, accountBytes addrShort 1000); (kB, accountBytes addrB 50)].

Definition readResultsAt (s : Store) (kFrom kTo : bytes) : list StateQueryResult :=
  map (answer s) (keys (deliverReadRequest ids kFrom kTo kPool)).

Definition readResults (s : Store) (from to : bytes) : list StateQueryResult :=
  map (answer s)
      (keys (deliverReadRequest ids (accountKey from) (accountKey to) kPool)).

End Sample.

(* ===================================================================== *)
(** ** src/network/index.ts: frames on the socket

    [startListening] keeps a byte accumulator and the length of the frame it
    is waiting for; [sendProtoMsg] writes one frame.  The messages handed to
    [handleInboundMessage] are collected in a list, in order. *)

Module Framing.

Record ReaderState : Type := mkReader {
  buffer : bytes;
  expectedLength : option Z
}.

(** [let buffer = Buffer.alloc(0); let expectedLength = null] *)
Definition idle : ReaderState := mkReader [] None.

(** [buffer.readUInt32BE(0)] on a buffer of at least four bytes. *)
Definition readUInt32BE (b : bytes) : Z := be_value (firstn 4 b).

(** The first [if] of the loop body. *)
Definition readPrefix (buf : bytes) (expected : option Z) : bytes * option Z :=
  match expected with
  | None =>
      if (4 <=? length buf)%nat then (skipn 4 buf, Some (readUInt32BE buf))
      else (buf, None)
  | Some n => (buf, Some n)
  end.

(** The [while (buffer.length > 0)] loop, with [fuel] iterations at most. *)
Fixpoint drain (fuel : nat) (buf : bytes) (expected : option Z)
  : list bytes * ReaderState :=
  match fuel with
  | O => ([], mkReader buf expected)
  | S fuel' =>
      match buf with
      | [] => ([], mkReader buf expected)
      | _ :: _ =>
          let (buf1, expected1) := readPrefix buf expected in
          match expected1 with
          | Some n =>
              if n <=? Z.of_nat (length buf1) then
                let messageBytes := firstn (Z.to_nat n) buf1 in
                let (ms, st) := drain fuel' (skipn (Z.to_nat n) buf1) None in
                (messageBytes :: ms, st)
              else ([], mkReader buf1 expected1)
          | None => ([], mkReader buf1 expected1)
          end
      end
  end.

(** Every iteration that goes on lowers this number. *)
Definition measure (buf : bytes) (expected : option Z) : nat :=
  (2 * length buf + match expected with Some _ => 1 | None => 0 end)%nat.

(** The loop run to its end. *)
Definition drainAll (buf : bytes) (expected : option Z) : list bytes * ReaderState :=
  drain (S (measure buf expected)) buf expected.

(** The ['data'] handler: [buffer = Buffer.concat([buffer, data])], then the
    loop. *)
Definition onData (st : ReaderState) (data : bytes) : list bytes * ReaderState :=
  drainAll (buffer st ++ data)%list (expectedLength st).

(** The handler called on a sequence of chunks. *)
Fixpoint onChunks (st : ReaderState) (chunks : list bytes)
  : list bytes * ReaderState :=
  match chunks with
  | [] => ([], st)
  | data :: rest =>
      let (ms, st1) := onData st data in
      let (ms', st2) := onChunks st1 rest in
      ((ms ++ ms')%list, st2)
  end.

(** [lengthPrefix.writeUInt32BE(n, 0)] on a fresh 4-byte buffer. *)
Definition writeUInt32BE (n : Z) : Result bytes :=
  if (0 <=? n) && (n <=? 4294967295) then
    Ok (map (fun i => byte_of_Z (Z.shiftr n (8 * i))) [3; 2; 1; 0])
  else Throw "The value of 'value' is out of range. It must be >= 0 and <= 4294967295.".

(** [sendProtoMsg]: [connected] tells whether [this.conn] is set, [encoded]
    is [messageType.encode(messageType.create(data)).finish()]; the result is
    what [conn.write] is given. *)
Definition sendProtoMsg (connected : bool) (encoded : Result bytes) : Result bytes :=
  if negb connected then Throw "No connection available for sending message"
  else
    try_catch
      (let? messageBytes := encoded in
       let? lengthPrefix := writeUInt32BE (Z.of_nat (length messageBytes)) in
       Ok (lengthPrefix ++ messageBytes)%list)
      (fun m => Throw ("Failed to send plugin message: " ++ m)).

(** The four bytes in front of a message of length [n] (taken modulo 2^32). *)
Definition be4 (n : Z) : bytes :=
  map (fun i => byte_of_Z (Z.shiftr n (8 * i))) [3; 2; 1; 0].

Definition frameOf (m : bytes) : bytes := (be4 (Z.of_nat (length m)) ++ m)%list.

(** The length the reader has taken off the accumulator and still waits for. *)
Definition pendingPrefix (expected : option Z) : bytes :=
  match expected with
  | Some n => be4 n
  | None => []
  end.

End Framing.


(* ===================================================================== *)
(** ** src/network/index.ts: stateRead and stateWrite as a contract sees them

    [sendToPluginSync] ends in one of two ways: the promise of the request is
    resolved with the message [handleFSMResponse] hands over, or the timer of
    [waitForResponse] rejects it. *)

Module Socket.

Inductive Outcome : Type :=
| Answered (response : SocketClient.FSMToPlugin)
| TimedOut.

Definition sendToPluginSync (o : Outcome) : Result SocketClient.FSMToPlugin :=
  match o with
  | Answered response => Ok response
  | TimedOut => Throw "Plugin timeout occurred"
  end.

Definition stateRead (o : Outcome) : Result StateReadResponse :=
  let? response := sendToPluginSync o in
  match SocketClient.msg_stateRead response with
  | None => Throw "Unexpected FSM response to state read"
  | Some r => Ok r
  end.

Definition stateWrite (o : Outcome) : Result StateWriteResponse :=
  let? response := sendToPluginSync o in
  match SocketClient.msg_stateWrite response with
  | None => Throw "Unexpected FSM response to state write"
  | Some r => Ok r
  end.

(** The plugin object of a contract, given how the FSM treats each request. *)
Definition plugin (onRead : StateReadRequest -> Outcome)
           (onWrite : StateWriteRequest -> Outcome) : SocketClientPlugin :=
  mkPlugin (fun request => stateRead (onRead request))
           (fun request => stateWrite (onWrite request)).

(** A message of the FSM that carries an error payload and nothing else. *)
Definition errorMessage (i : Long) (e : ProtoError) : SocketClient.FSMToPlugin :=
  SocketClient.mkFSMToPlugin i None None None None None None None None (Some e).

End Socket.

(* ===================================================================== *)
(** ** Vocabulary of the further statements *)

(** The value of the last result that [sel] picks, if there is one. *)
Definition valueOfLast (sel : StateQueryResult -> bool) (rs : list StateQueryResult)
  : option bytes :=
  match find sel (rev rs) with
  | Some r => entryValue r
  | None => None
  end.

(** The result answers the query sent under [i]. *)
Definition answersQuery (i : Long) (r : StateQueryResult) : bool :=
  Long.eq (res_queryId r) i.

(** A client that has sent and received nothing, and the FSM's answer to a
    state read under id [i]. *)
Definition freshClient : SocketClient.State :=
  SocketClient.mkState ∅ ∅ [] [] [] [].

Definition readAnswer (i : Long) (r : StateReadResponse) : SocketClient.FSMToPlugin :=
  SocketClient.mkFSMToPlugin i None None None None None None (Some r) None None.

Definition writeAnswer (i : Long) (r : StateWriteResponse) : SocketClient.FSMToPlugin :=
  SocketClient.mkFSMToPlugin i None None None None None None None (Some r) None.

(** The text holds no slash. *)
Fixpoint noSlash (s : string) : bool :=
  match s with
  | EmptyString => true
  | String c rest => negb (Ascii.eqb c "/"%char) && noSlash rest
  end.

(* ===================================================================== *)
(** ** src/core/config.ts

    [String_of_number] is the text [chainId] is printed with inside a
    template string and [trim] is [String.prototype.trim]; both belong to the
    JavaScript runtime. *)

Section ConfigModel.

Variable String_of_number : JsNumber -> string.
Variable trim : string -> string.

(** [n < 1] *)
Definition number_lt1 (n : JsNumber) : bool :=
  match n with
  | Finite q => negb (Qle_bool 1 q)
  | NegInf => true
  | NaN | PosInf => false
  end.

Definition Config_validate (c : Config) : Result unit :=
  if negb (Number_isInteger (chainId c)) || number_lt1 (chainId c) then
    Throw ("Invalid chainId: " ++ String_of_number (chainId c)
           ++ ". Must be a positive integer.")
  else if String.eqb (trim (dataDirPath c)) EmptyString then
    Throw ("Invalid dataDirPath: " ++ dataDirPath c ++ ". Must be a non-empty string.")
  else Ok tt.

Definition DEFAULT_CHAIN_ID : JsNumber := num 1.
Definition DEFAULT_DATA_DIR : string := "/tmp/plugin/".

(** [new Config(options)] *)
Definition Config_new (options_chainId : option JsNumber)
           (options_dataDirPath : option string) : Result Config :=
  let this :=
    mkConfig (match options_chainId with Some n => n | None => DEFAULT_CHAIN_ID end)
             (match options_dataDirPath with Some d => d | None => DEFAULT_DATA_DIR end) in
  let? _ := Config_validate this in
  Ok this.

(** [config.update(updates)] *)
Definition Config_update (this : Config) (updates_chainId : option JsNumber)
           (updates_dataDirPath : option string) : Result Config :=
  Config_new (Some (match updates_chainId with Some n => n | None => chainId this end))
             (Some (match updates_dataDirPath with
                    | Some d => d
                    | None => dataDirPath this
                    end)).

End ConfigModel.

(* ===================================================================== *)
(** * Properties *)

(** ** Bytes *)

Lemma Z_of_byte_of_Z (z : Z) : Z_of_byte (byte_of_Z z) = z mod 256.
Proof.
  unfold Z_of_byte, byte_of_Z.
  assert (Hr : 0 <= z mod 256 < 256) by (apply Z.mod_pos_bound; lia).
  destruct (Byte.of_N (Z.to_N (z mod 256))) as [b|] eqn:E.
  - apply Byte.to_of_N in E. rewrite E. rewrite Z2N.id; lia.
  - apply Byte.of_N_None_iff in E. lia.
Qed.

Lemma bytes_eqb_eq (a b : bytes) : bytes_eqb a b = true <-> a = b.
Proof.
  revert b. induction a as [|x a IH]; intros [|y b]; simpl; split; intros H;
    try reflexivity; try discriminate.
  - apply andb_true_iff in H as [Hx Hr].
    apply Byte.byte_dec_bl in Hx. apply IH in Hr. congruence.
  - injection H as -> ->. apply andb_true_iff. split.
    + now apply Byte.byte_dec_lb.
    + now apply IH.
Qed.

Lemma bytes_eqb_refl (a : bytes) : bytes_eqb a a = true.
Proof. now apply bytes_eqb_eq. Qed.

Lemma bytes_eqb_neq (a b : bytes) : a <> b -> bytes_eqb a b = false.
Proof.
  intros H. destruct (bytes_eqb a b) eqn:E; [|reflexivity].
  apply bytes_eqb_eq in E. contradiction.
Qed.

Lemma writeBigUInt64BE_value (v : Z) :
  0 <= v < 2 ^ 64 ->
  exists bs, writeBigUInt64BE v = Ok bs /\ length bs = 8%nat /\ be_value bs = v.
Proof.
  intros Hv. unfold writeBigUInt64BE.
  replace ((0 <=? v) && (v <? 2 ^ 64)) with true
    by (symmetry; apply andb_true_iff; split; [apply Z.leb_le | apply Z.ltb_lt]; lia).
  eexists. split; [reflexivity|]. split; [reflexivity|].
  unfold be_value. simpl fold_left.
  rewrite !Z_of_byte_of_Z, !Z.shiftr_div_pow2 by lia.
  change (2 ^ 64) with 18446744073709551616 in Hv.
  change (2 ^ (8 * 7)) with 72057594037927936.
  change (2 ^ (8 * 6)) with 281474976710656.
  change (2 ^ (8 * 5)) with 1099511627776.
  change (2 ^ (8 * 4)) with 4294967296.
  change (2 ^ (8 * 3)) with 16777216.
  change (2 ^ (8 * 2)) with 65536.
  change (2 ^ (8 * 1)) with 256.
  change (2 ^ (8 * 0)) with 1.
  Z.to_euclidean_division_equations. lia.
Qed.

Lemma writeUInt8_small (n : Z) : 0 <= n <= 255 -> writeUInt8 n = Ok (byte_of_Z n).
Proof.
  intros H. unfold writeUInt8.
  replace ((0 <=? n) && (n <=? 255)) with true; [reflexivity|].
  symmetry. apply andb_true_iff. split; apply Z.leb_le; lia.
Qed.

(** ** joinLenPrefix *)

Lemma joinLenPrefix_skips (items : list (option bytes)) :
  joinLenPrefix items = joinLenPrefix (List.filter nonEmptyItem items).
Proof.
  induction items as [|[[|b item]|] rest IH]; simpl; auto.
  rewrite IH. reflexivity.
Qed.

Lemma joinLenPrefix_two (p a : bytes) :
  (0 < length p <= 255)%nat -> (0 < length a <= 255)%nat ->
  joinLenPrefix [Some p; Some a]
  = Ok (byte_of_Z (Z.of_nat (length p)) :: p
        ++ byte_of_Z (Z.of_nat (length a)) :: a)%list.
Proof.
  intros Hp Ha. simpl.
  destruct (Z.of_nat (length p) =? 0) eqn:Ep; [apply Z.eqb_eq in Ep; lia|].
  destruct (Z.of_nat (length a) =? 0) eqn:Ea; [apply Z.eqb_eq in Ea; lia|].
  rewrite !writeUInt8_small by lia. simpl.
  now rewrite app_nil_r.
Qed.

Lemma keyForAccount_20 (v : JsValue) (addr : bytes) :
  toBuffer v = Ok addr -> length addr = 20%nat ->
  keyForAccount v = Ok ([x01; x01; x14] ++ addr)%list.
Proof.
  intros Hb Hl. unfold keyForAccount. rewrite Hb. cbn [rbind].
  unfold ACCOUNT_PREFIX. rewrite joinLenPrefix_two by (simpl; lia).
  rewrite Hl. reflexivity.
Qed.

Lemma keyForFeePool_u64 (rt : Runtime) (c : Z) :
  0 <= c < 2 ^ 64 ->
  exists bs, length bs = 8%nat /\ be_value bs = c
             /\ keyForFeePool rt (CidNumber (num c)) = Ok ([x01; x02; x08] ++ bs)%list
             /\ keyForFeePool rt (CidLong (Long.ofU64 c)) = Ok ([x01; x02; x08] ++ bs)%list.
Proof.
  intros Hc. destruct (writeBigUInt64BE_value Hc) as (bs & Hw & Hl & Hv).
  exists bs. split; [exact Hl|]. split; [exact Hv|].
  assert (Hj : joinLenPrefix [Some POOL_PREFIX; Some bs]
               = Ok ([x01; x02; x08] ++ bs)%list).
  { unfold POOL_PREFIX. rewrite joinLenPrefix_two by (simpl; lia).
    rewrite Hl. reflexivity. }
  split.
  - unfold keyForFeePool, formatUint64, BigInt_of_number, num, Number_isInteger.
    rewrite Qfloor_Z.
    replace (Qeq_bool (inject_Z c) (inject_Z c)) with true
      by (symmetry; apply Qeq_bool_iff; reflexivity).
    cbn [rbind]. rewrite Hw. cbn [rbind]. exact Hj.
  - unfold keyForFeePool, formatUint64, Long.toZ, Long.isNegative, Long.ofU64.
    cbn [Long.unsigned Long.bits negb andb]. rewrite Hw. cbn [rbind]. exact Hj.
Qed.

(** C7. For every 20-byte address, keyForAccount is
    0x01 0x01 0x14 followed by the address; for every chain id below 2^64,
    given as a number or as an unsigned Long, keyForFeePool is
    0x01 0x02 0x08 followed by the eight big-endian bytes of the id; and
    joinLenPrefix writes nothing for an empty or absent item. *)
Theorem key_codec_layout :
  (forall (v : JsValue) (addr : bytes),
      toBuffer v = Ok addr -> length addr = 20%nat ->
      keyForAccount v = Ok ([x01; x01; x14] ++ addr)%list)
  /\ (forall (rt : Runtime) (c : Z),
         0 <= c < 2 ^ 64 ->
         exists bs, length bs = 8%nat /\ be_value bs = c
                    /\ keyForFeePool rt (CidNumber (num c))
                       = Ok ([x01; x02; x08] ++ bs)%list
                    /\ keyForFeePool rt (CidLong (Long.ofU64 c))
                       = Ok ([x01; x02; x08] ++ bs)%list)
  /\ (forall items : list (option bytes),
         joinLenPrefix items = joinLenPrefix (List.filter nonEmptyItem items)).
Proof.
  split; [exact keyForAccount_20|].
  split; [exact keyForFeePool_u64 | exact joinLenPrefix_skips].
Qed.

Lemma key_codec_layout_witness :
  keyForAccount (VUint8Array Sample.addrA) = Ok ([x01; x01; x14] ++ Sample.addrA)%list
  /\ exists bs, length bs = 8%nat /\ be_value bs = 1
                /\ keyForFeePool Sample.rt (CidNumber (num 1))
                   = Ok ([x01; x02; x08] ++ bs)%list
                /\ keyForFeePool Sample.rt (CidLong (Long.ofU64 1))
                   = Ok ([x01; x02; x08] ++ bs)%list.
Proof.
  split.
  - apply (proj1 key_codec_layout (VUint8Array Sample.addrA) Sample.addrA);
      reflexivity.
  - apply (proj1 (proj2 key_codec_layout) Sample.rt 1). lia.
Defined.

(** ** long.js comparisons against the numbers they stand for *)

Lemma wrap_range (z : Z) : 0 <= Long.wrap z < 2 ^ 64.
Proof. unfold Long.wrap, Long.TWO_PWR_64. apply Z.mod_pos_bound. lia. Qed.

Lemma wrap_small (z : Z) : 0 <= z < 2 ^ 64 -> Long.wrap z = z.
Proof. intros H. unfold Long.wrap, Long.TWO_PWR_64. apply Z.mod_small. exact H. Qed.

Ltac long_unfold :=
  unfold Long.greaterThan, Long.lt, Long.compare, Long.eq, Long.isNegative,
    Long.topBit, Long.sub, Long.add, Long.neg, Long.toZ, Long.fromValue,
    Long.fromBits, Long.ofU64, Long.ZERO, Long.UZERO, Long.TWO_PWR_63 in *;
  cbn [Long.bits Long.unsigned negb andb orb Bool.eqb] in *.

Ltac bool_cases :=
  repeat match goal with
         | |- context [?a <=? ?b] => destruct (Z.leb_spec a b)
         | |- context [?a <? ?b] => destruct (Z.ltb_spec a b)
         | |- context [?a =? ?b] => destruct (Z.eqb_spec a b)
         | |- context [?a >? ?b] => rewrite (Z.gtb_ltb a b)
         end;
  cbn [negb andb orb Bool.eqb] in *.

(** A Long with well-formed bits is greater than zero exactly when the
    number it stands for is. *)
Lemma greaterThan_zero_wf (l : Long) :
  Long.wf l -> (Long.greaterThan l Long.ZERO = true <-> 0 < Long.toZ l).
Proof.
  destruct l as [b u]. unfold Long.wf. cbn [Long.bits]. intros Hwf.
  change Long.TWO_PWR_64 with (2 ^ 64) in Hwf.
  assert (Hw : Long.wrap b = b) by (apply wrap_small; exact Hwf).
  do 2 long_unfold.
  change (Long.wrap (- 0)) with 0. rewrite Z.add_0_r, Hw.
  change Long.TWO_PWR_64 with (2 ^ 64).
  destruct u; cbn [negb andb orb Bool.eqb]; bool_cases; split; intros; try lia;
    try discriminate; try reflexivity.
Qed.

Lemma greaterThan_zero (z : Z) (u : bool) :
  Long.greaterThan (Long.fromBits z u) Long.ZERO = true
  <-> 0 < Long.toZ (Long.fromBits z u).
Proof.
  apply greaterThan_zero_wf. unfold Long.wf, Long.fromBits. cbn [Long.bits].
  apply wrap_range.
Qed.

Lemma Long_fromBits32_wf (lo hi : Z) (u : bool) : Long.wf (Long_fromBits32 lo hi u).
Proof.
  unfold Long.wf, Long_fromBits32, Long.TWO_PWR_64. cbn [Long.bits].
  assert (0 <= hi mod 2 ^ 32 < 2 ^ 32) by (apply Z.mod_pos_bound; lia).
  assert (0 <= lo mod 2 ^ 32 < 2 ^ 32) by (apply Z.mod_pos_bound; lia).
  change (2 ^ 64) with (2 ^ 32 * 2 ^ 32). nia.
Qed.

(** On the unsigned Longs of a u64: [lt] is [<], and the three operations
    of the balance arithmetic are the ones of Z reduced modulo 2^64. *)
Lemma lt_ofU64 (a b : Z) :
  0 <= a < 2 ^ 64 -> 0 <= b < 2 ^ 64 ->
  Long.lt (Long.ofU64 a) (Long.ofU64 b) = (a <? b).
Proof.
  intros Ha Hb. do 2 long_unfold.
  destruct (Z.eqb_spec a b); destruct (Z.ltb_spec a b);
    cbn [negb andb orb]; try reflexivity; lia.
Qed.

Lemma add_ofU64 (a b : Z) :
  Long.add (Long.ofU64 a) (Long.ofU64 b) = Long.ofU64 ((a + b) mod 2 ^ 64).
Proof. reflexivity. Qed.

Lemma sub_ofU64 (a b : Z) :
  0 <= b <= a -> a < 2 ^ 64 ->
  Long.sub (Long.ofU64 a) (Long.ofU64 b) = Long.ofU64 (a - b).
Proof.
  intros Hb Ha. long_unfold. f_equal. unfold Long.wrap, Long.TWO_PWR_64.
  rewrite Zplus_mod_idemp_r. apply Z.mod_small. lia.
Qed.

Lemma fromValue_ofU64 (a : Z) :
  0 <= a < 2 ^ 64 -> Long.fromValue (Long.ofU64 a) true = Long.ofU64 a.
Proof.
  intros Ha. unfold Long.fromValue, Long.fromBits, Long.ofU64. cbn [Long.bits].
  now rewrite wrap_small.
Qed.

Lemma eq_UZERO_ofU64 (a : Z) :
  Long.eq (Long.ofU64 a) Long.UZERO = (a =? 0).
Proof. reflexivity. Qed.

(** ** Validators *)

Lemma validateAddress_iff (v : JsValue) :
  validateAddress v = true <-> coercesTo20Bytes v.
Proof.
  unfold validateAddress, coercesTo20Bytes.
  destruct v as [| |b|n|s|l|b|b|xs|lo hi u|]; cbn [falsy toBuffer];
    try (split; [discriminate | intros (b' & Hb & _); discriminate]).
  - destruct b; (split; [discriminate | intros (b' & Hb & _); discriminate]).
  - destruct n as [q| | |]; [destruct (Qeq_bool q 0)| | |];
      (split; [discriminate | intros (b' & Hb & _); discriminate]).
  - destruct s as [|c s].
    + split; [discriminate|]. intros (b' & Hb & Hl). injection Hb as <-.
      discriminate.
    + split.
      * intros H. eexists. split; [reflexivity|]. apply Z.eqb_eq in H. lia.
      * intros (b' & Hb & Hl). injection Hb as <-. apply Z.eqb_eq. lia.
  - split.
    + intros H. eexists. split; [reflexivity|]. apply Z.eqb_eq in H. lia.
    + intros (b' & Hb & Hl). injection Hb as <-. apply Z.eqb_eq. lia.
  - split.
    + intros H. eexists. split; [reflexivity|]. apply Z.eqb_eq in H. lia.
    + intros (b' & Hb & Hl). injection Hb as <-. apply Z.eqb_eq. lia.
  - split.
    + intros H. eexists. split; [reflexivity|]. apply Z.eqb_eq in H. lia.
    + intros (b' & Hb & Hl). injection Hb as <-. apply Z.eqb_eq. lia.
Qed.

Lemma validateAmount_number (rt : Runtime) (n : JsNumber) :
  validateAmount rt (VNumber n) = true <-> exists q, n = Finite q /\ (0 < q)%Q.
Proof.
  cbn [validateAmount]. destruct n as [q| | |]; cbn [Number_isFinite number_gt0 andb];
    try (split; [discriminate | intros (q' & Hq & _); discriminate]).
  split.
  - intros H. exists q. split; [reflexivity|].
    apply negb_true_iff in H. apply Qnot_le_lt. intros Hle.
    apply Qle_bool_iff in Hle. congruence.
  - intros (q' & Hq & Hpos). injection Hq as <-.
    apply negb_true_iff. destruct (Qle_bool q 0) eqn:E; [|reflexivity].
    apply Qle_bool_iff in E. exfalso. apply (Qlt_not_le _ _ Hpos E).
Qed.

(** C8, as amended. validateAddress holds exactly of the values that coerce
    to 20 bytes.  validateAmount holds of a number exactly when it is finite
    and greater than zero (a fraction or a number above 2^64-1 passes), of a
    Long or a Long-like object exactly when the number it stands for under
    its own signedness is greater than zero, of a string exactly when the
    Long parsed from it passes, and of nothing else. *)
Theorem validators_characterised (rt : Runtime) :
  (forall v, validateAddress v = true <-> coercesTo20Bytes v)
  /\ (forall n, validateAmount rt (VNumber n) = true
                <-> exists q, n = Finite q /\ (0 < q)%Q)
  /\ (forall z u, validateAmount rt (VLong (Long.fromBits z u)) = true
                  <-> 0 < Long.toZ (Long.fromBits z u))
  /\ (forall lo hi u, validateAmount rt (VLongLike lo hi u) = true
                      <-> 0 < Long.toZ (Long_fromBits32 lo hi u))
  /\ (forall s, validateAmount rt (VString s) = true
                <-> exists l, Long_fromString rt s = Ok l
                              /\ validateAmount rt (VLong l) = true)
  /\ (forall v, validateAmount rt v = true ->
                match v with
                | VNumber _ | VLong _ | VString _ | VLongLike _ _ _ => True
                | _ => False
                end).
Proof.
  split; [exact validateAddress_iff|].
  split; [exact (validateAmount_number rt)|].
  split; [intros z u; apply greaterThan_zero|].
  split; [intros lo hi u; apply greaterThan_zero_wf, Long_fromBits32_wf|].
  split.
  - intros s. cbn [validateAmount]. destruct (Long_fromString rt s) as [l|m].
    + split; [intros H; exists l; auto | intros (l' & Hl & H); congruence].
    + split; [discriminate | intros (l' & Hl & _); discriminate].
  - intros v H. destruct v; try exact I; discriminate.
Qed.

(** The address of scenario 1 and the u64 5 pass; so does one half. *)
Lemma validators_characterised_witness :
  coercesTo20Bytes (VUint8Array Sample.addrA)
  /\ 0 < Long.toZ (Long.fromBits 5 true)
  /\ exists q, Finite (1 # 2) = Finite q /\ (0 < q)%Q.
Proof.
  destruct (validators_characterised Sample.rt) as (Haddr & Hnum & Hlong & _).
  split; [apply Haddr; reflexivity|].
  split; [apply Hlong; reflexivity | apply Hnum; reflexivity].
Defined.

(** C8, as stated, fails: one half is a finite number greater than zero, so
    validateAmount accepts it, and it is no unsigned integer. *)
Lemma validateAmount_accepts_fraction :
  validateAmount Sample.rt (VNumber (Finite (1 # 2))) = true
  /\ ~ nonZeroUint64 Sample.rt (VNumber (Finite (1 # 2))).
Proof.
  split; [reflexivity|].
  intros (n & _ & Hn). cbn [denotesInteger] in Hn.
  unfold Qeq in Hn. cbn in Hn. lia.
Qed.

(* ===================================================================== *)
(** ** Running a deliver *)

Ltac run_handler :=
  repeat (cbn [mbind mlift mret mcatch rbind try_catch call_stateRead
                 call_stateWrite config plugin read_error results write_error
                 fst snd app acc_amount pool_amount];
          try match goal with
              | H : ?x = _ |- context [?x] => rewrite H
              end).

(** Case analysis on the next call a handler makes. *)
Ltac split_call :=
  match goal with
  | |- context [plugin ?c] => destruct (plugin c) eqn:?
  | |- context [config ?c] => destruct (config c) eqn:?
  | |- context [fromAny ?pb ?m] => destruct (fromAny pb m) as [[?|?]|?] eqn:?
  | |- context [isMessageSend ?m] => destruct (isMessageSend m) eqn:?
  | |- context [normalizeAmount ?r ?v] => destruct (normalizeAmount r v) eqn:?
  | |- context [keyForAccount ?v] => destruct (keyForAccount v) eqn:?
  | |- context [keyForFeePool ?r ?v] => destruct (keyForFeePool r v) eqn:?
  | |- context [stateRead ?p ?r] => destruct (stateRead p r) as [[[?|] ?]|?] eqn:?
  | |- context [parseResults ?i ?r] => destruct (parseResults i r) as [[? ?] ?] eqn:?
  | |- context [firstValue ?r] => destruct (firstValue r) eqn:?
  | |- context [unmarshal ?t ?b] => destruct (unmarshal t b) as [[?|]|?] eqn:?
  | |- context [Long.lt ?a ?b] => destruct (Long.lt a b) eqn:?
  | |- context [normalizeAddress ?v] => destruct (normalizeAddress v) eqn:?
  | |- context [marshal ?t ?v] => destruct (marshal t v) eqn:?
  | |- context [Long.eq ?a ?b] => destruct (Long.eq a b) eqn:?
  | |- context [Buffer_compare_is_zero ?a ?b] =>
      destruct (Buffer_compare_is_zero a b) eqn:?
  | |- context [stateWrite ?p ?w] => destruct (stateWrite p w) as [[?]|?] eqn:?
  end.

Ltac handler_cbn :=
  cbn [mbind mlift mret mcatch rbind try_catch call_stateRead call_stateWrite
         fst snd app read_error results write_error negb andb].

Section DeliverRun.

Variable rt : Runtime.
Variable pb : ProtobufTypes.
Variable cfg : Config.
Variable p : SocketClientPlugin.
Variable ids : QueryIds.
Variable m : MessageSend.
Variable feeValue : JsValue.
Variable transactionFee : Long.
Variables fromKey toKey feePoolKey : bytes.
Variable rs : list StateQueryResult.

Let c : Contract := mkContract (Some cfg) (Some p).
Let req : StateReadRequest := deliverReadRequest ids fromKey toKey feePoolKey.

Hypothesis Hfee : normalizeAmount rt feeValue = Ok transactionFee.
Hypothesis HfromKey : keyForAccount (fromAddress m) = Ok fromKey.
Hypothesis HtoKey : keyForAccount (toAddress m) = Ok toKey.
Hypothesis HpoolKey : keyForFeePool rt (CidNumber (chainId cfg)) = Ok feePoolKey.
Hypothesis Hread : stateRead p req = Ok (mkReadResp None rs).

Let fee64 : Long := Long.fromValue transactionFee true.
Let amountToDeduct : Long := Long.add (Long.fromValue (amount m) true) fee64.

Lemma read_step :
  readAccountsAndFeePool rt c ids m = (Ok (parseResults ids rs), [CallStateRead req]).
Proof.
  unfold readAccountsAndFeePool, c. run_handler.
  fold (deliverReadRequest ids fromKey toKey feePoolKey). fold req.
  rewrite Hread. run_handler. reflexivity.
Qed.

Lemma unmarshal_step :
  unmarshalAccountsAndPool pb (fst (fst (parseResults ids rs)))
                           (snd (fst (parseResults ids rs)))
                           (snd (parseResults ids rs)) m
  = (let? fromAccount := readFrom pb ids rs in
     let? fromAmount := match fromAccount with
                        | Some a => Ok (acc_amount a)
                        | None => Throw TypeError_null_amount
                        end in
     Ok (fromAccount, readTo pb ids rs m, readPool pb ids rs, fromAmount)).
Proof. reflexivity. Qed.

(** The sender's entry is absent: reading [amount] of [null] throws, and the
    catch of deliverMessageSend answers with MARSHAL. *)
Lemma deliver_absent_sender :
  readFrom pb ids rs = Ok None ->
  deliverMessageSend rt pb c ids m feeValue
  = (Ok (mkDeliverTxResponse (Some (errMarshal TypeError_null_amount))),
     [CallStateRead req]).
Proof.
  intros Hfrom. unfold deliverMessageSend. rewrite Hfee.
  cbn [mbind mlift]. unfold c at 1 2. cbn [config plugin].
  rewrite read_step. destruct (parseResults ids rs) as [[bf bt] bp] eqn:Hp.
  cbn [mbind].
  pose proof unmarshal_step as Hu. rewrite Hp in Hu. cbn [fst snd] in Hu.
  rewrite Hu, Hfrom. reflexivity.
Qed.

Variable fromAccount : Account.
Hypothesis HfromAccount : readFrom pb ids rs = Ok (Some fromAccount).

Lemma deliver_insufficient :
  Long.lt (acc_amount fromAccount) amountToDeduct = true ->
  deliverMessageSend rt pb c ids m feeValue
  = (Ok (mkDeliverTxResponse (Some errInsufficientFunds)), [CallStateRead req]).
Proof.
  intros Hlt. unfold deliverMessageSend. rewrite Hfee.
  cbn [mbind mlift]. unfold c at 1 2. cbn [config plugin].
  rewrite read_step. destruct (parseResults ids rs) as [[bf bt] bp] eqn:Hp.
  cbn [mbind].
  pose proof unmarshal_step as Hu. rewrite Hp in Hu. cbn [fst snd] in Hu.
  rewrite Hu, HfromAccount. cbn [rbind mbind mlift].
  fold fee64. fold amountToDeduct. rewrite Hlt. reflexivity.
Qed.

(** Funds suffice and an address fails normalizeAddress: the throw is
    caught as MARSHAL and nothing is written. *)
Lemma deliver_bad_address (e : string) :
  Long.lt (acc_amount fromAccount) amountToDeduct = false ->
  (normalizeAddress (fromAddress m) = Throw e
   \/ (exists b, normalizeAddress (fromAddress m) = Ok b)
      /\ normalizeAddress (toAddress m) = Throw e) ->
  deliverMessageSend rt pb c ids m feeValue
  = (Ok (mkDeliverTxResponse (Some (errMarshal e))), [CallStateRead req]).
Proof.
  intros Hlt Hbad. unfold deliverMessageSend. rewrite Hfee.
  cbn [mbind mlift]. unfold c at 1 2. cbn [config plugin].
  rewrite read_step. destruct (parseResults ids rs) as [[bf bt] bp] eqn:Hp.
  cbn [mbind].
  pose proof unmarshal_step as Hu. rewrite Hp in Hu. cbn [fst snd] in Hu.
  rewrite Hu, HfromAccount. cbn [rbind mbind mlift].
  fold fee64. fold amountToDeduct. rewrite Hlt.
  rewrite HfromKey, HtoKey, HpoolKey. cbn [mbind mlift].
  unfold calculateUpdatedBalances.
  destruct Hbad as [Hf | [[b Hf] Ht]]; rewrite Hf; cbn [rbind]; [reflexivity|].
  rewrite Ht. reflexivity.
Qed.

Variables fromAddr toAddr : bytes.
Hypothesis HfromAddr : normalizeAddress (fromAddress m) = Ok fromAddr.
Hypothesis HtoAddr : normalizeAddress (toAddress m) = Ok toAddr.
Hypothesis Hfunds : Long.lt (acc_amount fromAccount) amountToDeduct = false.

Let isSelfTransfer : bool := Buffer_compare_is_zero fromKey toKey.
Let updatedFromAccount : Account :=
  mkAccount (VBuffer fromAddr) (Long.sub (acc_amount fromAccount) amountToDeduct).
Let updatedToAccount : Account :=
  if isSelfTransfer then
    mkAccount (VBuffer toAddr) (Long.sub (acc_amount fromAccount) fee64)
  else
    mkAccount (VBuffer toAddr)
              (Long.add (acc_amount (readTo pb ids rs m))
                        (Long.fromValue (amount m) true)).
Let updatedFeePool : Pool :=
  mkPool (Some (CidNumber (chainId cfg)))
         (Long.add (pool_amount (readPool pb ids rs)) fee64).

(** Funds suffice, both addresses normalize, the three records marshal: the
    batch of prepareStateOperations is written and the reply carries the
    error of the write response. *)
Lemma deliver_writes (sets : list StateSetOperation)
      (deletes : list StateDeleteOperation) (wr : StateWriteResponse) :
  prepareStateOperations pb updatedFromAccount updatedToAccount updatedFeePool
                         fromKey toKey feePoolKey isSelfTransfer
  = Ok (sets, deletes) ->
  stateWrite p (mkWriteReq sets deletes) = Ok wr ->
  deliverMessageSend rt pb c ids m feeValue
  = (Ok (mkDeliverTxResponse (write_error wr)),
     [CallStateRead req; CallStateWrite (mkWriteReq sets deletes)]).
Proof.
  intros Hprep Hwrite. unfold deliverMessageSend. rewrite Hfee.
  cbn [mbind mlift]. unfold c at 1 2. cbn [config plugin].
  rewrite read_step. destruct (parseResults ids rs) as [[bf bt] bp] eqn:Hp.
  cbn [mbind].
  pose proof unmarshal_step as Hu. rewrite Hp in Hu. cbn [fst snd] in Hu.
  rewrite Hu, HfromAccount. cbn [rbind mbind mlift].
  fold fee64. fold amountToDeduct. rewrite Hfunds.
  rewrite HfromKey, HtoKey, HpoolKey. cbn [mbind mlift].
  unfold calculateUpdatedBalances. rewrite HfromAddr, HtoAddr. cbn [rbind mbind].
  fold fee64. fold amountToDeduct. fold isSelfTransfer.
  fold updatedFromAccount.
  change (if isSelfTransfer
          then mkAccount (VBuffer toAddr) (Long.sub (acc_amount fromAccount) fee64)
          else mkAccount (VBuffer toAddr)
                         (Long.add (acc_amount (readTo pb ids rs m))
                                   (Long.fromValue (amount m) true)))
    with updatedToAccount.
  fold updatedFeePool. rewrite Hprep. cbn [mbind].
  unfold call_stateWrite. rewrite Hwrite. reflexivity.
Qed.

End DeliverRun.

(** deliverTx on a decoded MessageSend is deliverMessageSend. *)
Lemma deliverTx_send (rt : Runtime) (pb : ProtobufTypes) (c : Contract)
      (ids : QueryIds) (request : TransactionRequest) (m : MessageSend)
      (r : DeliverTxResponse) (calls : list FsmCall) :
  fromAny pb (tx_msg (tx request)) = Ok (KMessageSend m) ->
  isMessageSend (KMessageSend m) = true ->
  deliverMessageSend rt pb c ids m (fee (tx request)) = (Ok r, calls) ->
  deliverTx rt pb c ids request = (Ok r, calls).
Proof.
  intros Hany Hsend Hrun. unfold deliverTx. rewrite Hany, Hsend, Hrun. reflexivity.
Qed.

(** ** Addresses, keys and fees of a well-formed send *)

Lemma normalizeAddress_20 (v : JsValue) (b : bytes) :
  toBuffer v = Ok b -> length b = 20%nat -> normalizeAddress v = Ok b.
Proof.
  intros Hb Hl. unfold normalizeAddress.
  replace (validateAddress v) with true; [exact Hb|].
  symmetry. apply validateAddress_iff. exists b. auto.
Qed.

Lemma normalizeAddress_invalid (v : JsValue) :
  validateAddress v = false ->
  normalizeAddress v = Throw "Invalid address: must be exactly 20 bytes".
Proof. intros H. unfold normalizeAddress. rewrite H. reflexivity. Qed.

Lemma accountKey_inj (a b : bytes) : accountKey a = accountKey b -> a = b.
Proof. unfold accountKey. intros H. now injection H. Qed.

Lemma defined_of_toBuffer (v : JsValue) (b : bytes) :
  toBuffer v = Ok b -> match v with VUndefined => true | _ => false end = false.
Proof. destruct v; try reflexivity. discriminate. Qed.

Lemma validateAmount_u64 (rt : Runtime) (f : Z) :
  0 <= f < 2 ^ 64 -> validateAmount rt (VLong (Long.ofU64 f)) = (0 <? f).
Proof.
  intros Hf. cbn [validateAmount].
  assert (Hwf : Long.wf (Long.ofU64 f)) by exact Hf.
  pose proof (greaterThan_zero_wf Hwf) as Hg.
  assert (Hz : Long.toZ (Long.ofU64 f) = f) by reflexivity.
  rewrite Hz in Hg.
  destruct (Z.ltb_spec 0 f) as [Hpos|Hle].
  - now apply Hg.
  - destruct (Long.greaterThan (Long.ofU64 f) Long.ZERO); [|reflexivity].
    assert (0 < f) by now apply Hg. lia.
Qed.

Lemma normalizeAmount_u64 (rt : Runtime) (f : Z) :
  0 < f < 2 ^ 64 -> normalizeAmount rt (VLong (Long.ofU64 f)) = Ok (Long.ofU64 f).
Proof.
  intros Hf. unfold normalizeAmount. rewrite validateAmount_u64 by lia.
  replace (0 <? f) with true by (symmetry; apply Z.ltb_lt; lia). reflexivity.
Qed.

Lemma normalizeAmount_zero (rt : Runtime) :
  normalizeAmount rt (VLong (Long.ofU64 0))
  = Throw "Invalid amount: must be greater than 0".
Proof. reflexivity. Qed.

(** ** C2: the batch of a transfer between two accounts *)

(** C2, as amended. A deliver between two different 20-byte addresses, with
    a fee above zero, funds that cover amount + fee, and sums amount + fee,
    toAmount + amount and poolAmount + fee that stay below 2^64, answers
    error: null after one read and one write; the write sets the pool to
    poolAmount + fee and the recipient to toAmount + amount, and it deletes
    the sender (without setting it) when fromAmount - (amount + fee) is zero
    and sets it to that difference otherwise; the two balances and the pool
    add up to what they did before. *)
Theorem non_self_deliver_batch
        (rt : Runtime) (pb : ProtobufTypes) (cfg : Config) (p : SocketClientPlugin)
        (ids : QueryIds) (request : TransactionRequest) (m : MessageSend)
        (fromAddr toAddr kPool : bytes) (rs : list StateQueryResult)
        (storedAddr : JsValue) (fromAmount toAmount poolAmount amt f : Z)
        (bFrom bTo bPool : bytes) :
  let c := mkContract (Some cfg) (Some p) in
  let kFrom := accountKey fromAddr in
  let kTo := accountKey toAddr in
  let newFrom := fromAmount - (amt + f) in
  let batch := expectedNonSelfBatch kPool kFrom kTo bPool bFrom bTo newFrom in
  fromAny pb (tx_msg (tx request)) = Ok (KMessageSend m) ->
  fee (tx request) = VLong (Long.ofU64 f) ->
  amount m = Long.ofU64 amt ->
  toBuffer (fromAddress m) = Ok fromAddr -> length fromAddr = 20%nat ->
  toBuffer (toAddress m) = Ok toAddr -> length toAddr = 20%nat ->
  fromAddr <> toAddr ->
  keyForFeePool rt (CidNumber (chainId cfg)) = Ok kPool ->
  stateRead p (deliverReadRequest ids kFrom kTo kPool) = Ok (mkReadResp None rs) ->
  readFrom pb ids rs = Ok (Some (mkAccount storedAddr (Long.ofU64 fromAmount))) ->
  acc_amount (readTo pb ids rs m) = Long.ofU64 toAmount ->
  pool_amount (readPool pb ids rs) = Long.ofU64 poolAmount ->
  0 < f -> 0 <= amt -> amt + f <= fromAmount -> fromAmount < 2 ^ 64 ->
  0 <= toAmount -> toAmount + amt < 2 ^ 64 ->
  0 <= poolAmount -> poolAmount + f < 2 ^ 64 ->
  marshal (types_Account pb) (mkAccount (VBuffer fromAddr) (Long.ofU64 newFrom))
  = Ok bFrom ->
  marshal (types_Account pb) (mkAccount (VBuffer toAddr) (Long.ofU64 (toAmount + amt)))
  = Ok bTo ->
  marshal (types_Pool pb)
          (mkPool (Some (CidNumber (chainId cfg))) (Long.ofU64 (poolAmount + f)))
  = Ok bPool ->
  stateWrite p batch = Ok (mkWriteResp None) ->
  deliverTx rt pb c ids request
  = (Ok (mkDeliverTxResponse None),
     [CallStateRead (deliverReadRequest ids kFrom kTo kPool); CallStateWrite batch])
  /\ newFrom + (toAmount + amt) + (poolAmount + f)
     = fromAmount + toAmount + poolAmount.
Proof.
  intros c kFrom kTo newFrom batch Hany Hfee Hamt Hfb Hfl Htb Htl Hne HkP Hread
         Hfrom Hto Hpool Hf Hamt0 Hfunds Hfrom64 Hto0 Hto64 Hpool0 Hpool64
         HbFrom HbTo HbPool Hwrite.
  split; [|lia].
  assert (HkF : keyForAccount (fromAddress m) = Ok kFrom)
    by (apply keyForAccount_20; assumption).
  assert (HkT : keyForAccount (toAddress m) = Ok kTo)
    by (apply keyForAccount_20; assumption).
  assert (Hself : Buffer_compare_is_zero kFrom kTo = false).
  { apply bytes_eqb_neq. intros E. apply Hne. now apply accountKey_inj. }
  assert (Hfee64 : Long.fromValue (Long.ofU64 f) true = Long.ofU64 f)
    by (apply fromValue_ofU64; lia).
  assert (Hamt64 : Long.fromValue (Long.ofU64 amt) true = Long.ofU64 amt)
    by (apply fromValue_ofU64; lia).
  assert (Hded : Long.add (Long.ofU64 amt) (Long.ofU64 f) = Long.ofU64 (amt + f)).
  { rewrite add_ofU64. f_equal. apply Z.mod_small. lia. }
  apply deliverTx_send with (m := m); [exact Hany | |].
  { cbn [isMessageSend]. rewrite (defined_of_toBuffer _ Hfb).
    rewrite (defined_of_toBuffer _ Htb). reflexivity. }
  rewrite Hfee.
  assert (Hprep :
    prepareStateOperations pb
      (mkAccount (VBuffer fromAddr) (Long.ofU64 newFrom))
      (mkAccount (VBuffer toAddr) (Long.ofU64 (toAmount + amt)))
      (mkPool (Some (CidNumber (chainId cfg))) (Long.ofU64 (poolAmount + f)))
      kFrom kTo kPool false
    = Ok (sets batch, deletes batch)).
  { unfold prepareStateOperations.
    rewrite HbFrom, HbTo, HbPool. cbn [rbind acc_amount negb andb].
    rewrite eq_UZERO_ofU64, andb_true_r.
    unfold batch, expectedNonSelfBatch.
    destruct (newFrom =? 0); reflexivity. }
  replace batch with (mkWriteReq (sets batch) (deletes batch)) in Hwrite |- *
    by (destruct batch; reflexivity).
  change (@None ProtoError) with (write_error (mkWriteResp None)).
  eapply deliver_writes with (transactionFee := Long.ofU64 f) (rs := rs)
                             (fromAddr := fromAddr) (toAddr := toAddr);
    try eassumption.
  - apply normalizeAmount_u64. lia.
  - apply normalizeAddress_20; assumption.
  - apply normalizeAddress_20; assumption.
  - cbn [acc_amount]. rewrite Hamt, Hfee64, Hamt64, Hded.
    rewrite lt_ofU64 by lia. apply Z.ltb_ge. lia.
  - cbn [acc_amount]. rewrite Hself, Hto, Hpool, Hamt, Hfee64, Hamt64, Hded.
    rewrite sub_ofU64 by lia. rewrite !add_ofU64.
    rewrite (Z.mod_small (toAmount + amt)) by lia.
    rewrite (Z.mod_small (poolAmount + f)) by lia.
    exact Hprep.
Qed.

(** Scenario 1: A holds 1000, B holds 50, the pool is empty; A sends 100 to
    B with fee 2. *)
Lemma non_self_deliver_batch_witness :
  let s := Sample.store (Some 1000) (Some 50) (Some 0) None in
  let batch :=
    expectedNonSelfBatch Sample.kPool (accountKey Sample.addrA)
                         (accountKey Sample.addrB) (Sample.poolBytes 2)
                         (Sample.accountBytes Sample.addrA 898)
                         (Sample.accountBytes Sample.addrB 150) (1000 - (100 + 2)) in
  deliverTx Sample.rt Sample.protobuf (Sample.contract s) Sample.ids
            (Sample.sendRequest Sample.addrA Sample.addrB 100 2)
  = (Ok (mkDeliverTxResponse None),
     [CallStateRead (deliverReadRequest Sample.ids (accountKey Sample.addrA)
                                        (accountKey Sample.addrB) Sample.kPool);
      CallStateWrite batch])
  /\ (1000 - (100 + 2)) + (50 + 100) + (0 + 2) = 1000 + 50 + 0.
Proof.
  intros s batch.
  apply (@non_self_deliver_batch
           Sample.rt Sample.protobuf (mkConfig (num 1) "/tmp/plugin/")
           (Sample.peer s) Sample.ids
           (Sample.sendRequest Sample.addrA Sample.addrB 100 2)
           (Sample.send Sample.addrA Sample.addrB 100)
           Sample.addrA Sample.addrB Sample.kPool
           (Sample.readResults s Sample.addrA Sample.addrB)
           (VUint8Array Sample.addrA) 1000 50 0 100 2
           (Sample.accountBytes Sample.addrA 898)
           (Sample.accountBytes Sample.addrB 150)
           (Sample.poolBytes 2));
    try reflexivity; try lia.
  intros H. discriminate H.
Defined.

(** Scenario 2: A holds exactly amount + fee; its entry is deleted. *)
Example drain_to_zero :
  snd (deliverTx Sample.rt Sample.protobuf
                 (Sample.contract (Sample.store (Some 102) (Some 50) (Some 0) None))
                 Sample.ids (Sample.sendRequest Sample.addrA Sample.addrB 100 2))
  = [CallStateRead (deliverReadRequest Sample.ids (accountKey Sample.addrA)
                                       (accountKey Sample.addrB) Sample.kPool);
     CallStateWrite
       (mkWriteReq [mkSet Sample.kPool (Sample.poolBytes 2);
                    mkSet (accountKey Sample.addrB) (Sample.accountBytes Sample.addrB 150)]
                   [mkDelete (accountKey Sample.addrA)])].
Proof. reflexivity. Qed.

(** C2, as stated, fails where a sum leaves the u64 range. A holds 5, B
    holds 50, and A sends 2^64-1 with fee 2: amount + fee wraps to 1, the
    deliver succeeds, A is set to 4 and B to 49, neither of which is the
    value the claim gives. *)
Lemma non_self_deliver_wraps :
  deliverTx Sample.rt Sample.protobuf
            (Sample.contract (Sample.store (Some 5) (Some 50) (Some 0) None))
            Sample.ids (Sample.sendRequest Sample.addrA Sample.addrB (2 ^ 64 - 1) 2)
  = (Ok (mkDeliverTxResponse None),
     [CallStateRead (deliverReadRequest Sample.ids (accountKey Sample.addrA)
                                        (accountKey Sample.addrB) Sample.kPool);
      CallStateWrite
        (mkWriteReq [mkSet Sample.kPool (Sample.poolBytes 2);
                     mkSet (accountKey Sample.addrA) (Sample.accountBytes Sample.addrA 4);
                     mkSet (accountKey Sample.addrB) (Sample.accountBytes Sample.addrB 49)]
                    [])])
  /\ 49 <> 50 + (2 ^ 64 - 1)
  /\ 4 <> 5 - ((2 ^ 64 - 1) + 2).
Proof. split; [vm_compute; reflexivity | split; lia]. Qed.

(** ** C1: a transfer to oneself *)

(** For a self-transfer prepareStateOperations writes [updatedFromAccount],
    whose amount is fromAmount - (amount + fee); [updatedToAccount], which
    holds fromAmount - fee, is marshalled and dropped. *)
Lemma self_transfer_batch
      (rt : Runtime) (pb : ProtobufTypes) (cfg : Config) (p : SocketClientPlugin)
      (ids : QueryIds) (request : TransactionRequest) (m : MessageSend)
      (addr kPool : bytes) (rs : list StateQueryResult)
      (storedAddr : JsValue) (fromAmount poolAmount amt f : Z)
      (bFrom bTo bPool : bytes) :
  let c := mkContract (Some cfg) (Some p) in
  let k := accountKey addr in
  let batch := mkWriteReq [mkSet kPool bPool; mkSet k bFrom] [] in
  fromAny pb (tx_msg (tx request)) = Ok (KMessageSend m) ->
  fee (tx request) = VLong (Long.ofU64 f) ->
  amount m = Long.ofU64 amt ->
  toBuffer (fromAddress m) = Ok addr -> toBuffer (toAddress m) = Ok addr ->
  length addr = 20%nat ->
  keyForFeePool rt (CidNumber (chainId cfg)) = Ok kPool ->
  stateRead p (deliverReadRequest ids k k kPool) = Ok (mkReadResp None rs) ->
  readFrom pb ids rs = Ok (Some (mkAccount storedAddr (Long.ofU64 fromAmount))) ->
  pool_amount (readPool pb ids rs) = Long.ofU64 poolAmount ->
  0 < f -> 0 <= amt -> amt + f <= fromAmount -> fromAmount < 2 ^ 64 ->
  0 <= poolAmount -> poolAmount + f < 2 ^ 64 ->
  marshal (types_Account pb)
          (mkAccount (VBuffer addr) (Long.ofU64 (fromAmount - (amt + f)))) = Ok bFrom ->
  marshal (types_Account pb)
          (mkAccount (VBuffer addr) (Long.ofU64 (fromAmount - f))) = Ok bTo ->
  marshal (types_Pool pb)
          (mkPool (Some (CidNumber (chainId cfg))) (Long.ofU64 (poolAmount + f)))
  = Ok bPool ->
  stateWrite p batch = Ok (mkWriteResp None) ->
  deliverTx rt pb c ids request
  = (Ok (mkDeliverTxResponse None),
     [CallStateRead (deliverReadRequest ids k k kPool); CallStateWrite batch]).
Proof.
  intros c k batch Hany Hfee Hamt Hfb Htb Hl HkP Hread Hfrom Hpool Hf Hamt0
         Hfunds Hfrom64 Hpool0 Hpool64 HbFrom HbTo HbPool Hwrite.
  assert (HkF : keyForAccount (fromAddress m) = Ok k)
    by (apply keyForAccount_20; assumption).
  assert (HkT : keyForAccount (toAddress m) = Ok k)
    by (apply keyForAccount_20; assumption).
  assert (Hself : Buffer_compare_is_zero k k = true) by apply bytes_eqb_refl.
  assert (Hfee64 : Long.fromValue (Long.ofU64 f) true = Long.ofU64 f)
    by (apply fromValue_ofU64; lia).
  assert (Hamt64 : Long.fromValue (Long.ofU64 amt) true = Long.ofU64 amt)
    by (apply fromValue_ofU64; lia).
  assert (Hded : Long.add (Long.ofU64 amt) (Long.ofU64 f) = Long.ofU64 (amt + f)).
  { rewrite add_ofU64. f_equal. apply Z.mod_small. lia. }
  apply deliverTx_send with (m := m); [exact Hany | |].
  { cbn [isMessageSend]. rewrite (defined_of_toBuffer _ Hfb).
    rewrite (defined_of_toBuffer _ Htb). reflexivity. }
  rewrite Hfee.
  change (@None ProtoError) with (write_error (mkWriteResp None)).
  eapply deliver_writes with (transactionFee := Long.ofU64 f) (rs := rs)
                             (fromAddr := addr) (toAddr := addr);
    try eassumption.
  - apply normalizeAmount_u64. lia.
  - apply normalizeAddress_20; assumption.
  - apply normalizeAddress_20; assumption.
  - cbn [acc_amount]. rewrite Hamt, Hfee64, Hamt64, Hded.
    rewrite lt_ofU64 by lia. apply Z.ltb_ge. lia.
  - cbn [acc_amount]. rewrite Hself, Hpool, Hamt, Hfee64, Hamt64, Hded.
    rewrite !sub_ofU64 by lia. rewrite add_ofU64.
    rewrite (Z.mod_small (poolAmount + f)) by lia.
    unfold prepareStateOperations.
    rewrite HbFrom, HbTo, HbPool. cbn [rbind acc_amount negb andb].
    rewrite andb_false_r. reflexivity.
Qed.

(** C1. Scenario 3 of the specification: A holds 500, the pool is empty, and
    A sends 100 to itself with fee 3. The batch sets A to 397, that is
    500 - (100 + 3), where the claim has 497. *)
Theorem self_transfer_deducts_principal :
  deliverTx Sample.rt Sample.protobuf
            (Sample.contract (Sample.store (Some 500) None (Some 0) None))
            Sample.ids (Sample.sendRequest Sample.addrA Sample.addrA 100 3)
  = (Ok (mkDeliverTxResponse None),
     [CallStateRead (deliverReadRequest Sample.ids (accountKey Sample.addrA)
                                        (accountKey Sample.addrA) Sample.kPool);
      CallStateWrite
        (mkWriteReq [mkSet Sample.kPool (Sample.poolBytes 3);
                     mkSet (accountKey Sample.addrA)
                           (Sample.accountBytes Sample.addrA 397)]
                    [])])
  /\ Sample.accountBytes Sample.addrA 397 <> Sample.accountBytes Sample.addrA 497.
Proof. split; [vm_compute; reflexivity | intros H; vm_compute in H; discriminate H]. Qed.

(** ** C3: the sender has no entry *)

(** C3. A has no entry, B holds 50, and A sends 100 with fee 2: the reply
    carries MARSHAL (code 2) with the TypeError of reading [amount] of
    [null], not INSUFFICIENT_FUNDS (code 9). *)
Theorem absent_sender_reply :
  deliverTx Sample.rt Sample.protobuf
            (Sample.contract (Sample.store None (Some 50) (Some 0) None))
            Sample.ids (Sample.sendRequest Sample.addrA Sample.addrB 100 2)
  = (Ok (mkDeliverTxResponse (Some (errMarshal TypeError_null_amount))),
     [CallStateRead (deliverReadRequest Sample.ids (accountKey Sample.addrA)
                                        (accountKey Sample.addrB) Sample.kPool)])
  /\ code (errMarshal TypeError_null_amount) = 2
  /\ code errInsufficientFunds = 9.
Proof. split; [vm_compute; reflexivity | split; reflexivity]. Qed.

(** ** C4: insufficient funds *)

Lemma defined_of_key (v : JsValue) (k : bytes) :
  keyForAccount v = Ok k -> match v with VUndefined => true | _ => false end = false.
Proof. destruct v; try reflexivity. discriminate. Qed.

(** C4, as amended. With a fee above zero and amount + fee within the u64
    range, a deliver whose sender holds less than amount + fee sends the
    batched read and nothing else, and its reply carries INSUFFICIENT_FUNDS,
    that is code 9, module plugin, message insufficient funds. *)
Theorem insufficient_funds_reply
        (rt : Runtime) (pb : ProtobufTypes) (cfg : Config) (p : SocketClientPlugin)
        (ids : QueryIds) (request : TransactionRequest) (m : MessageSend)
        (kFrom kTo kPool : bytes) (rs : list StateQueryResult)
        (storedAddr : JsValue) (fromAmount amt f : Z) :
  let c := mkContract (Some cfg) (Some p) in
  fromAny pb (tx_msg (tx request)) = Ok (KMessageSend m) ->
  fee (tx request) = VLong (Long.ofU64 f) ->
  amount m = Long.ofU64 amt ->
  keyForAccount (fromAddress m) = Ok kFrom ->
  keyForAccount (toAddress m) = Ok kTo ->
  keyForFeePool rt (CidNumber (chainId cfg)) = Ok kPool ->
  stateRead p (deliverReadRequest ids kFrom kTo kPool) = Ok (mkReadResp None rs) ->
  readFrom pb ids rs = Ok (Some (mkAccount storedAddr (Long.ofU64 fromAmount))) ->
  0 < f -> 0 <= amt -> amt + f < 2 ^ 64 ->
  0 <= fromAmount < amt + f ->
  deliverTx rt pb c ids request
  = (Ok (mkDeliverTxResponse (Some errInsufficientFunds)),
     [CallStateRead (deliverReadRequest ids kFrom kTo kPool)])
  /\ errInsufficientFunds = mkProtoError 9 "plugin" "insufficient funds".
Proof.
  intros c Hany Hfee Hamt HkF HkT HkP Hread Hfrom Hf Hamt0 Hsum Hpoor.
  split; [|reflexivity].
  apply deliverTx_send with (m := m); [exact Hany | |].
  { cbn [isMessageSend]. rewrite (defined_of_key _ HkF), (defined_of_key _ HkT).
    reflexivity. }
  rewrite Hfee.
  eapply deliver_insufficient with (transactionFee := Long.ofU64 f) (rs := rs);
    try eassumption.
  - apply normalizeAmount_u64. lia.
  - cbn [acc_amount]. rewrite Hamt, !fromValue_ofU64 by lia.
    rewrite add_ofU64, Z.mod_small by lia.
    rewrite lt_ofU64 by lia. apply Z.ltb_lt. lia.
Qed.

(** Scenario 4: A holds 10 and sends 100 with fee 2. *)
Lemma insufficient_funds_reply_witness :
  deliverTx Sample.rt Sample.protobuf
            (Sample.contract (Sample.store (Some 10) (Some 50) (Some 0) None))
            Sample.ids (Sample.sendRequest Sample.addrA Sample.addrB 100 2)
  = (Ok (mkDeliverTxResponse (Some errInsufficientFunds)),
     [CallStateRead (deliverReadRequest Sample.ids (accountKey Sample.addrA)
                                        (accountKey Sample.addrB) Sample.kPool)])
  /\ errInsufficientFunds = mkProtoError 9 "plugin" "insufficient funds".
Proof.
  apply (@insufficient_funds_reply
           Sample.rt Sample.protobuf (mkConfig (num 1) "/tmp/plugin/")
           (Sample.peer (Sample.store (Some 10) (Some 50) (Some 0) None)) Sample.ids
           (Sample.sendRequest Sample.addrA Sample.addrB 100 2)
           (Sample.send Sample.addrA Sample.addrB 100)
           (accountKey Sample.addrA) (accountKey Sample.addrB) Sample.kPool
           (Sample.readResults (Sample.store (Some 10) (Some 50) (Some 0) None)
                               Sample.addrA Sample.addrB)
           (VUint8Array Sample.addrA) 10 100 2);
    try reflexivity; try lia.
Defined.

(** C4, as stated, fails for a fee of zero: A holds 10 and sends 100 with
    fee 0, so fromAmount < amount + fee, but normalizeAmount rejects the fee
    before anything is read and the reply carries MARSHAL (code 2). *)
Lemma zero_fee_deliver_reply :
  10 < 100 + 0
  /\ deliverTx Sample.rt Sample.protobuf
               (Sample.contract (Sample.store (Some 10) (Some 50) (Some 0) None))
               Sample.ids (Sample.sendRequest Sample.addrA Sample.addrB 100 0)
     = (Ok (mkDeliverTxResponse
              (Some (errMarshal "Invalid amount: must be greater than 0"))), [])
  /\ code (errMarshal "Invalid amount: must be greater than 0") <> code errInsufficientFunds.
Proof. split; [lia | split; [vm_compute; reflexivity | discriminate]]. Qed.

(** The other way the statement of C4 fails: A holds 5 and sends 2^64-1 with
    fee 2, so A holds less than amount + fee, yet the wrapped sum is 1 and a
    write is issued. *)
Example wrapped_deduction_writes :
  5 < (2 ^ 64 - 1) + 2
  /\ exists w,
      snd (deliverTx Sample.rt Sample.protobuf
                     (Sample.contract (Sample.store (Some 5) (Some 50) (Some 0) None))
                     Sample.ids
                     (Sample.sendRequest Sample.addrA Sample.addrB (2 ^ 64 - 1) 2))
      = [CallStateRead (deliverReadRequest Sample.ids (accountKey Sample.addrA)
                                           (accountKey Sample.addrB) Sample.kPool);
         CallStateWrite w].
Proof. split; [lia | eexists; vm_compute; reflexivity]. Qed.

(** ** C10: what a deliver checks of the message *)

(** deliverTx builds no error of code 12 or 13: a reply that carries one has
    it from the write response, after the read and the write. *)
Lemma deliver_codes_from_write
      (rt : Runtime) (pb : ProtobufTypes) (c : Contract) (ids : QueryIds)
      (request : TransactionRequest) (reply : DeliverTxResponse)
      (calls : list FsmCall) (e : ProtoError) :
  deliverTx rt pb c ids request = (Ok reply, calls) ->
  deliver_error reply = Some e ->
  code e = INVALID_ADDRESS \/ code e = INVALID_AMOUNT ->
  exists p rd w wr,
    plugin c = Some p
    /\ calls = [CallStateRead rd; CallStateWrite w]
    /\ stateWrite p w = Ok wr
    /\ write_error wr = Some e.
Proof.
  unfold deliverTx, deliverMessageSend, readAccountsAndFeePool,
    unmarshalAccountsAndPool, calculateUpdatedBalances, prepareStateOperations,
    unmarshalOr.
  handler_cbn.
  repeat (split_call; handler_cbn);
    intros [= <- <-]; cbn [deliver_error]; intros He Hc;
    first [ exfalso; injection He as <-; cbn in Hc; destruct Hc; discriminate
          | do 4 eexists; split; [reflexivity|]; split; [reflexivity|];
            split; [eassumption | exact He] ].
Qed.

(** C10, as amended. deliverTx does not check that amount is above zero: a
    send of any amount, zero included, between 20-byte addresses, with a
    fee above zero and funds that cover amount + fee, is answered
    error: null after the read and one write (the codec marshals the
    accounts and the pool, and the FSM accepts the write). The addresses are
    checked, after the funds, by normalizeAddress: when one of them is not
    20 bytes long the reply carries MARSHAL with the message of
    normalizeAddress and nothing is written. deliverTx builds no error of
    code 12 (INVALID_ADDRESS) or 13 (INVALID_AMOUNT) itself: whatever the
    request, a reply that carries an error of one of these codes has it from
    the FSM's write response, handed on unchanged after the read and the
    write. *)
Theorem deliver_checks_addresses_not_amount
        (rt : Runtime) (pb : ProtobufTypes) (cfg : Config) (p : SocketClientPlugin)
        (ids : QueryIds) (request : TransactionRequest) (m : MessageSend)
        (kFrom kTo kPool : bytes) (rs : list StateQueryResult)
        (storedAddr : JsValue) (fromAmount amt f : Z) :
  let c := mkContract (Some cfg) (Some p) in
  let req := deliverReadRequest ids kFrom kTo kPool in
  fromAny pb (tx_msg (tx request)) = Ok (KMessageSend m) ->
  fee (tx request) = VLong (Long.ofU64 f) ->
  amount m = Long.ofU64 amt ->
  keyForAccount (fromAddress m) = Ok kFrom ->
  keyForAccount (toAddress m) = Ok kTo ->
  keyForFeePool rt (CidNumber (chainId cfg)) = Ok kPool ->
  stateRead p req = Ok (mkReadResp None rs) ->
  readFrom pb ids rs = Ok (Some (mkAccount storedAddr (Long.ofU64 fromAmount))) ->
  0 < f -> 0 <= amt -> amt + f <= fromAmount -> fromAmount < 2 ^ 64 ->
  (validateAddress (fromAddress m) = true ->
   validateAddress (toAddress m) = true ->
   (forall addr balance, length addr = 20%nat ->
      exists b, marshal (types_Account pb) (mkAccount (VBuffer addr) balance) = Ok b) ->
   (forall q, exists b, marshal (types_Pool pb) q = Ok b) ->
   (forall w, stateWrite p w = Ok (mkWriteResp None)) ->
   exists batch,
     deliverTx rt pb c ids request
     = (Ok (mkDeliverTxResponse None), [CallStateRead req; CallStateWrite batch]))
  /\ (validateAddress (fromAddress m) = false
      \/ validateAddress (toAddress m) = false ->
      deliverTx rt pb c ids request
      = (Ok (mkDeliverTxResponse
               (Some (errMarshal "Invalid address: must be exactly 20 bytes"))),
         [CallStateRead req]))
  /\ code errInvalidAddress = 12 /\ code errInvalidAmount = 13
  /\ (forall (ids' : QueryIds) (request' : TransactionRequest)
             (reply : DeliverTxResponse) (calls : list FsmCall) (e : ProtoError),
         deliverTx rt pb c ids' request' = (Ok reply, calls) ->
         deliver_error reply = Some e ->
         code e = 12 \/ code e = 13 ->
         exists rd w wr,
           calls = [CallStateRead rd; CallStateWrite w]
           /\ stateWrite p w = Ok wr
           /\ write_error wr = Some e).
Proof.
  intros c req Hany Hfee Hamt HkF HkT HkP Hread Hfrom Hf Hamt0 Hfunds Hfrom64.
  assert (Hsend : isMessageSend (KMessageSend m) = true).
  { cbn [isMessageSend]. rewrite (defined_of_key _ HkF), (defined_of_key _ HkT).
    reflexivity. }
  assert (Hnf : normalizeAmount rt (VLong (Long.ofU64 f)) = Ok (Long.ofU64 f))
    by (apply normalizeAmount_u64; lia).
  assert (Hlt : Long.lt (Long.ofU64 fromAmount)
                        (Long.add (Long.fromValue (amount m) true)
                                  (Long.fromValue (Long.ofU64 f) true)) = false).
  { rewrite Hamt, !fromValue_ofU64 by lia.
    rewrite add_ofU64, Z.mod_small by lia.
    rewrite lt_ofU64 by lia. apply Z.ltb_ge. lia. }
  split; [|split; [|split; [reflexivity|split; [reflexivity|]]]].
  - intros Hvf Hvt HmA HmP Hw.
    assert (Hnfrom : exists b, normalizeAddress (fromAddress m) = Ok b
                               /\ length b = 20%nat).
    { unfold normalizeAddress. rewrite Hvf. cbn [negb].
      apply validateAddress_iff in Hvf as (b & Hb & Hl). eauto. }
    assert (Hnto : exists b, normalizeAddress (toAddress m) = Ok b
                             /\ length b = 20%nat).
    { unfold normalizeAddress. rewrite Hvt. cbn [negb].
      apply validateAddress_iff in Hvt as (b & Hb & Hl). eauto. }
    destruct Hnfrom as (fa & Hfa & Hfl). destruct Hnto as (ta & Hta & Htl).
    set (tf := Long.fromValue (Long.ofU64 f) true).
    set (uf := mkAccount (VBuffer fa)
                         (Long.sub (Long.ofU64 fromAmount)
                                   (Long.add (Long.fromValue (amount m) true) tf))).
    set (ut := if Buffer_compare_is_zero kFrom kTo
               then mkAccount (VBuffer ta) (Long.sub (Long.ofU64 fromAmount) tf)
               else mkAccount (VBuffer ta)
                              (Long.add (acc_amount (readTo pb ids rs m))
                                        (Long.fromValue (amount m) true))).
    set (up := mkPool (Some (CidNumber (chainId cfg)))
                      (Long.add (pool_amount (readPool pb ids rs)) tf)).
    destruct (HmA fa (acc_amount uf) Hfl) as [bF HbF].
    assert (HbT : exists bT, marshal (types_Account pb) ut = Ok bT).
    { unfold ut. destruct (Buffer_compare_is_zero kFrom kTo); apply HmA; exact Htl. }
    destruct HbT as [bT HbT].
    destruct (HmP up) as [bP HbP].
    change (mkAccount (VBuffer fa) (acc_amount uf)) with uf in HbF.
    assert (Hprep : exists sets deletes,
               prepareStateOperations pb uf ut up kFrom kTo kPool
                                      (Buffer_compare_is_zero kFrom kTo)
               = Ok (sets, deletes)).
    { unfold prepareStateOperations. rewrite HbF, HbT, HbP. cbn [rbind].
      destruct (Long.eq (acc_amount uf) Long.UZERO
                && negb (Buffer_compare_is_zero kFrom kTo));
        destruct (negb (Buffer_compare_is_zero kFrom kTo)); eauto. }
    destruct Hprep as (sets & deletes & Hprep).
    exists (mkWriteReq sets deletes).
    apply deliverTx_send with (m := m); [exact Hany | exact Hsend |].
    rewrite Hfee.
    change (@None ProtoError) with (write_error (mkWriteResp None)).
    eapply deliver_writes with (transactionFee := Long.ofU64 f) (rs := rs)
                               (fromAddr := fa) (toAddr := ta);
      try eassumption.
    apply Hw.
  - intros Hbad.
    apply deliverTx_send with (m := m); [exact Hany | exact Hsend |].
    rewrite Hfee.
    eapply deliver_bad_address with (transactionFee := Long.ofU64 f) (rs := rs);
      try eassumption.
    destruct (validateAddress (fromAddress m)) eqn:Hvf.
    + right. split.
      * unfold normalizeAddress. rewrite Hvf. cbn [negb].
        apply validateAddress_iff in Hvf as (b & Hb & _). eauto.
      * apply normalizeAddress_invalid. destruct Hbad; congruence.
    + left. now apply normalizeAddress_invalid.
  - intros ids' request' reply calls e Hrun Herr Hcode.
    destruct (deliver_codes_from_write _ _ _ _ _ Hrun Herr Hcode)
      as (p' & rd & w & wr & Hp & Hcalls & Hw & He).
    cbn [plugin c] in Hp. injection Hp as <-.
    exists rd, w, wr. auto.
Qed.

Lemma Sample_marshal_account (addr : bytes) (balance : Long) :
  length addr = 20%nat ->
  exists b, marshal (types_Account Sample.protobuf) (mkAccount (VBuffer addr) balance)
            = Ok b.
Proof.
  intros Hl. unfold marshal. cbn [Sample.protobuf types_Account Sample.AccountType
                                    encode acc_address acc_amount Sample.putPrefixed
                                    toBuffer rbind].
  rewrite Hl. cbn. eauto.
Qed.

(** A sends 0 to B with fee 2 and holds 10; the holder of a 19-byte address
    sends 100 to B with fee 2 and holds 1000; A sends 0 to B and the FSM
    answers the write with an error of code 12. *)
Lemma deliver_checks_addresses_not_amount_witness :
  (exists batch,
      deliverTx Sample.rt Sample.protobuf
                (Sample.contract (Sample.store (Some 10) (Some 50) (Some 0) None))
                Sample.ids (Sample.sendRequest Sample.addrA Sample.addrB 0 2)
      = (Ok (mkDeliverTxResponse None),
         [CallStateRead (deliverReadRequest Sample.ids (accountKey Sample.addrA)
                                            (accountKey Sample.addrB) Sample.kPool);
          CallStateWrite batch]))
  /\ deliverTx Sample.rt Sample.protobuf (Sample.contract Sample.shortStore)
               Sample.ids (Sample.sendRequest Sample.addrShort Sample.addrB 100 2)
     = (Ok (mkDeliverTxResponse
              (Some (errMarshal "Invalid address: must be exactly 20 bytes"))),
        [CallStateRead (deliverReadRequest Sample.ids Sample.kShort
                                           (accountKey Sample.addrB) Sample.kPool)])
  /\ (let refusing :=
        Sample.refusingPeer (Sample.store (Some 10) (Some 50) (Some 0) None)
                            errInvalidAddress in
      let run :=
        deliverTx Sample.rt Sample.protobuf
                  (mkContract (Some (mkConfig (num 1) "/tmp/plugin/")) (Some refusing))
                  Sample.ids (Sample.sendRequest Sample.addrA Sample.addrB 0 2) in
      fst run = Ok (mkDeliverTxResponse (Some errInvalidAddress))
      /\ exists rd w wr,
          snd run = [CallStateRead rd; CallStateWrite w]
          /\ stateWrite refusing w = Ok wr
          /\ write_error wr = Some errInvalidAddress).
Proof.
  split; [|split].
  - apply (proj1 (@deliver_checks_addresses_not_amount
             Sample.rt Sample.protobuf (mkConfig (num 1) "/tmp/plugin/")
             (Sample.peer (Sample.store (Some 10) (Some 50) (Some 0) None)) Sample.ids
             (Sample.sendRequest Sample.addrA Sample.addrB 0 2)
             (Sample.send Sample.addrA Sample.addrB 0)
             (accountKey Sample.addrA) (accountKey Sample.addrB) Sample.kPool
             (Sample.readResults (Sample.store (Some 10) (Some 50) (Some 0) None)
                                 Sample.addrA Sample.addrB)
             (VUint8Array Sample.addrA) 10 0 2
             eq_refl eq_refl eq_refl eq_refl eq_refl eq_refl eq_refl eq_refl
             ltac:(lia) ltac:(lia) ltac:(lia) ltac:(lia)));
      try reflexivity.
    + exact Sample_marshal_account.
    + intros q. eexists. reflexivity.
  - apply (proj1 (proj2 (@deliver_checks_addresses_not_amount
             Sample.rt Sample.protobuf (mkConfig (num 1) "/tmp/plugin/")
             (Sample.peer Sample.shortStore) Sample.ids
             (Sample.sendRequest Sample.addrShort Sample.addrB 100 2)
             (Sample.send Sample.addrShort Sample.addrB 100)
             Sample.kShort (accountKey Sample.addrB) Sample.kPool
             (Sample.readResultsAt Sample.shortStore Sample.kShort
                                   (accountKey Sample.addrB))
             (VUint8Array Sample.addrShort) 1000 100 2
             eq_refl eq_refl eq_refl eq_refl eq_refl eq_refl eq_refl eq_refl
             ltac:(lia) ltac:(lia) ltac:(lia) ltac:(lia)))).
    left. reflexivity.
  - intros refusing run. split; [vm_compute; reflexivity|].
    apply (proj2 (proj2 (proj2 (proj2 (@deliver_checks_addresses_not_amount
             Sample.rt Sample.protobuf (mkConfig (num 1) "/tmp/plugin/")
             refusing Sample.ids
             (Sample.sendRequest Sample.addrA Sample.addrB 0 2)
             (Sample.send Sample.addrA Sample.addrB 0)
             (accountKey Sample.addrA) (accountKey Sample.addrB) Sample.kPool
             (Sample.readResults (Sample.store (Some 10) (Some 50) (Some 0) None)
                                 Sample.addrA Sample.addrB)
             (VUint8Array Sample.addrA) 10 0 2
             eq_refl eq_refl eq_refl eq_refl eq_refl eq_refl eq_refl eq_refl
             ltac:(lia) ltac:(lia) ltac:(lia) ltac:(lia)))))
           Sample.ids (Sample.sendRequest Sample.addrA Sample.addrB 0 2)
           (mkDeliverTxResponse (Some errInvalidAddress)) (snd run)
           errInvalidAddress).
    + vm_compute. reflexivity.
    + reflexivity.
    + left. reflexivity.
Defined.

(** C10, as stated, fails for the addresses: the message below has its three
    fields, the fee is above zero and the sender holds 1000, more than
    amount + fee; the sender's address is 19 bytes long, and the deliver
    ends in MARSHAL without a write. *)
Lemma short_address_deliver_rejected :
  isMessageSend (KMessageSend (Sample.send Sample.addrShort Sample.addrB 100)) = true
  /\ 100 + 2 <= 1000
  /\ deliverTx Sample.rt Sample.protobuf (Sample.contract Sample.shortStore)
               Sample.ids (Sample.sendRequest Sample.addrShort Sample.addrB 100 2)
     = (Ok (mkDeliverTxResponse
              (Some (errMarshal "Invalid address: must be exactly 20 bytes"))),
        [CallStateRead (deliverReadRequest Sample.ids Sample.kShort
                                           (accountKey Sample.addrB) Sample.kPool)]).
Proof. split; [reflexivity | split; [lia | vm_compute; reflexivity]]. Qed.

(** ** checkTx up to the fee floor *)

Lemma keyForFeeParams_value : keyForFeeParams = Ok feeParamsKey.
Proof. reflexivity. Qed.

(** With the fee parameters read and both fees above zero, checkTx compares
    the fees and, when the floor is met, goes on to the message. *)
Lemma checkTx_fee_floor
      (rt : Runtime) (pb : ProtobufTypes) (cfg : Config) (p : SocketClientPlugin)
      (rnd : Z) (request : TransactionRequest) (s f : Z) :
  feeParamsRead pb p rnd s ->
  fee (tx request) = VLong (Long.ofU64 f) ->
  0 < f < 2 ^ 64 -> 0 < s < 2 ^ 64 ->
  checkTx rt pb (mkContract (Some cfg) (Some p)) rnd request
  = (Ok (if f <? s then checkFailed errTxFeeBelowStateLimit
         else match fromAny pb (tx_msg (tx request)) with
              | Throw e => checkFailed (errFromAny e)
              | Ok (KMessageSend m) =>
                  if isMessageSend (KMessageSend m) then checkMessageSend rt m
                  else checkFailed errInvalidMessageCast
              | Ok (KTransaction _) => checkFailed errInvalidMessageCast
              end),
     [CallStateRead (checkReadRequest rnd)]).
Proof.
  intros (rs & b & Hread & Hfirst & Hdec) Hfee Hf Hs.
  unfold checkTx. cbn [config plugin]. rewrite keyForFeeParams_value.
  cbn [mlift mbind]. fold (checkReadRequest rnd). unfold call_stateRead.
  rewrite Hread. cbn [mbind read_error results]. rewrite Hfirst, Hdec.
  cbn [mlift mbind sendFee]. rewrite Hfee.
  rewrite !normalizeAmount_u64 by lia. cbn [rbind try_catch mbind].
  rewrite !fromValue_ofU64 by lia. rewrite lt_ofU64 by lia.
  destruct (f <? s); [reflexivity|].
  destruct (fromAny pb (tx_msg (tx request))) as [[m|t]|e]; cbn [isMessageSend];
    try reflexivity.
  destruct (negb _ && negb _ && true); reflexivity.
Qed.

(** C5, as amended. When the fee of the request is above zero and below the
    sendFee read from the state, checkTx answers TX_FEE_BELOW_STATE_LIMIT
    (code 14) and the only request it has sent is the read of the fee
    parameters; the answer is the same for every message the request may
    carry and every codec, so neither fromAny nor the checks of
    checkMessageSend take part. *)
Theorem fee_floor_reply
        (rt : Runtime) (pb : ProtobufTypes) (cfg : Config) (p : SocketClientPlugin)
        (rnd : Z) (request : TransactionRequest) (s f : Z) :
  feeParamsRead pb p rnd s ->
  fee (tx request) = VLong (Long.ofU64 f) ->
  0 < f -> f < s -> s < 2 ^ 64 ->
  checkTx rt pb (mkContract (Some cfg) (Some p)) rnd request
  = (Ok (mkCheckTxResponse None None (Some errTxFeeBelowStateLimit)),
     [CallStateRead (checkReadRequest rnd)])
  /\ errTxFeeBelowStateLimit = mkProtoError 14 "plugin" "tx.fee is below state limit".
Proof.
  intros Hread Hfee Hf Hlt Hs. split; [|reflexivity].
  rewrite (@checkTx_fee_floor rt pb cfg p rnd request s f) by (auto; lia).
  replace (f <? s) with true by (symmetry; apply Z.ltb_lt; lia).
  reflexivity.
Qed.

Lemma Sample_feeParamsRead (store : Sample.Store) (rnd s : Z) :
  Sample.storeGet store feeParamsKey = Some (Sample.feeParamsBytes s) ->
  0 <= s < 2 ^ 64 ->
  unmarshal (types_FeeParams Sample.protobuf) (Some (Sample.feeParamsBytes s))
  = Ok (Some (mkFeeParams (VLong (Long.ofU64 s)))) ->
  feeParamsRead Sample.protobuf (Sample.peer store) rnd s.
Proof.
  intros Hget Hs Hdec. unfold feeParamsRead.
  exists (map (Sample.answer store) (keys (checkReadRequest rnd))).
  exists (Sample.feeParamsBytes s).
  split; [reflexivity|]. split; [|exact Hdec].
  cbn [checkReadRequest keys map firstValue Sample.answer entries key].
  rewrite Hget. reflexivity.
Qed.

(** Scenario 5: sendFee is 5 and the request offers 4. *)
Lemma fee_floor_reply_witness :
  checkTx Sample.rt Sample.protobuf
          (Sample.contract (Sample.store None None None (Some 5))) 7
          (Sample.sendRequest Sample.addrA Sample.addrB 100 4)
  = (Ok (mkCheckTxResponse None None (Some errTxFeeBelowStateLimit)),
     [CallStateRead (checkReadRequest 7)])
  /\ errTxFeeBelowStateLimit = mkProtoError 14 "plugin" "tx.fee is below state limit".
Proof.
  apply (@fee_floor_reply
           Sample.rt Sample.protobuf (mkConfig (num 1) "/tmp/plugin/")
           (Sample.peer (Sample.store None None None (Some 5))) 7
           (Sample.sendRequest Sample.addrA Sample.addrB 100 4) 5 4);
    try reflexivity; try lia.
  apply Sample_feeParamsRead; try reflexivity; lia.
Defined.

(** C5, as stated, fails for a fee of zero: sendFee is 5 and the request
    offers 0, which is below it; normalizeAmount rejects the fee and the
    reply carries UNMARSHAL (code 3). *)
Lemma zero_fee_check_reply :
  0 < 5
  /\ exists e,
      checkTx Sample.rt Sample.protobuf
              (Sample.contract (Sample.store None None None (Some 5))) 7
              (Sample.sendRequest Sample.addrA Sample.addrB 100 0)
      = (Ok (mkCheckTxResponse None None (Some e)),
         [CallStateRead (checkReadRequest 7)])
      /\ code e = 3
      /\ code errTxFeeBelowStateLimit = 14.
Proof.
  split; [lia|]. eexists. split; [vm_compute; reflexivity|].
  split; reflexivity.
Qed.

(** ** C9: messages that are no MessageSend *)

Lemma fromAny_unknown (pb : ProtobufTypes) (a : AnyMessage) (u : string) (v : bytes) :
  typeUrlOf a = Some u -> u <> EmptyString -> value a = Some v ->
  isSendName (typeNameOf u) = false ->
  isTransactionName (typeNameOf u) = false ->
  fromAny pb (Some a)
  = Throw ("FromAny failed: Unknown message type in Any: " ++ typeNameOf u).
Proof.
  intros Hu Hne Hv Hsend Htx. unfold typeUrlOf in Hu. unfold fromAny.
  rewrite Hu, Hv.
  destruct u as [|ch u]; [contradiction|].
  unfold isSendName, isTransactionName, typeNameOf in *.
  rewrite Hsend, Htx. reflexivity.
Qed.

Lemma fromAny_transaction (pb : ProtobufTypes) (a : AnyMessage) (u : string)
      (v : bytes) (t : Transaction) :
  typeUrlOf a = Some u -> u <> EmptyString -> value a = Some v ->
  isSendName (typeNameOf u) = false ->
  isTransactionName (typeNameOf u) = true ->
  unmarshal (types_Transaction pb) (Some v) = Ok (Some t) ->
  fromAny pb (Some a) = Ok (KTransaction t).
Proof.
  intros Hu Hne Hv Hsend Htx Hdec. unfold typeUrlOf in Hu. unfold fromAny.
  rewrite Hu, Hv.
  destruct u as [|ch u]; [contradiction|].
  unfold isSendName, isTransactionName, typeNameOf in *.
  rewrite Hsend, Htx, Hdec. reflexivity.
Qed.

(** C9, as amended. For a request whose message has a type URL (under
    typeUrl or, when that field is absent, under type_url) and a value,
    with a type name other than MessageSend and types.MessageSend:
    when the name is not Transaction or types.Transaction either, fromAny
    throws and the reply of deliverTx carries FROM_ANY (code 10), as does
    the reply of checkTx once the fee floor is met; when the name is
    Transaction or types.Transaction and the value decodes, both replies
    carry INVALID_MESSAGE_CAST (code 11, the message cast failed).
    deliverTx sends nothing to the FSM in either case. *)
Theorem non_send_kinds
        (rt : Runtime) (pb : ProtobufTypes) (cfg : Config) (p : SocketClientPlugin)
        (ids : QueryIds) (rnd : Z) (request : TransactionRequest)
        (a : AnyMessage) (u : string) (v : bytes) (s f : Z) :
  let c := mkContract (Some cfg) (Some p) in
  let name := typeNameOf u in
  let unknown := errFromAny ("FromAny failed: Unknown message type in Any: " ++ name) in
  tx_msg (tx request) = Some a ->
  typeUrlOf a = Some u -> u <> EmptyString -> value a = Some v ->
  isSendName name = false ->
  (isTransactionName name = false ->
   deliverTx rt pb c ids request = (Ok (mkDeliverTxResponse (Some unknown)), [])
   /\ code unknown = 10
   /\ (feeParamsRead pb p rnd s -> fee (tx request) = VLong (Long.ofU64 f) ->
       0 < s -> s <= f -> f < 2 ^ 64 ->
       checkTx rt pb c rnd request
       = (Ok (mkCheckTxResponse None None (Some unknown)),
          [CallStateRead (checkReadRequest rnd)])))
  /\ (forall t,
         isTransactionName name = true ->
         unmarshal (types_Transaction pb) (Some v) = Ok (Some t) ->
         deliverTx rt pb c ids request
         = (Ok (mkDeliverTxResponse (Some errInvalidMessageCast)), [])
         /\ errInvalidMessageCast = mkProtoError 11 "plugin" "the message cast failed"
         /\ (feeParamsRead pb p rnd s -> fee (tx request) = VLong (Long.ofU64 f) ->
             0 < s -> s <= f -> f < 2 ^ 64 ->
             checkTx rt pb c rnd request
             = (Ok (mkCheckTxResponse None None (Some errInvalidMessageCast)),
                [CallStateRead (checkReadRequest rnd)]))).
Proof.
  intros c name unknown Hmsg Hu Hne Hv Hsend. subst c. split.
  - intros Htx.
    pose proof (fromAny_unknown pb a Hu Hne Hv Hsend Htx) as Hany.
    split; [|split; [reflexivity|]].
    + unfold deliverTx. rewrite Hmsg, Hany. reflexivity.
    + intros Hread Hfee Hs Hle Hf.
      rewrite (@checkTx_fee_floor rt pb cfg p rnd request s f) by (auto; lia).
      replace (f <? s) with false by (symmetry; apply Z.ltb_ge; lia).
      rewrite Hmsg, Hany. reflexivity.
  - intros t Htx Hdec.
    pose proof (fromAny_transaction pb a Hu Hne Hv Hsend Htx Hdec) as Hany.
    split; [|split; [reflexivity|]].
    + unfold deliverTx. rewrite Hmsg, Hany. reflexivity.
    + intros Hread Hfee Hs Hle Hf.
      rewrite (@checkTx_fee_floor rt pb cfg p rnd request s f) by (auto; lia).
      replace (f <? s) with false by (symmetry; apply Z.ltb_ge; lia).
      rewrite Hmsg, Hany. reflexivity.
Qed.

Lemma non_send_kinds_witness :
  let c := Sample.contract (Sample.store None None None (Some 1)) in
  let stake := requestOfKind "type.googleapis.com/types.MessageStake" [x01] in
  let wrapped := requestOfKindSnake "types.Transaction" (Sample.be8 7) in
  let staked := requestOfKindSnake "type.googleapis.com/types.MessageStake" [x01] in
  let unknown :=
    errFromAny "FromAny failed: Unknown message type in Any: types.MessageStake" in
  (deliverTx Sample.rt Sample.protobuf c Sample.ids stake
   = (Ok (mkDeliverTxResponse (Some unknown)), [])
   /\ code unknown = 10
   /\ checkTx Sample.rt Sample.protobuf c 7 stake
      = (Ok (mkCheckTxResponse None None (Some unknown)),
         [CallStateRead (checkReadRequest 7)]))
  /\ (deliverTx Sample.rt Sample.protobuf c Sample.ids wrapped
      = (Ok (mkDeliverTxResponse (Some errInvalidMessageCast)), [])
      /\ checkTx Sample.rt Sample.protobuf c 7 wrapped
         = (Ok (mkCheckTxResponse None None (Some errInvalidMessageCast)),
            [CallStateRead (checkReadRequest 7)]))
  /\ deliverTx Sample.rt Sample.protobuf c Sample.ids staked
     = (Ok (mkDeliverTxResponse (Some unknown)), []).
Proof.
  intros c stake wrapped staked unknown.
  assert (Hread : feeParamsRead Sample.protobuf
                                (Sample.peer (Sample.store None None None (Some 1))) 7 1)
    by (apply Sample_feeParamsRead; try reflexivity; lia).
  split.
  - destruct (proj1 (@non_send_kinds
               Sample.rt Sample.protobuf (mkConfig (num 1) "/tmp/plugin/")
               (Sample.peer (Sample.store None None None (Some 1))) Sample.ids 7
               stake (mkAny (Some "type.googleapis.com/types.MessageStake") None
                            (Some [x01]))
               "type.googleapis.com/types.MessageStake" [x01] 1 2
               eq_refl eq_refl ltac:(discriminate) eq_refl eq_refl) eq_refl)
      as (Hd & Hc & Hk).
    split; [exact Hd|]. split; [exact Hc|].
    apply Hk; try reflexivity; try lia. exact Hread.
  - destruct (proj2 (@non_send_kinds
               Sample.rt Sample.protobuf (mkConfig (num 1) "/tmp/plugin/")
               (Sample.peer (Sample.store None None None (Some 1))) Sample.ids 7
               wrapped (mkAny None (Some "types.Transaction") (Some (Sample.be8 7)))
               "types.Transaction" (Sample.be8 7) 1 2
               eq_refl eq_refl ltac:(discriminate) eq_refl eq_refl)
               (mkTransaction (VLong (Long.ofU64 7)) None) eq_refl eq_refl)
      as (Hd & _ & Hk).
    split; [split; [exact Hd|] |].
    + apply Hk; try reflexivity; try lia. exact Hread.
    + exact (proj1 (proj1 (@non_send_kinds
               Sample.rt Sample.protobuf (mkConfig (num 1) "/tmp/plugin/")
               (Sample.peer (Sample.store None None None (Some 1))) Sample.ids 7
               staked (mkAny None (Some "type.googleapis.com/types.MessageStake")
                             (Some [x01]))
               "type.googleapis.com/types.MessageStake" [x01] 1 2
               eq_refl eq_refl ltac:(discriminate) eq_refl eq_refl) eq_refl)).
Defined.

(** C9, as stated, fails for an unknown kind: the type name
    types.MessageStake is none that fromAny knows, and the reply of
    deliverTx carries FROM_ANY (code 10), not INVALID_MESSAGE_CAST. *)
Lemma unknown_kind_deliver_reply :
  isSendName (typeNameOf "type.googleapis.com/types.MessageStake") = false
  /\ deliverTx Sample.rt Sample.protobuf
               (Sample.contract (Sample.store None None None (Some 1))) Sample.ids
               (requestOfKind "type.googleapis.com/types.MessageStake" [x01])
     = (Ok (mkDeliverTxResponse
              (Some (mkProtoError 10 "plugin"
                       "fromAny() failed with err: FromAny failed: Unknown message type in Any: types.MessageStake"))),
        [])
  /\ code errInvalidMessageCast = 11.
Proof. split; [reflexivity | split; [vm_compute; reflexivity | reflexivity]]. Qed.


(** ** C6: correlation *)

Lemma response_not_processed (message : SocketClient.FSMToPlugin) :
  SocketClient.isResponse message ->
  SocketClient.processRequestMessage message = SocketClient.NoResponse.
Proof.
  intros (Hg & Hb & Hc & Hd & He & Hk). unfold SocketClient.processRequestMessage.
  rewrite Hg, Hb, Hc, Hd, He.
  destruct (SocketClient.msg_config message); [reflexivity|].
  destruct (SocketClient.msg_stateRead message); [reflexivity|].
  destruct (SocketClient.msg_stateWrite message); [reflexivity|].
  destruct (SocketClient.msg_error message); [reflexivity|].
  destruct Hk as [[? H]|[[? H]|[[? H]|[? H]]]]; discriminate H.
Qed.

(** C6. A decoded message whose id has an entry in the pending table is
    handled as a response whatever payloads it carries: the entry is
    removed and its waiter is resolved with the whole message, and nothing
    else changes. After the timer of a request has fired, a message with
    that id resolves no waiter, and when it is a response it changes
    nothing at all: no reply is written and no contract call begins. *)
Theorem correlation_by_id :
  (forall (s : SocketClient.State) (message : SocketClient.FSMToPlugin)
          (waiter : SocketClient.Waiter),
      SocketClient.pending s
        !! SocketClient.requestKey (SocketClient.id message) = Some waiter ->
      SocketClient.handleInboundMessage s message
      = SocketClient.mkState
          (delete (SocketClient.requestKey (SocketClient.id message))
                  (SocketClient.pending s))
          (SocketClient.requestContract s
             ∖ {[SocketClient.requestKey (SocketClient.id message)]})
          (SocketClient.resolved s ++ [(waiter, message)])%list
          (SocketClient.rejected s) (SocketClient.started s)
          (SocketClient.written s))
  /\ (forall (s : SocketClient.State) (waiter : SocketClient.Waiter)
             (message : SocketClient.FSMToPlugin),
         let late :=
           SocketClient.timeoutFires
             s (SocketClient.requestKey (SocketClient.id message)) waiter in
         SocketClient.resolved (SocketClient.handleInboundMessage late message)
         = SocketClient.resolved late
         /\ (SocketClient.isResponse message ->
             SocketClient.handleInboundMessage late message = late)).
Proof.
  split.
  - intros s message waiter Hp.
    unfold SocketClient.handleInboundMessage, SocketClient.analyzeMessageRouting.
    cbn [SocketClient.isPending]. rewrite Hp.
    unfold SocketClient.handleFSMResponse. rewrite Hp. reflexivity.
  - intros s waiter message late.
    assert (Hnone : SocketClient.pending late
                      !! SocketClient.requestKey (SocketClient.id message) = None).
    { unfold late, SocketClient.timeoutFires. cbn [SocketClient.pending].
      apply lookup_delete_eq. }
    unfold SocketClient.handleInboundMessage, SocketClient.analyzeMessageRouting.
    cbn [SocketClient.isPending]. rewrite Hnone.
    unfold SocketClient.handleFSMRequest. split.
    + destruct (SocketClient.processRequestMessage message); reflexivity.
    + intros Hr. rewrite (response_not_processed Hr). reflexivity.
Qed.

(** A read with id 7 is pending for waiter 0; its timer fires; then the
    answer arrives. *)
Lemma correlation_by_id_witness :
  let answer :=
    SocketClient.mkFSMToPlugin (Long.ofU64 7) None None None None None None
                               (Some (mkReadResp None [])) None None in
  let s :=
    SocketClient.sendToPluginAsync
      (SocketClient.mkState ∅ ∅ [] [] [] []) (Long.ofU64 7)
      (SocketClient.PStateRead (mkReadReq [])) 0%nat in
  let late := SocketClient.timeoutFires s 7 0%nat in
  SocketClient.resolved (SocketClient.handleInboundMessage s answer)
  = [(0%nat, answer)]
  /\ SocketClient.handleInboundMessage late answer = late.
Proof.
  intros answer s late. split.
  - rewrite (proj1 correlation_by_id s answer 0%nat); [reflexivity|].
    apply lookup_insert_eq.
  - apply (proj2 (proj2 correlation_by_id s 0%nat answer)).
    unfold SocketClient.isResponse, answer. cbn.
    repeat split; try reflexivity. right. left. eexists. reflexivity.
Defined.

(* ===================================================================== *)
(** * Further properties of the sources *)

(** ** Frames *)

Lemma byte_of_Z_of_byte (b : byte) : byte_of_Z (Z_of_byte b) = b.
Proof.
  unfold byte_of_Z, Z_of_byte.
  pose proof (Byte.to_N_bounded b) as Hr.
  rewrite Z.mod_small by lia. rewrite N2Z.id. now rewrite Byte.of_to_N.
Qed.

Lemma Z_of_byte_range (b : byte) : 0 <= Z_of_byte b < 256.
Proof.
  unfold Z_of_byte. pose proof (Byte.to_N_bounded b). lia.
Qed.

Lemma byte_of_Z_eq (x : Z) (b : byte) : x mod 256 = Z_of_byte b -> byte_of_Z x = b.
Proof.
  intros H. rewrite <- (byte_of_Z_of_byte b) at 1. unfold byte_of_Z.
  rewrite H. rewrite (Z.mod_small (Z_of_byte b)) by apply Z_of_byte_range.
  reflexivity.
Qed.

Lemma be4_readUInt32BE (b0 b1 b2 b3 : byte) (rest : bytes) :
  Framing.be4 (Framing.readUInt32BE (b0 :: b1 :: b2 :: b3 :: rest)) = [b0; b1; b2; b3].
Proof.
  unfold Framing.be4, Framing.readUInt32BE, be_value.
  change (firstn 4 (b0 :: b1 :: b2 :: b3 :: rest)) with [b0; b1; b2; b3].
  cbn [fold_left map].
  pose proof (Z_of_byte_range b0). pose proof (Z_of_byte_range b1).
  pose proof (Z_of_byte_range b2). pose proof (Z_of_byte_range b3).
  rewrite !Z.shiftr_div_pow2 by lia.
  change (2 ^ (8 * 3)) with 16777216. change (2 ^ (8 * 2)) with 65536.
  change (2 ^ (8 * 1)) with 256. change (2 ^ (8 * 0)) with 1.
  repeat (f_equal; try (apply byte_of_Z_eq; Z.to_euclidean_division_equations; lia)).
Qed.

Lemma readUInt32BE_range (buf : bytes) : 0 <= Framing.readUInt32BE buf < 2 ^ 32.
Proof.
  unfold Framing.readUInt32BE, be_value.
  destruct buf as [|b0 [|b1 [|b2 [|b3 rest]]]];
    [change (firstn 4 (@nil byte)) with (@nil byte)
    |change (firstn 4 [b0]) with [b0]
    |change (firstn 4 [b0; b1]) with [b0; b1]
    |change (firstn 4 [b0; b1; b2]) with [b0; b1; b2]
    |change (firstn 4 (b0 :: b1 :: b2 :: b3 :: rest)) with [b0; b1; b2; b3]];
    cbn [fold_left];
    repeat match goal with
           | b : byte |- _ =>
               lazymatch goal with
               | H : 0 <= Z_of_byte b < 256 |- _ => fail
               | _ => pose proof (Z_of_byte_range b)
               end
           end; lia.
Qed.

Lemma readUInt32BE_be4 (n : Z) (rest : bytes) :
  0 <= n < 2 ^ 32 -> Framing.readUInt32BE (Framing.be4 n ++ rest) = n.
Proof.
  intros Hn. unfold Framing.readUInt32BE, Framing.be4, be_value.
  cbn [map app].
  match goal with
  | |- context [firstn 4 (?a :: ?b :: ?c :: ?d :: rest)] =>
      change (firstn 4 (a :: b :: c :: d :: rest)) with [a; b; c; d]
  end.
  cbn [fold_left].
  rewrite !Z_of_byte_of_Z, !Z.shiftr_div_pow2 by lia.
  change (2 ^ 32) with 4294967296 in Hn.
  change (2 ^ (8 * 3)) with 16777216. change (2 ^ (8 * 2)) with 65536.
  change (2 ^ (8 * 1)) with 256. change (2 ^ (8 * 0)) with 1.
  Z.to_euclidean_division_equations. lia.
Qed.

(** The loop has run to its end well within the iterations [drainAll] allows. *)
Lemma readPrefix_measure (buf buf1 : bytes) (expected : option Z) (n : Z) :
  buf <> [] ->
  Framing.readPrefix buf expected = (buf1, Some n) ->
  (Framing.measure (skipn (Z.to_nat n) buf1) None < Framing.measure buf expected)%nat.
Proof.
  intros Hne Hp. unfold Framing.readPrefix in Hp. unfold Framing.measure.
  destruct expected as [k|].
  - injection Hp as <- <-. rewrite length_skipn. lia.
  - destruct (4 <=? length buf)%nat eqn:E; [|discriminate].
    injection Hp as <- <-. apply Nat.leb_le in E. rewrite !length_skipn. lia.
Qed.

Lemma drain_enough (k : nat) :
  forall (fuel : nat) (buf : bytes) (expected : option Z),
    (fuel <= k)%nat -> (Framing.measure buf expected < fuel)%nat ->
    Framing.drain fuel buf expected = Framing.drainAll buf expected.
Proof.
  unfold Framing.drainAll.
  induction k as [|k IH]; intros fuel buf expected Hk Hm; [lia|].
  destruct fuel as [|fuel]; [lia|].
  cbn [Framing.drain]. destruct buf as [|b buf]; [reflexivity|].
  destruct (Framing.readPrefix (b :: buf) expected) as [buf1 [n|]] eqn:Hp;
    [|reflexivity].
  destruct (n <=? Z.of_nat (length buf1)); [|reflexivity].
  pose proof (@readPrefix_measure (b :: buf) buf1 expected n ltac:(discriminate) Hp)
    as Hlt.
  rewrite (IH fuel) by lia.
  rewrite (IH (Framing.measure (b :: buf) expected)) by lia.
  reflexivity.
Qed.

(** One turn of the loop. *)
Lemma drainAll_eq (buf : bytes) (expected : option Z) :
  Framing.drainAll buf expected
  = match buf with
    | [] => ([], Framing.mkReader buf expected)
    | _ :: _ =>
        let (buf1, expected1) := Framing.readPrefix buf expected in
        match expected1 with
        | Some n =>
            if n <=? Z.of_nat (length buf1) then
              let (ms, st) := Framing.drainAll (skipn (Z.to_nat n) buf1) None in
              (firstn (Z.to_nat n) buf1 :: ms, st)
            else ([], Framing.mkReader buf1 expected1)
        | None => ([], Framing.mkReader buf1 expected1)
        end
    end.
Proof.
  unfold Framing.drainAll at 1. cbn [Framing.drain].
  destruct buf as [|b buf]; [reflexivity|].
  destruct (Framing.readPrefix (b :: buf) expected) as [buf1 [n|]] eqn:Hp;
    [|reflexivity].
  destruct (n <=? Z.of_nat (length buf1)); [|reflexivity].
  pose proof (@readPrefix_measure (b :: buf) buf1 expected n ltac:(discriminate) Hp)
    as Hlt.
  rewrite (@drain_enough (Framing.measure (b :: buf) expected)) by lia.
  reflexivity.
Qed.

Lemma drainAll_nil (expected : option Z) :
  Framing.drainAll [] expected = ([], Framing.mkReader [] expected).
Proof. reflexivity. Qed.

(** More data never changes what the data at hand gave: the loop on
    [x ++ c] first does what it does on [x], then goes on with what was left
    and [c]. *)
Lemma drainAll_app (c : bytes) :
  forall (k : nat) (x : bytes) (expected : option Z),
    (Framing.measure x expected <= k)%nat ->
    Framing.drainAll (x ++ c) expected
    = (let (ms, st) := Framing.drainAll x expected in
       let (ms', st') :=
         Framing.drainAll (Framing.buffer st ++ c) (Framing.expectedLength st) in
       ((ms ++ ms')%list, st')).
Proof.
  induction k as [|k IH]; intros x expected Hm.
  - destruct x as [|b x]; [|unfold Framing.measure in Hm; cbn in Hm; lia].
    rewrite drainAll_nil. cbn [Framing.buffer Framing.expectedLength app].
    destruct (Framing.drainAll c expected). reflexivity.
  - destruct x as [|b x].
    { rewrite drainAll_nil. cbn [Framing.buffer Framing.expectedLength app].
      destruct (Framing.drainAll c expected). reflexivity. }
    rewrite (drainAll_eq (b :: x) expected).
    rewrite (drainAll_eq ((b :: x) ++ c) expected).
    cbn [app].
    destruct expected as [n|].
    + (* a length is awaited *)
      cbn [Framing.readPrefix].
      change (b :: (x ++ c)%list) with ((b :: x) ++ c)%list.
      destruct (Z.leb_spec n (Z.of_nat (length (b :: x)))) as [Hle|Hgt].
      * replace (n <=? Z.of_nat (length ((b :: x) ++ c))) with true
          by (symmetry; apply Z.leb_le; rewrite length_app; lia).
        destruct (Z_lt_le_dec n 0) as [Hneg|Hpos].
        -- replace (Z.to_nat n) with 0%nat by lia.
           rewrite !firstn_O, !skipn_O.
           rewrite (IH (b :: x) None)
             by (unfold Framing.measure in *; cbn in *; lia).
           destruct (Framing.drainAll (b :: x) None) as [ms st].
           destruct (Framing.drainAll (Framing.buffer st ++ c)
                                      (Framing.expectedLength st)).
           reflexivity.
        -- assert (Hn : (Z.to_nat n <= length (b :: x))%nat) by lia.
           rewrite firstn_app, skipn_app.
           replace (Z.to_nat n - length (b :: x))%nat with 0%nat by lia.
           rewrite firstn_O, skipn_O, app_nil_r.
           rewrite IH.
           2:{ unfold Framing.measure in *. rewrite length_skipn. cbn in *. lia. }
           destruct (Framing.drainAll (skipn (Z.to_nat n) (b :: x)) None) as [ms st].
           destruct (Framing.drainAll (Framing.buffer st ++ c)
                                      (Framing.expectedLength st)).
           reflexivity.
      * cbn [Framing.buffer Framing.expectedLength app].
        rewrite (drainAll_eq (b :: (x ++ c)%list) (Some n)). cbn [Framing.readPrefix].
        destruct (n <=? Z.of_nat (length (b :: (x ++ c)%list))); [|reflexivity].
        destruct (Framing.drainAll _ None). reflexivity.
    + (* no length yet *)
      unfold Framing.readPrefix.
      destruct (Nat.leb_spec 4 (length (b :: x))) as [H4|H4].
      * replace (4 <=? length (b :: (x ++ c)%list))%nat with true
          by (symmetry; apply Nat.leb_le; cbn [length] in *;
              rewrite length_app; lia).
        change (b :: (x ++ c)%list) with ((b :: x) ++ c)%list.
        assert (Hpre : Framing.readUInt32BE ((b :: x) ++ c)
                       = Framing.readUInt32BE (b :: x)).
        { unfold Framing.readUInt32BE. rewrite firstn_app.
          replace (4 - length (b :: x))%nat with 0%nat by lia.
          rewrite firstn_O. now rewrite app_nil_r. }
        rewrite Hpre. set (n := Framing.readUInt32BE (b :: x)).
        assert (Hn0 : 0 <= n) by apply readUInt32BE_range.
        rewrite skipn_app. replace (4 - length (b :: x))%nat with 0%nat by lia.
        rewrite skipn_O.
        set (x1 := skipn 4 (b :: x)).
        assert (Hx1 : (length x1 + 4 = length (b :: x))%nat)
          by (unfold x1; rewrite length_skipn; lia).
        destruct (Z.leb_spec n (Z.of_nat (length x1))) as [Hle|Hgt].
        -- replace (n <=? Z.of_nat (length (x1 ++ c))) with true
             by (symmetry; apply Z.leb_le; rewrite length_app; lia).
           assert (Hn : (Z.to_nat n <= length x1)%nat) by lia.
           rewrite firstn_app, skipn_app.
           replace (Z.to_nat n - length x1)%nat with 0%nat by lia.
           rewrite firstn_O, skipn_O, app_nil_r.
           rewrite IH.
           2:{ unfold Framing.measure in *. rewrite length_skipn. cbn in *. lia. }
           destruct (Framing.drainAll (skipn (Z.to_nat n) x1) None) as [ms st].
           destruct (Framing.drainAll (Framing.buffer st ++ c)
                                      (Framing.expectedLength st)).
           reflexivity.
        -- cbn [Framing.buffer Framing.expectedLength app].
           rewrite (drainAll_eq (x1 ++ c) (Some n)).
           destruct (x1 ++ c)%list as [|y ys] eqn:Exc.
           ++ replace (n <=? Z.of_nat (length (@nil byte))) with false; [reflexivity|].
              symmetry. apply Z.leb_gt. cbn [length]. lia.
           ++ cbn [Framing.readPrefix].
              destruct (n <=? Z.of_nat (length (y :: ys))); [|reflexivity].
              destruct (Framing.drainAll _ None). reflexivity.
      * cbn [Framing.buffer Framing.expectedLength app].
        rewrite (drainAll_eq (b :: (x ++ c)%list) None).
        unfold Framing.readPrefix.
        destruct (4 <=? length (b :: (x ++ c)%list))%nat.
        -- destruct (_ <=? _); [|reflexivity].
           destruct (Framing.drainAll _ None). reflexivity.
        -- reflexivity.
Qed.

(** A state the loop has left is one on which the loop does nothing. *)
Lemma drainAll_settled :
  forall (k : nat) (buf : bytes) (expected : option Z),
    (Framing.measure buf expected <= k)%nat ->
    forall ms st, Framing.drainAll buf expected = (ms, st) ->
    Framing.drainAll (Framing.buffer st) (Framing.expectedLength st) = ([], st).
Proof.
  induction k as [|k IH]; intros buf expected Hm ms st Hd.
  - destruct buf as [|b buf]; [|unfold Framing.measure in Hm; cbn in Hm; lia].
    rewrite drainAll_nil in Hd. injection Hd as <- <-. reflexivity.
  - rewrite drainAll_eq in Hd. destruct buf as [|b buf].
    { injection Hd as <- <-. reflexivity. }
    destruct (Framing.readPrefix (b :: buf) expected) as [buf1 [n|]] eqn:Hp.
    + destruct (Z.leb_spec n (Z.of_nat (length buf1))) as [Hle|Hgt].
      * pose proof (@readPrefix_measure (b :: buf) buf1 expected n
                                        ltac:(discriminate) Hp) as Hlt.
        destruct (Framing.drainAll (skipn (Z.to_nat n) buf1) None) as [ms' st'] eqn:Hr.
        injection Hd as <- <-. eapply IH; [|exact Hr]. lia.
      * injection Hd as <- <-. cbn [Framing.buffer Framing.expectedLength].
        rewrite drainAll_eq. destruct buf1 as [|y ys]; [reflexivity|].
        cbn [Framing.readPrefix].
        replace (n <=? Z.of_nat (length (y :: ys))) with false
          by (symmetry; apply Z.leb_gt; lia).
        reflexivity.
    + injection Hd as <- <-. cbn [Framing.buffer Framing.expectedLength].
      unfold Framing.readPrefix in Hp. destruct expected as [n|]; [discriminate|].
      destruct (4 <=? length (b :: buf))%nat eqn:E; [discriminate|].
      injection Hp as <-. rewrite drainAll_eq. unfold Framing.readPrefix.
      rewrite E. reflexivity.
Qed.

Lemma onData_settled (st : Framing.ReaderState) (data : bytes)
      (ms : list bytes) (st' : Framing.ReaderState) :
  Framing.onData st data = (ms, st') -> Framing.onData st' [] = ([], st').
Proof.
  intros H. unfold Framing.onData in *. rewrite app_nil_r.
  eapply drainAll_settled; [|exact H]. apply Nat.le_refl.
Qed.

Lemma onChunks_from (st : Framing.ReaderState) (chunks : list bytes) :
  Framing.onData st [] = ([], st) ->
  Framing.onChunks st chunks = Framing.onData st (concat chunks).
Proof.
  revert st. induction chunks as [|c rest IH]; intros st Hst.
  - cbn [Framing.onChunks concat]. now rewrite Hst.
  - cbn [Framing.onChunks concat]. unfold Framing.onData at 2.
    rewrite app_assoc.
    rewrite (@drainAll_app (concat rest)
               (Framing.measure (Framing.buffer st ++ c) (Framing.expectedLength st)))
      by apply Nat.le_refl.
    fold (Framing.onData st c).
    destruct (Framing.onData st c) as [ms st1] eqn:H1.
    rewrite (IH st1) by (eapply onData_settled; exact H1).
    reflexivity.
Qed.

(** X1. How the stream is cut into chunks does not matter: the reader hands
    over the same messages, in the same order, and ends in the same state
    as when the whole stream arrives in one piece. *)
Theorem chunking_is_irrelevant (chunks : list bytes) :
  Framing.onChunks Framing.idle chunks
  = Framing.onData Framing.idle (concat chunks).
Proof. apply onChunks_from. reflexivity. Qed.

Lemma sendProtoMsg_frame (m : bytes) :
  Z.of_nat (length m) < 2 ^ 32 ->
  Framing.sendProtoMsg true (Ok m) = Ok (Framing.frameOf m).
Proof.
  intros Hl. unfold Framing.sendProtoMsg, Framing.writeUInt32BE, Framing.frameOf.
  cbn [negb rbind].
  replace ((0 <=? Z.of_nat (length m)) && (Z.of_nat (length m) <=? 4294967295))
    with true; [reflexivity|].
  symmetry. apply andb_true_iff. change (2 ^ 32) with 4294967296 in Hl.
  split; apply Z.leb_le; lia.
Qed.

Lemma sendProtoMsg_inv (m f : bytes) :
  Framing.sendProtoMsg true (Ok m) = Ok f ->
  Z.of_nat (length m) < 2 ^ 32 /\ f = Framing.frameOf m.
Proof.
  unfold Framing.sendProtoMsg, Framing.writeUInt32BE, Framing.frameOf.
  cbn [negb rbind].
  destruct ((0 <=? Z.of_nat (length m)) && (Z.of_nat (length m) <=? 4294967295))
           eqn:E; cbn [rbind try_catch]; [|discriminate].
  intros H. injection H as <-. apply andb_true_iff in E as [_ E].
  apply Z.leb_le in E. change (2 ^ 32) with 4294967296. split; [lia|reflexivity].
Qed.

Lemma be4_length (n : Z) : length (Framing.be4 n) = 4%nat.
Proof. reflexivity. Qed.

(** One whole frame at the head of the accumulator is handed over. *)
Lemma drainAll_frame (m rest : bytes) :
  Z.of_nat (length m) < 2 ^ 32 ->
  Framing.drainAll (Framing.frameOf m ++ rest) None
  = (let (ms, st) := Framing.drainAll rest None in (m :: ms, st)).
Proof.
  intros Hl. rewrite drainAll_eq. unfold Framing.frameOf. rewrite <- app_assoc.
  set (n := Z.of_nat (length m)).
  assert (Hn : 0 <= n < 2 ^ 32) by (unfold n; lia).
  pose proof (@readUInt32BE_be4 n (m ++ rest) Hn) as Hrd.
  remember (Framing.be4 n ++ m ++ rest)%list as buf eqn:Ebuf.
  assert (Hskip : skipn 4 buf = (m ++ rest)%list).
  { subst buf. rewrite skipn_app, be4_length. cbn [Nat.sub].
    rewrite skipn_O. reflexivity. }
  assert (Hlen : (4 <= length buf)%nat).
  { subst buf. rewrite length_app, be4_length. lia. }
  destruct buf as [|b buf']; [cbn in Hlen; lia|].
  unfold Framing.readPrefix.
  replace (4 <=? length (b :: buf'))%nat with true
    by (symmetry; apply Nat.leb_le; exact Hlen).
  rewrite Hrd, Hskip.
  replace (n <=? Z.of_nat (length (m ++ rest))) with true
    by (symmetry; apply Z.leb_le; rewrite length_app; unfold n; lia).
  unfold n. rewrite Nat2Z.id.
  rewrite firstn_app, skipn_app, Nat.sub_diag, firstn_all, skipn_all.
  rewrite firstn_O, skipn_O, app_nil_r. reflexivity.
Qed.

Lemma drainAll_frames (ms frames : list bytes) :
  Forall2 (fun m f => Framing.sendProtoMsg true (Ok m) = Ok f) ms frames ->
  Framing.drainAll (concat frames) None = (ms, Framing.idle).
Proof.
  induction 1 as [|m f ms frames Hf _ IH]; [reflexivity|].
  apply sendProtoMsg_inv in Hf as [Hl ->].
  cbn [concat]. rewrite (@drainAll_frame m (concat frames) Hl), IH. reflexivity.
Qed.

(** X2. What sendProtoMsg writes, the reader gives back: when the stream is
    the frames of the messages [ms], one after the other, cut into chunks
    at any places, the reader hands over exactly [ms], in order, and is left
    with an empty accumulator and no length awaited. *)
Theorem framing_round_trip (ms frames chunks : list bytes) :
  Forall2 (fun m f => Framing.sendProtoMsg true (Ok m) = Ok f) ms frames ->
  concat chunks = concat frames ->
  Framing.onChunks Framing.idle chunks = (ms, Framing.idle).
Proof.
  intros Hf Hc. rewrite chunking_is_irrelevant. unfold Framing.onData.
  cbn [Framing.buffer Framing.expectedLength Framing.idle app].
  rewrite Hc. now apply drainAll_frames.
Qed.

(** Two messages, the second one empty, cut into four chunks that split both
    length prefixes. *)
Lemma framing_round_trip_witness :
  Framing.onChunks Framing.idle
                   [[x00; x00]; [x00; x02; x01]; [x02; x00; x00; x00]; [x00]]
  = ([[x01; x02]; []], Framing.idle).
Proof.
  apply (@framing_round_trip [[x01; x02]; []]
                             [[x00; x00; x00; x02; x01; x02]; [x00; x00; x00; x00]]);
    [|reflexivity].
  repeat constructor.
Defined.

Lemma drainAll_conserved :
  forall (k : nat) (buf : bytes) (expected : option Z),
    (Framing.measure buf expected <= k)%nat ->
    (forall n, expected = Some n -> 0 <= n) ->
    forall ms st, Framing.drainAll buf expected = (ms, st) ->
    (Framing.pendingPrefix expected ++ buf)%list
    = (concat (map Framing.frameOf ms)
       ++ Framing.pendingPrefix (Framing.expectedLength st)
       ++ Framing.buffer st)%list.
Proof.
  induction k as [|k IH]; intros buf expected Hm Hpos ms st Hd.
  - destruct buf as [|b buf]; [|unfold Framing.measure in Hm; cbn in Hm; lia].
    rewrite drainAll_nil in Hd. injection Hd as <- <-. reflexivity.
  - rewrite drainAll_eq in Hd. destruct buf as [|b buf].
    { injection Hd as <- <-. reflexivity. }
    destruct (Framing.readPrefix (b :: buf) expected) as [buf1 [n|]] eqn:Hp.
    + assert (Hbuf : (Framing.pendingPrefix expected ++ b :: buf)%list
                     = (Framing.be4 n ++ buf1)%list /\ 0 <= n).
      { unfold Framing.readPrefix in Hp. destruct expected as [n'|].
        - injection Hp as <- <-. split; [reflexivity | now apply Hpos].
        - destruct (4 <=? length (b :: buf))%nat eqn:E; [|discriminate].
          injection Hp as <- <-. apply Nat.leb_le in E.
          split; [|apply readUInt32BE_range].
          destruct buf as [|b1 [|b2 [|b3 rest]]]; try (cbn in E; lia).
          rewrite be4_readUInt32BE. reflexivity. }
      destruct Hbuf as [Hbuf Hn0]. rewrite Hbuf.
      destruct (Z.leb_spec n (Z.of_nat (length buf1))) as [Hle|Hgt].
      * pose proof (@readPrefix_measure (b :: buf) buf1 expected n
                                        ltac:(discriminate) Hp) as Hlt.
        destruct (Framing.drainAll (skipn (Z.to_nat n) buf1) None) as [ms' st'] eqn:Hr.
        injection Hd as <- <-.
        pose proof (IH (skipn (Z.to_nat n) buf1) None ltac:(lia)
                       ltac:(discriminate) _ _ Hr) as Hrest.
        cbn [Framing.pendingPrefix app] in Hrest.
        cbn [map concat]. rewrite <- app_assoc, <- Hrest.
        unfold Framing.frameOf. rewrite length_firstn.
        replace (Z.of_nat (Nat.min (Z.to_nat n) (length buf1))) with n by lia.
        rewrite <- app_assoc, firstn_skipn. reflexivity.
      * injection Hd as <- <-. reflexivity.
    + injection Hd as <- <-. cbn [Framing.buffer Framing.expectedLength].
      unfold Framing.readPrefix in Hp. destruct expected as [n|]; [discriminate|].
      destruct (4 <=? length (b :: buf))%nat; [discriminate|].
      injection Hp as <-. reflexivity.
Qed.

(** X3. The reader neither loses nor reorders a byte, whatever arrives:
    the frames of the messages handed over, then the length taken off and
    still awaited, then the accumulator, are the stream received so far. *)
Theorem stream_is_conserved (chunks : list bytes) :
  concat chunks
  = (concat (map Framing.frameOf (fst (Framing.onChunks Framing.idle chunks)))
     ++ Framing.pendingPrefix
          (Framing.expectedLength (snd (Framing.onChunks Framing.idle chunks)))
     ++ Framing.buffer (snd (Framing.onChunks Framing.idle chunks)))%list.
Proof.
  rewrite chunking_is_irrelevant. unfold Framing.onData.
  cbn [Framing.buffer Framing.expectedLength Framing.idle app].
  destruct (Framing.drainAll (concat chunks) None) as [ms st] eqn:Hd.
  cbn [fst snd].
  exact (@drainAll_conserved _ (concat chunks) None (Nat.le_refl _)
                             ltac:(discriminate) ms st Hd).
Qed.

(** X4. No partial frame is handed over: while the stream is a proper
    prefix of one frame, however it is cut, the reader hands over nothing. *)
Theorem partial_frame_not_dispatched (m : bytes) (k : nat) (chunks : list bytes) :
  Z.of_nat (length m) < 2 ^ 32 ->
  (k < length (Framing.frameOf m))%nat ->
  concat chunks = firstn k (Framing.frameOf m) ->
  fst (Framing.onChunks Framing.idle chunks) = [].
Proof.
  intros Hl Hk Hc. rewrite chunking_is_irrelevant. unfold Framing.onData.
  cbn [Framing.buffer Framing.expectedLength Framing.idle app].
  rewrite Hc, drainAll_eq.
  set (n := Z.of_nat (length m)) in *.
  assert (Hn : 0 <= n < 2 ^ 32) by (unfold n; lia).
  unfold Framing.frameOf in *. fold n in Hk |- *.
  rewrite length_app, be4_length in Hk.
  destruct (firstn k (Framing.be4 n ++ m)) as [|b buf] eqn:Ebuf; [reflexivity|].
  unfold Framing.readPrefix.
  destruct (Nat.leb_spec 4 (length (b :: buf))) as [H4|H4]; [|reflexivity].
  assert (Hk4 : (4 <= k)%nat).
  { rewrite <- Ebuf, length_firstn in H4. lia. }
  assert (Hsplit : (b :: buf) = (Framing.be4 n ++ firstn (k - 4) m)%list).
  { rewrite <- Ebuf, firstn_app, be4_length.
    rewrite firstn_all2 by (rewrite be4_length; lia). reflexivity. }
  rewrite Hsplit, (readUInt32BE_be4 _ Hn).
  rewrite skipn_app, be4_length.
  rewrite skipn_all2 by (rewrite be4_length; lia).
  cbn [Nat.sub app]. rewrite skipn_O.
  replace (n <=? Z.of_nat (length (firstn (k - 4) m))) with false; [reflexivity|].
  symmetry. apply Z.leb_gt. rewrite length_firstn. unfold n. lia.
Qed.

Lemma partial_frame_not_dispatched_witness :
  fst (Framing.onChunks Framing.idle [[x00; x00; x00]; [x02; x01]]) = [].
Proof.
  apply (@partial_frame_not_dispatched [x01; x02] 5%nat);
    [reflexivity | cbn; lia | reflexivity].
Defined.

(** ** Keys *)

Lemma byte_of_Z_inj (a b : Z) :
  0 <= a <= 255 -> 0 <= b <= 255 -> byte_of_Z a = byte_of_Z b -> a = b.
Proof.
  intros Ha Hb H. apply (f_equal Z_of_byte) in H.
  rewrite !Z_of_byte_of_Z, !Z.mod_small in H by lia. exact H.
Qed.

Lemma writeUInt8_inv (n : Z) (b : byte) :
  writeUInt8 n = Ok b -> 0 <= n <= 255 /\ b = byte_of_Z n.
Proof.
  unfold writeUInt8. destruct ((0 <=? n) && (n <=? 255)) eqn:E; [|discriminate].
  intros H. injection H as <-. apply andb_true_iff in E as [E1 E2].
  apply Z.leb_le in E1, E2. auto.
Qed.

(** What joinLenPrefix makes of a first item that is written. *)
Lemma joinLenPrefix_cons_inv (b : byte) (item : bytes) (rest : list (option bytes))
      (k : bytes) :
  joinLenPrefix (Some (b :: item) :: rest) = Ok k ->
  exists tail,
    joinLenPrefix rest = Ok tail
    /\ Z.of_nat (length (b :: item)) <= 255
    /\ k = (byte_of_Z (Z.of_nat (length (b :: item))) :: (b :: item) ++ tail)%list.
Proof.
  cbn [joinLenPrefix].
  destruct (Z.eqb_spec (Z.of_nat (length (b :: item))) 0) as [E|_];
    [cbn [length] in E; lia|].
  destruct (writeUInt8 (Z.of_nat (length (b :: item)))) as [len|] eqn:Hw;
    [|discriminate].
  apply writeUInt8_inv in Hw as [Hr ->]. cbn [rbind].
  destruct (joinLenPrefix rest) as [tail|]; [|discriminate].
  cbn [rbind]. intros H. injection H as <-. exists tail. repeat split. lia.
Qed.

(** X5. joinLenPrefix can be read back in one way only: two lists of
    non-empty items that give the same bytes are the same list. *)
Theorem joinLenPrefix_injective (items1 items2 : list (option bytes)) (k : bytes) :
  Forall (fun i => nonEmptyItem i = true) items1 ->
  Forall (fun i => nonEmptyItem i = true) items2 ->
  joinLenPrefix items1 = Ok k -> joinLenPrefix items2 = Ok k ->
  items1 = items2.
Proof.
  intros H1. revert items2 k.
  induction H1 as [|i1 items1 Hi1 _ IH]; intros items2 k H2 E1 E2.
  - destruct H2 as [|i2 items2 Hi2 _]; [reflexivity|].
    destruct i2 as [[|b item]|]; try discriminate.
    apply joinLenPrefix_cons_inv in E2 as (tail & _ & _ & ->).
    cbn in E1. discriminate.
  - destruct i1 as [[|b1 item1]|]; try discriminate.
    apply joinLenPrefix_cons_inv in E1 as (tail1 & Ht1 & Hl1 & ->).
    destruct H2 as [|i2 items2 Hi2 H2]; [cbn in E2; discriminate|].
    destruct i2 as [[|b2 item2]|]; try discriminate.
    apply joinLenPrefix_cons_inv in E2 as (tail2 & Ht2 & Hl2 & E).
    injection E as Elen Eb Erest. subst b2.
    cbn [length] in Hl1, Hl2.
    apply byte_of_Z_inj in Elen; [|lia|lia].
    assert (Hlen : length item1 = length item2) by lia.
    apply app_inj_1 in Erest as [-> ->]; [|exact Hlen].
    f_equal. eapply IH; eauto.
Qed.

Lemma joinLenPrefix_injective_witness :
  [Some [x01]; Some [x0a; x0b]] = [Some [x01]; Some [x0a; x0b]].
Proof.
  apply (@joinLenPrefix_injective _ _ [x01; x01; x02; x0a; x0b]);
    try reflexivity; repeat constructor.
Defined.

(** X6. joinLenPrefix fails exactly when an item is longer than the 255
    bytes one length byte can announce. *)
Theorem joinLenPrefix_fails_iff (items : list (option bytes)) :
  joinLenPrefix items = Throw RangeError_writeUInt8
  <-> Exists (fun i => match i with
                       | Some b => 255 < Z.of_nat (length b)
                       | None => False
                       end) items.
Proof.
  induction items as [|[item|] rest IH].
  - split; [discriminate | intros H; inversion H].
  - cbn [joinLenPrefix].
    destruct (Z.eqb_spec (Z.of_nat (length item)) 0) as [E|E].
    + rewrite IH. split; [intros H; now right|].
      intros H. inversion H as [? ? Hh|? ? Ht]; subst; [lia | exact Ht].
    + unfold writeUInt8.
      destruct (Z.leb_spec (Z.of_nat (length item)) 255) as [Hle|Hgt].
      * replace (0 <=? Z.of_nat (length item)) with true
          by (symmetry; apply Z.leb_le; lia).
        cbn [andb rbind]. split.
        -- intros H. right. apply IH.
           destruct (joinLenPrefix rest); [discriminate | exact H].
        -- intros H. inversion H as [? ? Hh|? ? Ht]; subst; [lia|].
           apply IH in Ht. rewrite Ht. reflexivity.
      * rewrite andb_false_r. cbn [rbind]. split; [intros _; now left | reflexivity].
  - cbn [joinLenPrefix]. rewrite IH. split; [intros H; now right|].
    intros H. inversion H as [? ? Hh|? ? Ht]; subst; [contradiction | exact Ht].
Qed.

Lemma keyForAccount_shape (v : JsValue) (k : bytes) :
  keyForAccount v = Ok k ->
  exists b, toBuffer v = Ok b /\ Z.of_nat (length b) <= 255
            /\ k = match b with
                   | [] => [x01; x01]
                   | _ => (x01 :: x01 :: byte_of_Z (Z.of_nat (length b)) :: b)%list
                   end.
Proof.
  unfold keyForAccount. destruct (toBuffer v) as [b|]; [|discriminate].
  cbn [rbind]. intros H. exists b. split; [reflexivity|].
  destruct b as [|x b].
  - cbn in H. injection H as <-. split; [cbn; lia | reflexivity].
  - unfold ACCOUNT_PREFIX in H.
    apply joinLenPrefix_cons_inv in H as (tail & Ht & _ & ->).
    apply joinLenPrefix_cons_inv in Ht as (tail' & Ht' & Hl & ->).
    cbn in Ht'. injection Ht' as <-. split; [exact Hl|].
    cbn [app length]. rewrite app_nil_r. reflexivity.
Qed.

(** X7. Two addresses get the same account key only when they are the same
    bytes, so the self-transfer test of a deliver, which compares the keys,
    is the equality of the two addresses as byte sequences. *)
Theorem self_transfer_iff_same_address (v1 v2 : JsValue) (k1 k2 b1 b2 : bytes) :
  keyForAccount v1 = Ok k1 -> keyForAccount v2 = Ok k2 ->
  toBuffer v1 = Ok b1 -> toBuffer v2 = Ok b2 ->
  (Buffer_compare_is_zero k1 k2 = true <-> b1 = b2).
Proof.
  intros H1 H2 Hb1 Hb2. unfold Buffer_compare_is_zero. rewrite bytes_eqb_eq.
  apply keyForAccount_shape in H1 as (c1 & Hc1 & Hl1 & ->).
  apply keyForAccount_shape in H2 as (c2 & Hc2 & Hl2 & ->).
  assert (c1 = b1) by congruence. assert (c2 = b2) by congruence. subst c1 c2.
  split; [|intros ->; reflexivity].
  destruct b1 as [|x1 b1], b2 as [|x2 b2]; intros E; try discriminate;
    [reflexivity|].
  injection E as _ Ex Eb. congruence.
Qed.

(** A 20-character string and the buffer of its bytes. *)
Lemma self_transfer_iff_same_address_witness :
  Buffer_compare_is_zero (accountKey (repeat x61 20)) (accountKey (repeat x61 20)) = true
  <-> bytes_of_string "aaaaaaaaaaaaaaaaaaaa" = repeat x61 20.
Proof.
  apply (@self_transfer_iff_same_address
           (VString "aaaaaaaaaaaaaaaaaaaa") (VUint8Array (repeat x61 20)));
    reflexivity.
Defined.

Lemma writeBigUInt64BE_inv (v : Z) (bs : bytes) :
  writeBigUInt64BE v = Ok bs ->
  0 <= v < 2 ^ 64 /\ length bs = 8%nat /\ be_value bs = v.
Proof.
  intros H.
  assert (Hv : 0 <= v < 2 ^ 64).
  { unfold writeBigUInt64BE in H.
    destruct ((0 <=? v) && (v <? 2 ^ 64)) eqn:E; [|discriminate].
    apply andb_true_iff in E as [E1 E2].
    apply Z.leb_le in E1. apply Z.ltb_lt in E2. lia. }
  split; [exact Hv|].
  destruct (writeBigUInt64BE_value Hv) as (bs' & Hw & Hl & Hb).
  assert (bs' = bs) by congruence. subst. auto.
Qed.

Lemma writeBigUInt64BE_fails (v : Z) :
  ~ (0 <= v < 2 ^ 64) -> writeBigUInt64BE v = Throw RangeError_writeBigUInt64BE.
Proof.
  intros H. unfold writeBigUInt64BE.
  destruct ((0 <=? v) && (v <? 2 ^ 64)) eqn:E; [|reflexivity].
  apply andb_true_iff in E as [E1 E2].
  apply Z.leb_le in E1. apply Z.ltb_lt in E2. lia.
Qed.

Lemma poolKey_of_bytes (bs : bytes) :
  length bs = 8%nat ->
  joinLenPrefix [Some POOL_PREFIX; Some bs] = Ok ([x01; x02; x08] ++ bs)%list.
Proof.
  intros Hl. unfold POOL_PREFIX. rewrite joinLenPrefix_two by (cbn [length]; lia).
  rewrite Hl. reflexivity.
Qed.

Lemma keyForFeePool_shape (rt : Runtime) (c : ChainId) (k : bytes) :
  keyForFeePool rt c = Ok k ->
  exists bs, formatUint64 rt c = Ok bs /\ length bs = 8%nat
             /\ k = ([x01; x02; x08] ++ bs)%list.
Proof.
  unfold keyForFeePool. destruct (formatUint64 rt c) as [bs|] eqn:Hf; [|discriminate].
  cbn [rbind]. intros H. exists bs. split; [reflexivity|].
  assert (Hl : length bs = 8%nat).
  { unfold formatUint64 in Hf.
    destruct c as [n|l|s].
    - destruct (BigInt_of_number n); [|discriminate].
      now apply writeBigUInt64BE_inv in Hf.
    - now apply writeBigUInt64BE_inv in Hf.
    - destruct (BigInt_of_string rt s); [|discriminate].
      now apply writeBigUInt64BE_inv in Hf. }
  split; [exact Hl|]. rewrite (@poolKey_of_bytes bs Hl) in H. now injection H.
Qed.

(** X8. The three kinds of key never meet: no account key is a pool key or
    the key of the fee parameters, and no pool key is the key of the fee
    parameters, whatever the address and the chain id. *)
Theorem key_spaces_disjoint (rt : Runtime) (v : JsValue) (c : ChainId)
        (kAccount kPool kParams : bytes) :
  keyForAccount v = Ok kAccount ->
  keyForFeePool rt c = Ok kPool ->
  keyForFeeParams = Ok kParams ->
  kAccount <> kPool /\ kAccount <> kParams /\ kPool <> kParams.
Proof.
  intros Ha Hp Hf.
  apply keyForAccount_shape in Ha as (b & _ & _ & ->).
  apply keyForFeePool_shape in Hp as (bs & _ & _ & ->).
  rewrite keyForFeeParams_value in Hf. injection Hf as <-.
  unfold feeParamsKey.
  destruct b; repeat split; intros E; discriminate E.
Qed.

Lemma key_spaces_disjoint_witness :
  accountKey Sample.addrA <> Sample.kPool
  /\ accountKey Sample.addrA <> feeParamsKey
  /\ Sample.kPool <> feeParamsKey.
Proof.
  apply (@key_spaces_disjoint Sample.rt (VUint8Array Sample.addrA) (CidNumber (num 1)));
    reflexivity.
Defined.

(** X9. keyForFeePool exists exactly for the chain ids of the u64 range: a
    number must be an integer from 0 to 2^64-1, and a Long must stand for
    such a number, so a signed Long below zero has no key. Otherwise the
    call throws. *)
Theorem pool_key_exists_iff (rt : Runtime) :
  (forall n : JsNumber,
      (exists k, keyForFeePool rt (CidNumber n) = Ok k)
      <-> exists q c, n = Finite q /\ Qeq q (inject_Z c) /\ 0 <= c < 2 ^ 64)
  /\ (forall l : Long,
         (exists k, keyForFeePool rt (CidLong l) = Ok k)
         <-> 0 <= Long.toZ l < 2 ^ 64).
Proof.
  split.
  - intros n. split.
    + intros (k & Hk). apply keyForFeePool_shape in Hk as (bs & Hf & _).
      unfold formatUint64, BigInt_of_number in Hf.
      destruct n as [q| | |]; try discriminate.
      cbn [Number_isInteger] in Hf.
      destruct (Qeq_bool q (inject_Z (Qfloor q))) eqn:E; [|discriminate].
      cbn [rbind] in Hf. apply writeBigUInt64BE_inv in Hf as (Hr & _).
      exists q, (Qfloor q). split; [reflexivity|]. split; [|exact Hr].
      now apply Qeq_bool_iff.
    + intros (q & c & -> & Hq & Hc).
      assert (Hfl : Qfloor q = c) by (rewrite Hq; apply Qfloor_Z).
      destruct (writeBigUInt64BE_value Hc) as (bs & Hw & Hl & _).
      exists ([x01; x02; x08] ++ bs)%list.
      unfold keyForFeePool, formatUint64, BigInt_of_number.
      cbn [Number_isInteger]. rewrite Hfl.
      replace (Qeq_bool q (inject_Z c)) with true
        by (symmetry; now apply Qeq_bool_iff).
      cbn [rbind]. rewrite Hw. cbn [rbind]. now apply poolKey_of_bytes.
  - intros l. split.
    + intros (k & Hk). apply keyForFeePool_shape in Hk as (bs & Hf & _).
      cbn [formatUint64] in Hf. now apply writeBigUInt64BE_inv in Hf.
    + intros Hr. destruct (writeBigUInt64BE_value Hr) as (bs & Hw & Hl & _).
      exists ([x01; x02; x08] ++ bs)%list.
      unfold keyForFeePool. cbn [formatUint64]. rewrite Hw. cbn [rbind].
      now apply poolKey_of_bytes.
Qed.

(** X10. Different chain ids have different pool keys. *)
Theorem pool_key_injective (rt : Runtime) (c1 c2 : Z) (k : bytes) :
  keyForFeePool rt (CidNumber (num c1)) = Ok k ->
  keyForFeePool rt (CidNumber (num c2)) = Ok k ->
  c1 = c2.
Proof.
  intros H1 H2.
  apply keyForFeePool_shape in H1 as (bs1 & Hf1 & _ & ->).
  apply keyForFeePool_shape in H2 as (bs2 & Hf2 & _ & E).
  injection E as <-.
  unfold formatUint64, BigInt_of_number, num in Hf1, Hf2.
  cbn [Number_isInteger] in Hf1, Hf2. rewrite Qfloor_Z in Hf1, Hf2.
  replace (Qeq_bool (inject_Z c1) (inject_Z c1)) with true in Hf1
    by (symmetry; apply Qeq_bool_iff; reflexivity).
  replace (Qeq_bool (inject_Z c2) (inject_Z c2)) with true in Hf2
    by (symmetry; apply Qeq_bool_iff; reflexivity).
  cbn [rbind] in Hf1, Hf2.
  apply writeBigUInt64BE_inv in Hf1 as (_ & _ & <-).
  apply writeBigUInt64BE_inv in Hf2 as (_ & _ & <-). reflexivity.
Qed.

(** The key of chain 1 belongs to chain 1 only. *)
Lemma pool_key_injective_witness :
  keyForFeePool Sample.rt (CidNumber (num 1)) = Ok Sample.kPool /\ 1 = 1.
Proof.
  split; [reflexivity|].
  apply (@pool_key_injective Sample.rt 1 1 Sample.kPool); reflexivity.
Defined.

(** ** Amounts given as numbers *)

Ltac q_const :=
  unfold Long.TWO_PWR_63, Long.TWO_PWR_64, Qle, Qlt, inject_Z;
  cbn [Qnum Qden Qplus Qopp]; lia.

Lemma Qle_bool_false_lt (x y : Q) : Qle_bool x y = false -> (y < x)%Q.
Proof.
  intros H. apply Qnot_le_lt. intros Hle. apply Qle_bool_iff in Hle. congruence.
Qed.

(** X11. normalizeAmount turns a number above zero into a signed Long by
    dropping the fraction and stopping at 2^63-1. A number between 0 and 1
    passes validateAmount and becomes the Long 0. *)
Theorem normalizeAmount_number (rt : Runtime) (q : Q) :
  (0 < q)%Q ->
  normalizeAmount rt (VNumber (Finite q))
  = Ok (Long.mk (Z.min (Qfloor q) (2 ^ 63 - 1)) false)
  /\ ((q < 1)%Q -> normalizeAmount rt (VNumber (Finite q)) = Ok Long.ZERO).
Proof.
  intros Hq.
  assert (Hval : validateAmount rt (VNumber (Finite q)) = true)
    by (apply validateAmount_number; eauto).
  assert (Hfl0 : 0 <= Qfloor q).
  { change 0 with (Qfloor 0). apply Qfloor_resp_le. now apply Qlt_le_weak. }
  assert (Hmain : normalizeAmount rt (VNumber (Finite q))
                  = Ok (Long.mk (Z.min (Qfloor q) (2 ^ 63 - 1)) false)).
  { unfold normalizeAmount. rewrite Hval. cbn [negb]. f_equal.
    unfold Long.fromNumber.
    destruct (Qle_bool q (inject_Z (- Long.TWO_PWR_63))) eqn:E1.
    { apply Qle_bool_iff in E1. exfalso.
      apply (Qlt_irrefl 0). eapply Qlt_le_trans; [exact Hq|].
      eapply Qle_trans; [exact E1|]. q_const. }
    destruct (Qle_bool (inject_Z Long.TWO_PWR_63) (q + 1)) eqn:E2.
    - apply Qle_bool_iff in E2.
      assert (Hge : 2 ^ 63 - 1 <= Qfloor q).
      { rewrite <- (Qfloor_Z (2 ^ 63 - 1)). apply Qfloor_resp_le.
        apply (Qplus_le_l _ _ 1). eapply Qle_trans; [|exact E2]. q_const. }
      unfold Long.MAX_VALUE, Long.TWO_PWR_63. f_equal. lia.
    - apply Qle_bool_false_lt in E2.
      assert (Hlt : Qfloor q < 2 ^ 63 - 1).
      { rewrite Zlt_Qlt. eapply Qle_lt_trans; [apply Qfloor_le|].
        apply (Qplus_lt_l _ _ 1). eapply Qlt_le_trans; [exact E2|]. q_const. }
      replace (Qle_bool 0 q) with true
        by (symmetry; apply Qle_bool_iff; now apply Qlt_le_weak).
      cbn [negb]. unfold Long.fromBits. f_equal.
      rewrite wrap_small by lia. lia. }
  split; [exact Hmain|].
  intros H1. rewrite Hmain. unfold Long.ZERO. do 2 f_equal.
  assert (Qfloor q < 1).
  { rewrite Zlt_Qlt. eapply Qle_lt_trans; [apply Qfloor_le | exact H1]. }
  lia.
Qed.

Lemma normalizeAmount_number_witness :
  normalizeAmount Sample.rt (VNumber (Finite (1 # 2)))
  = Ok (Long.mk (Z.min (Qfloor (1 # 2)) (2 ^ 63 - 1)) false)
  /\ ((1 # 2 < 1)%Q -> normalizeAmount Sample.rt (VNumber (Finite (1 # 2))) = Ok Long.ZERO).
Proof.
  apply (@normalizeAmount_number Sample.rt (1 # 2)). reflexivity.
Defined.

(** ** What checkTx and deliverTx send, whatever happens *)

(** Case analysis on the next call whose result decides how a handler
    goes on. *)
(** X12. checkTx never throws and never writes: whatever the request, the
    codec and the FSM do, it returns a reply, and what it has sent to the FSM
    is nothing or the one read of the fee parameters. *)
Theorem checkTx_reads_at_most_once
        (rt : Runtime) (pb : ProtobufTypes) (c : Contract) (rnd : Z)
        (request : TransactionRequest) :
  exists reply,
    fst (checkTx rt pb c rnd request) = Ok reply
    /\ (snd (checkTx rt pb c rnd request) = []
        \/ snd (checkTx rt pb c rnd request) = [CallStateRead (checkReadRequest rnd)]).
Proof.
  unfold checkTx. rewrite keyForFeeParams_value. unfold checkReadRequest.
  handler_cbn.
  repeat (split_call; handler_cbn);
    eexists; (split; [reflexivity | (now left) || (now right)]).
Qed.

(** X13. deliverTx never throws, and it writes at most once, after its one
    read: either the reply carries an error and at most the read was sent,
    or the read and then one write were sent and the reply carries what the
    write gave (the error of the write response, or MARSHAL when the write
    itself failed). A reply with error: null therefore always comes with
    exactly one write. *)
Theorem deliverTx_writes_at_most_once
        (rt : Runtime) (pb : ProtobufTypes) (c : Contract) (ids : QueryIds)
        (request : TransactionRequest) :
  exists reply,
    fst (deliverTx rt pb c ids request) = Ok reply
    /\ ((is_Some (deliver_error reply)
         /\ (snd (deliverTx rt pb c ids request) = []
             \/ exists rd, snd (deliverTx rt pb c ids request) = [CallStateRead rd]))
        \/ exists p rd w,
            plugin c = Some p
            /\ snd (deliverTx rt pb c ids request)
               = [CallStateRead rd; CallStateWrite w]
            /\ deliver_error reply
               = match stateWrite p w with
                 | Ok wr => write_error wr
                 | Throw m => Some (errMarshal m)
                 end).
Proof.
  unfold deliverTx, deliverMessageSend, readAccountsAndFeePool,
    unmarshalAccountsAndPool, calculateUpdatedBalances, prepareStateOperations,
    unmarshalOr.
  handler_cbn.
  repeat (split_call; handler_cbn);
    eexists; (split; [reflexivity|]);
    first
      [ left; split;
        [ eexists; reflexivity
        | (left; reflexivity) || (right; eexists; reflexivity) ]
      | right; do 3 eexists; split; [reflexivity|]; split; [reflexivity|];
        match goal with
        | H : stateWrite _ _ = _ |- _ => cbn [deliver_error]; rewrite H; reflexivity
        end ].
Qed.

(** ** The verdict of checkTx on a send *)

(** X14. Once the fee floor is met, checkTx on a decoded MessageSend decides
    in this order: a missing fromAddress or toAddress gives
    INVALID_MESSAGE_CAST; a fromAddress, then a toAddress, that is not 20
    bytes gives INVALID_ADDRESS; an amount that validateAmount refuses gives
    INVALID_AMOUNT; otherwise the reply names toAddress as recipient and
    fromAddress as the one authorized signer, with error: null. Only the
    read of the fee parameters is sent. *)
Theorem checkTx_verdict
        (rt : Runtime) (pb : ProtobufTypes) (cfg : Config) (p : SocketClientPlugin)
        (rnd : Z) (request : TransactionRequest) (m : MessageSend) (s f : Z) :
  let c := mkContract (Some cfg) (Some p) in
  let answers (r : CheckTxResponse) :=
    checkTx rt pb c rnd request = (Ok r, [CallStateRead (checkReadRequest rnd)]) in
  let undefined (v : JsValue) := match v with VUndefined => true | _ => false end in
  feeParamsRead pb p rnd s ->
  fee (tx request) = VLong (Long.ofU64 f) ->
  0 < s -> s <= f -> f < 2 ^ 64 ->
  fromAny pb (tx_msg (tx request)) = Ok (KMessageSend m) ->
  (undefined (fromAddress m) || undefined (toAddress m) = true ->
   answers (mkCheckTxResponse None None (Some errInvalidMessageCast)))
  /\ (undefined (fromAddress m) || undefined (toAddress m) = false ->
      (validateAddress (fromAddress m) = false ->
       answers (mkCheckTxResponse None None (Some errInvalidAddress)))
      /\ (validateAddress (fromAddress m) = true ->
          validateAddress (toAddress m) = false ->
          answers (mkCheckTxResponse None None (Some errInvalidAddress)))
      /\ (validateAddress (fromAddress m) = true ->
          validateAddress (toAddress m) = true ->
          validateAmount rt (VLong (amount m)) = false ->
          answers (mkCheckTxResponse None None (Some errInvalidAmount)))
      /\ (validateAddress (fromAddress m) = true ->
          validateAddress (toAddress m) = true ->
          validateAmount rt (VLong (amount m)) = true ->
          answers (mkCheckTxResponse (Some (toAddress m)) (Some [fromAddress m]) None))).
Proof.
  intros c answers undefined Hread Hfee Hs Hle Hf Hany.
  assert (Hrun : forall r,
             (if isMessageSend (KMessageSend m) then checkMessageSend rt m
              else checkFailed errInvalidMessageCast) = r -> answers r).
  { intros r <-. unfold answers, c.
    rewrite (@checkTx_fee_floor rt pb cfg p rnd request s f) by (auto; lia).
    replace (f <? s) with false by (symmetry; apply Z.ltb_ge; lia).
    rewrite Hany. reflexivity. }
  assert (Hsend : isMessageSend (KMessageSend m)
                  = negb (undefined (fromAddress m) || undefined (toAddress m))).
  { cbn [isMessageSend]. fold (undefined (fromAddress m)).
    fold (undefined (toAddress m)).
    destruct (undefined (fromAddress m)), (undefined (toAddress m)); reflexivity. }
  split.
  - intros Hu. apply Hrun. rewrite Hsend, Hu. reflexivity.
  - intros Hu. rewrite Hu in Hsend. cbn [negb] in Hsend.
    repeat split; intros; apply Hrun; rewrite Hsend; unfold checkMessageSend;
      repeat match goal with H : _ = _ |- _ => rewrite H end; reflexivity.
Qed.

(** Scenario 6 of the specification, a fromAddress of 19 bytes, and the
    valid send of scenario 1; sendFee is 1 and the fee is 2. *)
Lemma checkTx_verdict_witness :
  let c := Sample.contract (Sample.store None None None (Some 1)) in
  checkTx Sample.rt Sample.protobuf c 7
          (Sample.sendRequest Sample.addrShort Sample.addrB 100 2)
  = (Ok (mkCheckTxResponse None None (Some errInvalidAddress)),
     [CallStateRead (checkReadRequest 7)])
  /\ checkTx Sample.rt Sample.protobuf c 7
             (Sample.sendRequest Sample.addrA Sample.addrB 100 2)
     = (Ok (mkCheckTxResponse (Some (VUint8Array Sample.addrB))
                              (Some [VUint8Array Sample.addrA]) None),
        [CallStateRead (checkReadRequest 7)]).
Proof.
  intros c.
  assert (Hread : feeParamsRead Sample.protobuf
                                (Sample.peer (Sample.store None None None (Some 1))) 7 1)
    by (apply Sample_feeParamsRead; try reflexivity; lia).
  split.
  - apply (proj1 (proj2 (@checkTx_verdict
             Sample.rt Sample.protobuf (mkConfig (num 1) "/tmp/plugin/")
             (Sample.peer (Sample.store None None None (Some 1))) 7
             (Sample.sendRequest Sample.addrShort Sample.addrB 100 2)
             (Sample.send Sample.addrShort Sample.addrB 100) 1 2
             Hread eq_refl ltac:(lia) ltac:(lia) ltac:(lia) eq_refl) eq_refl)).
    reflexivity.
  - apply (proj2 (proj2 (proj2 (proj2 (@checkTx_verdict
             Sample.rt Sample.protobuf (mkConfig (num 1) "/tmp/plugin/")
             (Sample.peer (Sample.store None None None (Some 1))) 7
             (Sample.sendRequest Sample.addrA Sample.addrB 100 2)
             (Sample.send Sample.addrA Sample.addrB 100) 1 2
             Hread eq_refl ltac:(lia) ltac:(lia) ltac:(lia) eq_refl) eq_refl))));
      reflexivity.
Defined.

(** ** Failures of the state read *)

Lemma checkTx_read_throws (rt : Runtime) (pb : ProtobufTypes) (cfg : Config)
      (p : SocketClientPlugin) (rnd : Z) (request : TransactionRequest) (e : string) :
  stateRead p (checkReadRequest rnd) = Throw e ->
  checkTx rt pb (mkContract (Some cfg) (Some p)) rnd request
  = (Ok (checkFailed (errUnmarshal e)), [CallStateRead (checkReadRequest rnd)]).
Proof.
  intros H. unfold checkReadRequest in *. unfold checkTx.
  rewrite keyForFeeParams_value.
  cbn [plugin config mbind mlift call_stateRead]. rewrite H. reflexivity.
Qed.

Lemma deliver_read_throws (rt : Runtime) (pb : ProtobufTypes) (cfg : Config)
      (p : SocketClientPlugin) (ids : QueryIds) (request : TransactionRequest)
      (m : MessageSend) (transactionFee : Long) (fromKey toKey feePoolKey : bytes)
      (e : string) :
  fromAny pb (tx_msg (tx request)) = Ok (KMessageSend m) ->
  isMessageSend (KMessageSend m) = true ->
  normalizeAmount rt (fee (tx request)) = Ok transactionFee ->
  keyForAccount (fromAddress m) = Ok fromKey ->
  keyForAccount (toAddress m) = Ok toKey ->
  keyForFeePool rt (CidNumber (chainId cfg)) = Ok feePoolKey ->
  stateRead p (deliverReadRequest ids fromKey toKey feePoolKey) = Throw e ->
  deliverTx rt pb (mkContract (Some cfg) (Some p)) ids request
  = (Ok (mkDeliverTxResponse (Some (errMarshal e))),
     [CallStateRead (deliverReadRequest ids fromKey toKey feePoolKey)]).
Proof.
  intros Hany Hsend Hfee Hkf Hkt Hkp Hread.
  apply (deliverTx_send _ _ _ _ _ Hany Hsend).
  unfold deliverMessageSend, readAccountsAndFeePool. rewrite Hfee.
  cbn [plugin config mbind mlift]. rewrite Hkf, Hkt, Hkp.
  cbn [mbind mlift call_stateRead].
  fold (deliverReadRequest ids fromKey toKey feePoolKey). rewrite Hread.
  reflexivity.
Qed.

Ltac read_fee_params H :=
  unfold checkTx; rewrite keyForFeeParams_value;
  cbn [plugin config mbind mlift call_stateRead]; rewrite H;
  cbn [read_error results].

(** X15. How checkTx answers when the read of the fee parameters fails, for
    an initialized contract and any request. A rejected read (a timeout, an
    unexpected reply) is reported as UNMARSHAL with the rejection's message;
    an error inside the read response is returned as it is; a response whose
    first result has no first entry gives code 1, module contract, Fee
    parameters not found; an entry of no bytes gives UNMARSHAL, Failed to
    decode fee parameters; an entry the codec refuses gives UNMARSHAL with
    the codec's message behind Unmarshal failed. In each case the read is
    all that was sent. *)
Theorem checkTx_read_failures
        (rt : Runtime) (pb : ProtobufTypes) (cfg : Config) (p : SocketClientPlugin)
        (rnd : Z) (request : TransactionRequest) :
  let answers (e : ProtoError) :=
    checkTx rt pb (mkContract (Some cfg) (Some p)) rnd request
    = (Ok (mkCheckTxResponse None None (Some e)),
       [CallStateRead (checkReadRequest rnd)]) in
  let read := stateRead p (checkReadRequest rnd) in
  (forall e, read = Throw e -> answers (errUnmarshal e))
  /\ (forall rs e, read = Ok (mkReadResp (Some e) rs) -> answers e)
  /\ (forall rs, read = Ok (mkReadResp None rs) -> firstValue rs = None ->
      answers (mkProtoError 1 "contract" "Fee parameters not found"))
  /\ (forall rs, read = Ok (mkReadResp None rs) -> firstValue rs = Some [] ->
      answers (errUnmarshal "Failed to decode fee parameters"))
  /\ (forall rs b e, read = Ok (mkReadResp None rs) -> firstValue rs = Some b ->
      b <> [] -> decode (types_FeeParams pb) b = Throw e ->
      answers (errUnmarshal ("Unmarshal failed: " ++ e))).
Proof.
  intros answers read. subst answers read. cbv beta.
  split; [intros e H; now apply checkTx_read_throws|].
  unfold checkReadRequest.
  assert (Hu : forall b e, b <> [] -> decode (types_FeeParams pb) b = Throw e ->
               unmarshal (types_FeeParams pb) (Some b)
               = Throw ("Unmarshal failed: " ++ e)).
  { intros b e Hne Hd. unfold unmarshal. destruct b as [|b0 b']; [congruence|].
    cbn [length]. replace (Z.of_nat (S (length b')) =? 0) with false
      by (symmetry; apply Z.eqb_neq; lia).
    rewrite Hd. reflexivity. }
  split; [|split; [|split]].
  - intros rs e H. read_fee_params H. reflexivity.
  - intros rs H Hv. read_fee_params H. rewrite Hv. reflexivity.
  - intros rs H Hv. read_fee_params H. rewrite Hv. reflexivity.
  - intros rs b e H Hv Hne Hd. read_fee_params H. rewrite Hv.
    cbn [mbind mlift]. rewrite (Hu b e Hne Hd). reflexivity.
Qed.

(** The FSM never answers the read; the FSM answers it with an error
    payload. *)
Lemma checkTx_read_failures_witness :
  let request := Sample.sendRequest Sample.addrA Sample.addrB 100 2 in
  let cfg := mkConfig (num 1) "/tmp/plugin/" in
  let silent := Socket.plugin (fun _ => Socket.TimedOut) (fun _ => Socket.TimedOut) in
  let refusing :=
    Socket.plugin
      (fun _ => Socket.Answered (Socket.errorMessage (Long.ofU64 5) errPluginTimeout))
      (fun _ => Socket.TimedOut) in
  checkTx Sample.rt Sample.protobuf (mkContract (Some cfg) (Some silent)) 7 request
  = (Ok (mkCheckTxResponse None None (Some (errUnmarshal "Plugin timeout occurred"))),
     [CallStateRead (checkReadRequest 7)])
  /\ checkTx Sample.rt Sample.protobuf (mkContract (Some cfg) (Some refusing)) 7 request
     = (Ok (mkCheckTxResponse
              None None (Some (errUnmarshal "Unexpected FSM response to state read"))),
        [CallStateRead (checkReadRequest 7)]).
Proof.
  intros request cfg silent refusing. split.
  - apply (proj1 (@checkTx_read_failures Sample.rt Sample.protobuf cfg silent 7 request)).
    reflexivity.
  - apply (proj1 (@checkTx_read_failures Sample.rt Sample.protobuf cfg refusing 7 request)).
    reflexivity.
Defined.

(** X16. How deliverTx answers a send when its batched read fails, the fee
    and the three keys being in order. A rejected read (a timeout, a reply
    without a stateRead payload) is reported as MARSHAL with the rejection's
    message, and an error inside the read response as MARSHAL with the text
    State read error: in front of the error's message; the code and the
    module of that error are dropped. The read is all that was sent: nothing
    is written. *)
Theorem deliverTx_read_failures
        (rt : Runtime) (pb : ProtobufTypes) (cfg : Config) (p : SocketClientPlugin)
        (ids : QueryIds) (request : TransactionRequest) (m : MessageSend)
        (transactionFee : Long) (fromKey toKey feePoolKey : bytes) :
  let rd := deliverReadRequest ids fromKey toKey feePoolKey in
  let answers (text : string) :=
    deliverTx rt pb (mkContract (Some cfg) (Some p)) ids request
    = (Ok (mkDeliverTxResponse (Some (errMarshal text))), [CallStateRead rd]) in
  fromAny pb (tx_msg (tx request)) = Ok (KMessageSend m) ->
  isMessageSend (KMessageSend m) = true ->
  normalizeAmount rt (fee (tx request)) = Ok transactionFee ->
  keyForAccount (fromAddress m) = Ok fromKey ->
  keyForAccount (toAddress m) = Ok toKey ->
  keyForFeePool rt (CidNumber (chainId cfg)) = Ok feePoolKey ->
  (forall e, stateRead p rd = Throw e -> answers e)
  /\ (forall rs e, stateRead p rd = Ok (mkReadResp (Some e) rs) ->
      answers ("State read error: " ++ msg e)).
Proof.
  intros rd answers Hany Hsend Hfee Hkf Hkt Hkp. subst rd answers. cbv beta.
  split.
  - intros e H. now apply (@deliver_read_throws rt pb cfg p ids request m transactionFee).
  - intros rs e Hread.
    apply (deliverTx_send _ _ _ _ _ Hany Hsend).
    unfold deliverMessageSend, readAccountsAndFeePool. rewrite Hfee.
    cbn [plugin config mbind mlift]. rewrite Hkf, Hkt, Hkp.
    cbn [mbind mlift call_stateRead].
    unfold deliverReadRequest in *. rewrite Hread. reflexivity.
Qed.

(** The FSM never answers the read of a valid send from A to B. *)
Lemma deliverTx_read_failures_witness :
  let request := Sample.sendRequest Sample.addrA Sample.addrB 100 2 in
  let cfg := mkConfig (num 1) "/tmp/plugin/" in
  let silent := Socket.plugin (fun _ => Socket.TimedOut) (fun _ => Socket.TimedOut) in
  deliverTx Sample.rt Sample.protobuf (mkContract (Some cfg) (Some silent))
            Sample.ids request
  = (Ok (mkDeliverTxResponse (Some (errMarshal "Plugin timeout occurred"))),
     [CallStateRead (deliverReadRequest Sample.ids Sample.kA Sample.kB Sample.kPool)]).
Proof.
  intros request cfg silent.
  apply (proj1 (@deliverTx_read_failures
                  Sample.rt Sample.protobuf cfg silent Sample.ids request
                  (Sample.send Sample.addrA Sample.addrB 100) (Long.ofU64 2)
                  Sample.kA Sample.kB Sample.kPool
                  eq_refl eq_refl eq_refl eq_refl eq_refl eq_refl)).
  reflexivity.
Defined.

(** ** Results are matched to queries by id *)

Lemma parseResults_snoc (ids : QueryIds) (rs : list StateQueryResult)
      (r : StateQueryResult) :
  parseResults ids (rs ++ [r])
  = (let '(fromBytes, toBytes, feePoolBytes) := parseResults ids rs in
     if Long.eq (res_queryId r) (fromQueryId ids) then
       (entryValue r, toBytes, feePoolBytes)
     else if Long.eq (res_queryId r) (toQueryId ids) then
       (fromBytes, entryValue r, feePoolBytes)
     else if Long.eq (res_queryId r) (feeQueryId ids) then
       (fromBytes, toBytes, entryValue r)
     else (fromBytes, toBytes, feePoolBytes)).
Proof.
  unfold parseResults. rewrite fold_left_app. cbn [fold_left].
  destruct (fold_left _ rs (None, None, None)) as [[a b] c]. reflexivity.
Qed.

Lemma valueOfLast_snoc (sel : StateQueryResult -> bool)
      (rs : list StateQueryResult) (r : StateQueryResult) :
  valueOfLast sel (rs ++ [r])
  = if sel r then entryValue r else valueOfLast sel rs.
Proof.
  unfold valueOfLast. rewrite rev_app_distr. cbn [rev app find].
  destruct (sel r); reflexivity.
Qed.

Lemma parseResults_lookup (ids : QueryIds) (rs : list StateQueryResult) :
  parseResults ids rs
  = (valueOfLast (answersQuery (fromQueryId ids)) rs,
     valueOfLast (fun r => negb (answersQuery (fromQueryId ids) r)
                           && answersQuery (toQueryId ids) r) rs,
     valueOfLast (fun r => negb (answersQuery (fromQueryId ids) r)
                           && negb (answersQuery (toQueryId ids) r)
                           && answersQuery (feeQueryId ids) r) rs).
Proof.
  induction rs as [|r rs IH] using rev_ind; [reflexivity|].
  rewrite parseResults_snoc, IH, !valueOfLast_snoc. unfold answersQuery.
  destruct (Long.eq (res_queryId r) (fromQueryId ids));
    destruct (Long.eq (res_queryId r) (toQueryId ids));
    destruct (Long.eq (res_queryId r) (feeQueryId ids)); reflexivity.
Qed.

Lemma find_unique_perm {A} (sel : A -> bool) (l l' : list A) :
  Permutation l l' ->
  (forall x y, In x l -> In y l -> sel x = true -> sel y = true -> x = y) ->
  find sel l = find sel l'.
Proof.
  induction 1 as [|a l l' Hp IH|a b l|l l' l'' Hp1 IH1 Hp2 IH2]; intros Hu.
  - reflexivity.
  - cbn [find]. destruct (sel a); [reflexivity|].
    apply IH. intros x y Hx Hy. apply Hu; now right.
  - cbn [find]. destruct (sel b) eqn:Hb, (sel a) eqn:Ha; try reflexivity.
    f_equal. apply Hu; cbn [In]; auto.
  - rewrite IH1 by exact Hu. apply IH2.
    intros x y Hx Hy.
    apply Hu; [exact (Permutation_in x (Permutation_sym Hp1) Hx)
              | exact (Permutation_in y (Permutation_sym Hp1) Hy)].
Qed.

Lemma NoDup_map_unique {A B} (f : A -> B) (l : list A) (x y : A) :
  List.NoDup (map f l) -> In x l -> In y l -> f x = f y -> x = y.
Proof.
  induction l as [|a l IH]; cbn [map In]; [tauto|].
  intros Hn Hx Hy Hf. apply NoDup_cons_iff in Hn as [Hna Hn].
  destruct Hx as [->|Hx], Hy as [->|Hy]; auto.
  - exfalso. apply Hna. rewrite Hf. now apply in_map.
  - exfalso. apply Hna. rewrite <- Hf. now apply in_map.
Qed.

Lemma Long_eq_bits (a b : Long) : Long.eq a b = true -> Long.bits a = Long.bits b.
Proof.
  unfold Long.eq.
  destruct (negb (Bool.eqb (Long.unsigned a) (Long.unsigned b))
            && Long.topBit a && Long.topBit b); [discriminate|].
  apply Z.eqb_eq.
Qed.

Lemma valueOfLast_perm (sel : StateQueryResult -> bool) (i : Long)
      (rs rs' : list StateQueryResult) :
  (forall r, sel r = true -> answersQuery i r = true) ->
  Permutation rs rs' ->
  List.NoDup (map (fun r => Long.bits (res_queryId r)) rs) ->
  valueOfLast sel rs = valueOfLast sel rs'.
Proof.
  intros Hsel Hp Hn. unfold valueOfLast.
  rewrite (@find_unique_perm _ sel (rev rs) (rev rs')); [reflexivity | |].
  - apply (Permutation_trans (Permutation_sym (Permutation_rev rs))).
    apply (Permutation_trans Hp). apply Permutation_rev.
  - intros x y Hx Hy Sx Sy. apply in_rev in Hx, Hy.
    apply (@NoDup_map_unique _ _ (fun r => Long.bits (res_queryId r)) rs x y Hn Hx Hy).
    pose proof (Hsel _ Sx) as Ex. pose proof (Hsel _ Sy) as Ey.
    unfold answersQuery in Ex, Ey.
    apply Long_eq_bits in Ex, Ey. congruence.
Qed.

Lemma parseResults_perm (ids : QueryIds) (rs rs' : list StateQueryResult) :
  List.NoDup (map (fun r => Long.bits (res_queryId r)) rs) ->
  Permutation rs rs' ->
  parseResults ids rs = parseResults ids rs'.
Proof.
  intros Hn Hp.
  assert (Hstep : forall sel i,
             (forall r, sel r = true -> answersQuery i r = true) ->
             valueOfLast sel rs = valueOfLast sel rs')
    by (intros sel i Hs; now apply (@valueOfLast_perm sel i)).
  rewrite (parseResults_lookup ids rs), (parseResults_lookup ids rs').
  f_equal; [f_equal|].
  - now apply (Hstep _ (fromQueryId ids)).
  - apply (Hstep _ (toQueryId ids)). intros r H.
    now apply andb_true_iff in H.
  - apply (Hstep _ (feeQueryId ids)). intros r H.
    now apply andb_true_iff in H.
Qed.

(** X17. The loop over the results of the batched read looks every value up
    by query id, not by position. The sender's bytes are the value of the
    last result that carries the sender's query id, the recipient's those of
    the last result that carries the recipient's id and not the sender's,
    the pool's those of the last result that carries the pool's id and
    neither of the others; a result under any other id is ignored, and an id
    with no result gives null. So when no two results carry the same id, the
    order in which the FSM returns them does not matter. *)
Theorem parseResults_by_query_id (ids : QueryIds) (rs : list StateQueryResult) :
  parseResults ids rs
  = (valueOfLast (answersQuery (fromQueryId ids)) rs,
     valueOfLast (fun r => negb (answersQuery (fromQueryId ids) r)
                           && answersQuery (toQueryId ids) r) rs,
     valueOfLast (fun r => negb (answersQuery (fromQueryId ids) r)
                           && negb (answersQuery (toQueryId ids) r)
                           && answersQuery (feeQueryId ids) r) rs)
  /\ (forall rs',
         List.NoDup (map (fun r => Long.bits (res_queryId r)) rs) ->
         Permutation rs rs' ->
         parseResults ids rs' = parseResults ids rs).
Proof.
  split; [apply parseResults_lookup|].
  intros rs' Hn Hp. symmetry. now apply parseResults_perm.
Qed.

(** The three results of a read, returned in the order sender, pool,
    recipient instead of pool, sender, recipient. *)
Lemma parseResults_by_query_id_witness :
  let r (i : Long) (v : bytes) := mkResult i [mkEntry None (Some v)] in
  let ids := Sample.ids in
  parseResults ids [r (fromQueryId ids) [x01]; r (feeQueryId ids) [x03];
                    r (toQueryId ids) [x02]]
  = parseResults ids [r (feeQueryId ids) [x03]; r (fromQueryId ids) [x01];
                      r (toQueryId ids) [x02]].
Proof.
  intros r ids.
  apply (proj2 (parseResults_by_query_id
                  ids [r (feeQueryId ids) [x03]; r (fromQueryId ids) [x01];
                       r (toQueryId ids) [x02]])).
  - repeat constructor; cbn; intuition discriminate.
  - apply perm_swap.
Defined.

(** ** Requests of the plugin and the responses of the FSM *)

Lemma requestKey_of_messageId (fsmId : Long) :
  Long.wf fsmId -> Long.isNegative fsmId = false ->
  SocketClient.requestKey (Long.fromBits (SocketClient.requestKey fsmId) true)
  = SocketClient.requestKey fsmId.
Proof.
  intros Hwf Hneg. unfold SocketClient.requestKey, Long.toZ. rewrite Hneg.
  unfold Long.fromBits, Long.isNegative. cbn [Long.unsigned Long.bits negb andb].
  apply wrap_small. exact Hwf.
Qed.

Lemma inbound_pending (s : SocketClient.State) (message : SocketClient.FSMToPlugin)
      (waiter : SocketClient.Waiter) :
  SocketClient.pending s !! SocketClient.requestKey (SocketClient.id message)
  = Some waiter ->
  SocketClient.handleInboundMessage s message
  = SocketClient.mkState
      (delete (SocketClient.requestKey (SocketClient.id message))
              (SocketClient.pending s))
      (SocketClient.requestContract s
         ∖ {[SocketClient.requestKey (SocketClient.id message)]})
      (SocketClient.resolved s ++ [(waiter, message)])%list
      (SocketClient.rejected s) (SocketClient.started s) (SocketClient.written s).
Proof.
  intros Hp.
  unfold SocketClient.handleInboundMessage, SocketClient.analyzeMessageRouting.
  cbn [SocketClient.isPending]. rewrite Hp.
  unfold SocketClient.handleFSMResponse. rewrite Hp. reflexivity.
Qed.

Lemma inbound_not_pending (s : SocketClient.State)
      (message : SocketClient.FSMToPlugin) :
  SocketClient.pending s !! SocketClient.requestKey (SocketClient.id message) = None ->
  SocketClient.handleInboundMessage s message
  = SocketClient.handleFSMRequest s message.
Proof.
  intros Hp.
  unfold SocketClient.handleInboundMessage, SocketClient.analyzeMessageRouting.
  cbn [SocketClient.isPending]. rewrite Hp. reflexivity.
Qed.

Lemma request_keeps_pending (s : SocketClient.State)
      (message : SocketClient.FSMToPlugin) :
  SocketClient.pending (SocketClient.handleFSMRequest s message)
  = SocketClient.pending s
  /\ SocketClient.resolved (SocketClient.handleFSMRequest s message)
     = SocketClient.resolved s.
Proof.
  unfold SocketClient.handleFSMRequest.
  destruct (SocketClient.processRequestMessage message); split; reflexivity.
Qed.

(** X18. A request of the plugin and its response. The plugin files the
    waiter under String(fsmId) and writes the id Long.fromString of that
    text, unsigned. When fsmId is not negative, a message of the FSM that
    echoes the written id resolves exactly that waiter with the whole
    message, removes the entry, and writes nothing. When fsmId is negative
    the echoed id prints differently from the key: unless another request is
    pending under it, the message is handled as a request of the FSM and the
    waiter stays in the table. *)
Theorem echoed_id_resolves_waiter
        (s : SocketClient.State) (fsmId : Long) (payload : SocketClient.Payload)
        (waiter : SocketClient.Waiter) (message : SocketClient.FSMToPlugin) :
  let k := SocketClient.requestKey fsmId in
  let frame := SocketClient.mkPluginToFSM (Long.fromBits k true) payload in
  let sent := SocketClient.sendToPluginAsync s fsmId payload waiter in
  Long.wf fsmId ->
  SocketClient.id message = SocketClient.out_id frame ->
  (Long.isNegative fsmId = false ->
   SocketClient.handleInboundMessage sent message
   = SocketClient.mkState
       (delete k (SocketClient.pending s))
       (SocketClient.requestContract s ∖ {[k]})
       (SocketClient.resolved s ++ [(waiter, message)])%list
       (SocketClient.rejected s) (SocketClient.started s)
       (SocketClient.written s ++ [frame])%list)
  /\ (Long.isNegative fsmId = true ->
      SocketClient.pending s !! SocketClient.requestKey (SocketClient.id message)
      = None ->
      SocketClient.handleInboundMessage sent message
      = SocketClient.handleFSMRequest sent message
      /\ SocketClient.pending (SocketClient.handleInboundMessage sent message) !! k
         = Some waiter
      /\ SocketClient.resolved (SocketClient.handleInboundMessage sent message)
         = SocketClient.resolved s).
Proof.
  intros k frame sent Hwf Hid. cbn [SocketClient.out_id frame] in Hid. split.
  - intros Hneg.
    assert (Hk : SocketClient.requestKey (SocketClient.id message) = k)
      by (rewrite Hid; now apply requestKey_of_messageId).
    assert (Hp : SocketClient.pending sent
                   !! SocketClient.requestKey (SocketClient.id message)
                 = Some waiter).
    { rewrite Hk. unfold sent, SocketClient.sendToPluginAsync.
      cbn [SocketClient.pending]. apply lookup_insert_eq. }
    rewrite (inbound_pending _ _ Hp), Hk.
    unfold sent, SocketClient.sendToPluginAsync.
    cbn [SocketClient.pending SocketClient.requestContract SocketClient.resolved
         SocketClient.rejected SocketClient.started SocketClient.written].
    fold k. fold frame. f_equal.
    + apply delete_insert_eq.
    + apply set_eq. intros x. rewrite !elem_of_difference, elem_of_union. tauto.
  - intros Hneg Hfree.
    assert (Hne : SocketClient.requestKey (SocketClient.id message) <> k).
    { rewrite Hid. unfold k, SocketClient.requestKey, Long.toZ at 1.
      unfold Long.fromBits, Long.isNegative at 1.
      cbn [Long.unsigned Long.bits negb andb].
      pose proof (wrap_range (Long.toZ fsmId)) as Hr.
      unfold Long.toZ in *. rewrite Hneg in *.
      unfold Long.wf, Long.TWO_PWR_64 in *. lia. }
    assert (Hp : SocketClient.pending sent
                   !! SocketClient.requestKey (SocketClient.id message) = None).
    { unfold sent, SocketClient.sendToPluginAsync. cbn [SocketClient.pending].
      rewrite lookup_insert_ne by (intros E; apply Hne; symmetry; exact E).
      exact Hfree. }
    rewrite (inbound_not_pending _ _ Hp).
    destruct (request_keeps_pending sent message) as [-> ->].
    split; [reflexivity|]. split; [|reflexivity].
    unfold sent, SocketClient.sendToPluginAsync. cbn [SocketClient.pending].
    apply lookup_insert_eq.
Qed.

(** A contract created for the FSM's request 5 reads the state and the FSM
    answers under id 5. *)
Lemma echoed_id_resolves_waiter_witness :
  let request := SocketClient.PStateRead (mkReadReq []) in
  let answer := readAnswer (Long.ofU64 5) (mkReadResp None []) in
  SocketClient.handleInboundMessage
    (SocketClient.sendToPluginAsync freshClient (Long.ofU64 5) request 0%nat) answer
  = SocketClient.mkState
      (delete 5 ∅) (∅ ∖ {[5]}) [(0%nat, answer)] [] []
      [SocketClient.mkPluginToFSM (Long.ofU64 5) request].
Proof.
  intros request answer.
  apply (proj1 (@echoed_id_resolves_waiter
                  freshClient (Long.ofU64 5) request 0%nat answer
                  ltac:(unfold Long.wf, Long.TWO_PWR_64; cbn; lia) eq_refl)).
  reflexivity.
Defined.

Lemma response_to_nobody (s : SocketClient.State)
      (message : SocketClient.FSMToPlugin) :
  SocketClient.pending s !! SocketClient.requestKey (SocketClient.id message) = None ->
  SocketClient.isResponse message ->
  SocketClient.handleInboundMessage s message = s.
Proof.
  intros Hp Hr. rewrite (inbound_not_pending _ _ Hp).
  unfold SocketClient.handleFSMRequest. rewrite (response_not_processed Hr).
  reflexivity.
Qed.

(** X19. The timer of a request is never cancelled, and it deletes whatever
    is filed under the request's id when it fires. A contract sends a first
    request, which the FSM answers, and then a second one under the same id
    (deliverTx reads, then writes). Answered in time, the second response
    resolves the second waiter. But if the timer of the first, answered,
    request fires while the second is pending, the second request's entry is
    gone: its response resolves nobody, changes nothing and is dropped
    without a reply. *)
Theorem stale_timer_drops_next_response
        (s : SocketClient.State) (fsmId : Long)
        (first second : SocketClient.Payload) (w1 w2 : SocketClient.Waiter)
        (m1 m2 : SocketClient.FSMToPlugin) :
  let k := SocketClient.requestKey fsmId in
  let s1 := SocketClient.sendToPluginAsync s fsmId first w1 in
  let s2 := SocketClient.handleInboundMessage s1 m1 in
  let s3 := SocketClient.sendToPluginAsync s2 fsmId second w2 in
  let late := SocketClient.timeoutFires s3 k w1 in
  SocketClient.requestKey (SocketClient.id m1) = k ->
  SocketClient.requestKey (SocketClient.id m2) = k ->
  SocketClient.isResponse m2 ->
  SocketClient.resolved (SocketClient.handleInboundMessage s3 m2)
  = (SocketClient.resolved s ++ [(w1, m1); (w2, m2)])%list
  /\ SocketClient.handleInboundMessage late m2 = late
  /\ SocketClient.resolved late = (SocketClient.resolved s ++ [(w1, m1)])%list
  /\ SocketClient.pending late !! k = None.
Proof.
  intros k s1 s2 s3 late Hk1 Hk2 Hresp.
  assert (H1 : SocketClient.pending s1 !! SocketClient.requestKey (SocketClient.id m1)
               = Some w1).
  { rewrite Hk1. unfold s1, SocketClient.sendToPluginAsync.
    cbn [SocketClient.pending]. apply lookup_insert_eq. }
  assert (Hr2 : SocketClient.resolved s2 = (SocketClient.resolved s ++ [(w1, m1)])%list).
  { unfold s2. rewrite (inbound_pending _ _ H1). reflexivity. }
  assert (H3 : SocketClient.pending s3 !! SocketClient.requestKey (SocketClient.id m2)
               = Some w2).
  { rewrite Hk2. unfold s3, SocketClient.sendToPluginAsync.
    cbn [SocketClient.pending]. apply lookup_insert_eq. }
  assert (Hl : SocketClient.pending late !! k = None).
  { unfold late, SocketClient.timeoutFires. cbn [SocketClient.pending].
    apply lookup_delete_eq. }
  split; [|split; [|split]].
  - rewrite (inbound_pending _ _ H3). cbn [SocketClient.resolved].
    change (SocketClient.resolved s3) with (SocketClient.resolved s2).
    rewrite Hr2, <- app_assoc. reflexivity.
  - apply response_to_nobody; [rewrite Hk2; exact Hl | exact Hresp].
  - exact Hr2.
  - exact Hl.
Qed.

(** A deliver under id 5: the read is answered, the write is sent, the
    timer of the read fires, the answer to the write arrives. *)
Lemma stale_timer_drops_next_response_witness :
  let read := SocketClient.PStateRead (mkReadReq []) in
  let write := SocketClient.PStateWrite (mkWriteReq [] []) in
  let m1 := readAnswer (Long.ofU64 5) (mkReadResp None []) in
  let m2 := writeAnswer (Long.ofU64 5) (mkWriteResp None) in
  let s3 :=
    SocketClient.sendToPluginAsync
      (SocketClient.handleInboundMessage
         (SocketClient.sendToPluginAsync freshClient (Long.ofU64 5) read 0%nat) m1)
      (Long.ofU64 5) write 1%nat in
  SocketClient.resolved
    (SocketClient.handleInboundMessage (SocketClient.timeoutFires s3 5 0%nat) m2)
  = [(0%nat, m1)].
Proof.
  intros read write m1 m2 s3.
  assert (Hresp : SocketClient.isResponse m2).
  { unfold SocketClient.isResponse, m2, writeAnswer.
    cbn [SocketClient.msg_genesis SocketClient.msg_begin SocketClient.msg_check
         SocketClient.msg_deliver SocketClient.msg_end SocketClient.msg_stateWrite].
    repeat split. right. right. left. eexists. reflexivity. }
  pose proof (@stale_timer_drops_next_response
                freshClient (Long.ofU64 5) read write 0%nat 1%nat m1 m2
                eq_refl eq_refl Hresp) as (_ & Hsame & Hres & _).
  fold s3 in Hsame, Hres. change (SocketClient.requestKey (Long.ofU64 5)) with 5 in *.
  rewrite Hsame. exact Hres.
Defined.

(** X20. The table has one slot per id. A second request sent under an id
    that is still pending takes the slot over: the next message with that id
    resolves the second waiter, and after it no response with that id
    reaches the first one, which is left to its timer. *)
Theorem second_request_takes_the_slot
        (s : SocketClient.State) (fsmId : Long)
        (first second : SocketClient.Payload) (w1 w2 : SocketClient.Waiter)
        (m1 m2 : SocketClient.FSMToPlugin) :
  let k := SocketClient.requestKey fsmId in
  let s2 :=
    SocketClient.sendToPluginAsync
      (SocketClient.sendToPluginAsync s fsmId first w1) fsmId second w2 in
  let s3 := SocketClient.handleInboundMessage s2 m1 in
  SocketClient.requestKey (SocketClient.id m1) = k ->
  SocketClient.requestKey (SocketClient.id m2) = k ->
  SocketClient.isResponse m2 ->
  SocketClient.resolved s3 = (SocketClient.resolved s ++ [(w2, m1)])%list
  /\ SocketClient.pending s3 !! k = None
  /\ SocketClient.handleInboundMessage s3 m2 = s3.
Proof.
  intros k s2 s3 Hk1 Hk2 Hresp.
  assert (H2 : SocketClient.pending s2 !! SocketClient.requestKey (SocketClient.id m1)
               = Some w2).
  { rewrite Hk1. unfold s2, SocketClient.sendToPluginAsync.
    cbn [SocketClient.pending]. apply lookup_insert_eq. }
  assert (Hs3 : SocketClient.pending s3 !! k = None).
  { unfold s3. rewrite (inbound_pending _ _ H2). cbn [SocketClient.pending].
    rewrite Hk1. apply lookup_delete_eq. }
  split; [|split].
  - unfold s3. rewrite (inbound_pending _ _ H2). reflexivity.
  - exact Hs3.
  - apply response_to_nobody; [rewrite Hk2; exact Hs3 | exact Hresp].
Qed.

Lemma second_request_takes_the_slot_witness :
  let read := SocketClient.PStateRead (mkReadReq []) in
  let m := readAnswer (Long.ofU64 5) (mkReadResp None []) in
  SocketClient.resolved
    (SocketClient.handleInboundMessage
       (SocketClient.sendToPluginAsync
          (SocketClient.sendToPluginAsync freshClient (Long.ofU64 5) read 0%nat)
          (Long.ofU64 5) read 1%nat) m)
  = [(1%nat, m)].
Proof.
  intros read m.
  assert (Hresp : SocketClient.isResponse m).
  { unfold SocketClient.isResponse, m, readAnswer.
    cbn [SocketClient.msg_genesis SocketClient.msg_begin SocketClient.msg_check
         SocketClient.msg_deliver SocketClient.msg_end SocketClient.msg_stateRead].
    repeat split. right. left. eexists. reflexivity. }
  exact (proj1 (@second_request_takes_the_slot
                  freshClient (Long.ofU64 5) read read 0%nat 1%nat m m
                  eq_refl eq_refl Hresp)).
Defined.

(** ** The type URL of an Any *)

Lemma string_app_snoc (a : string) (c : ascii) (n : string) :
  ((a ++ String c EmptyString) ++ n)%string = (a ++ String c n)%string.
Proof.
  induction a as [|x a IH]; [reflexivity|].
  change (String x ((a ++ String c EmptyString) ++ n) = String x (a ++ String c n)).
  f_equal. exact IH.
Qed.

Lemma lastSegment_noSlash (n acc : string) :
  noSlash n = true -> lastSegment acc n = (acc ++ n)%string.
Proof.
  revert acc. induction n as [|c n IH]; intros acc H; cbn [lastSegment].
  - clear H. induction acc as [|x a IHa]; [reflexivity|].
    change (String x a = String x (a ++ EmptyString)). f_equal. exact IHa.
  - cbn [noSlash] in H. apply andb_true_iff in H as [Hc Hn].
    apply negb_true_iff in Hc. rewrite Hc, IH by exact Hn. apply string_app_snoc.
Qed.

Lemma lastSegment_after_slash (prefix n acc : string) :
  lastSegment acc (prefix ++ String "/" n) = lastSegment EmptyString n.
Proof.
  revert acc. induction prefix as [|c p IH]; intros acc.
  - reflexivity.
  - change (String c p ++ String "/" n)%string
      with (String c (p ++ String "/" n))%string.
    cbn [lastSegment]. destruct (Ascii.eqb c "/"); apply IH.
Qed.

Lemma typeNameOf_prefixed (prefix name : string) :
  noSlash name = true -> typeNameOf (prefix ++ String "/" name) = name.
Proof.
  intros H. unfold typeNameOf.
  rewrite lastSegment_after_slash, lastSegment_noSlash by exact H. reflexivity.
Qed.

Lemma fromAny_by_typeName (pb : ProtobufTypes) (u1 u2 : string)
      (t1 t2 : option string) (v : option bytes) :
  u1 <> EmptyString -> u2 <> EmptyString -> typeNameOf u1 = typeNameOf u2 ->
  fromAny pb (Some (mkAny (Some u1) t1 v)) = fromAny pb (Some (mkAny (Some u2) t2 v)).
Proof.
  intros H1 H2 E. unfold fromAny. cbn [typeUrl type_url value].
  destruct u1 as [|c1 u1]; [contradiction|].
  destruct u2 as [|c2 u2]; [contradiction|].
  unfold typeNameOf in E. rewrite E. reflexivity.
Qed.

(** X21. What fromAny makes of the type URL. Only the text after the last
    slash counts: whatever stands in front of it, the message is decoded (or
    refused) as under the bare name. The field type_url is read only when
    typeUrl is absent, and then in the same way; an empty typeUrl is not
    replaced by type_url and gives Any message missing type URL. *)
Theorem fromAny_reads_last_segment
        (pb : ProtobufTypes) (prefix name : string) (other : option string)
        (v : option bytes) :
  noSlash name = true ->
  typeNameOf (prefix ++ String "/" name) = name
  /\ fromAny pb (Some (mkAny (Some (prefix ++ String "/" name)) other v))
     = fromAny pb (Some (mkAny (Some (String "/" name)) None v))
  /\ fromAny pb (Some (mkAny None (Some (prefix ++ String "/" name)) v))
     = fromAny pb (Some (mkAny (Some (String "/" name)) None v))
  /\ fromAny pb (Some (mkAny (Some EmptyString) (Some (prefix ++ String "/" name)) v))
     = Throw "FromAny failed: Any message missing type URL".
Proof.
  intros H.
  assert (Hne : (prefix ++ String "/" name)%string <> EmptyString)
    by (destruct prefix; discriminate).
  assert (E : typeNameOf (prefix ++ String "/" name) = typeNameOf (String "/" name)).
  { rewrite typeNameOf_prefixed by exact H.
    symmetry. apply (typeNameOf_prefixed EmptyString). exact H. }
  split; [now apply typeNameOf_prefixed|]. split; [|split].
  - apply fromAny_by_typeName; [exact Hne | discriminate | exact E].
  - rewrite <- (@fromAny_by_typeName pb (prefix ++ String "/" name) (String "/" name)
                                     None None v Hne ltac:(discriminate) E).
    unfold fromAny. cbn [typeUrl type_url value]. reflexivity.
  - reflexivity.
Qed.

(** The URL the protobuf runtime writes for a MessageSend. *)
Lemma fromAny_reads_last_segment_witness :
  typeNameOf "type.googleapis.com/types.MessageSend" = "types.MessageSend"
  /\ fromAny Sample.protobuf
             (Some (mkAny (Some "type.googleapis.com/types.MessageSend") None
                          (Some [x00; x00])))
     = fromAny Sample.protobuf
               (Some (mkAny (Some "/types.MessageSend") None (Some [x00; x00]))).
Proof.
  pose proof (@fromAny_reads_last_segment
                Sample.protobuf "type.googleapis.com" "types.MessageSend" None
                (Some [x00; x00]) eq_refl) as (H1 & H2 & _).
  split; [exact H1 | exact H2].
Defined.

(** ** Configurations and the key of the fee pool *)

Lemma keyForFeePool_integer (rt : Runtime) (q : Q) :
  Number_isInteger (Finite q) = true ->
  keyForFeePool rt (CidNumber (Finite q))
  = (let? chainIdBytes := writeBigUInt64BE (Qfloor q) in
     joinLenPrefix [Some POOL_PREFIX; Some chainIdBytes]).
Proof.
  intros H. unfold keyForFeePool, formatUint64, BigInt_of_number. rewrite H.
  reflexivity.
Qed.

(** X22. A configuration that the constructor accepts has an integer chainId
    of at least 1, but no upper bound is checked. Below 2^64 the contract
    gets its fee-pool key, the bytes 1, 2, 8 followed by the chain id in
    eight big-endian bytes; from 2^64 on, keyForFeePool throws the range
    error of writeBigUInt64BE although the configuration is valid. *)
Theorem accepted_config_pool_key
        (rt : Runtime) (String_of_number : JsNumber -> string)
        (trim : string -> string)
        (options_chainId : option JsNumber) (options_dataDirPath : option string)
        (c : Config) :
  Config_new String_of_number trim options_chainId options_dataDirPath = Ok c ->
  exists q n,
    chainId c = Finite q /\ Qeq q (inject_Z n) /\ 1 <= n
    /\ (n < 2 ^ 64 ->
        exists bs, length bs = 8%nat /\ be_value bs = n
                   /\ keyForFeePool rt (CidNumber (chainId c))
                      = Ok ([x01; x02; x08] ++ bs)%list)
    /\ (2 ^ 64 <= n ->
        keyForFeePool rt (CidNumber (chainId c)) = Throw RangeError_writeBigUInt64BE).
Proof.
  unfold Config_new. set (this := mkConfig _ _).
  unfold Config_validate.
  destruct (Number_isInteger (chainId this)) eqn:Hint; [|discriminate].
  destruct (number_lt1 (chainId this)) eqn:Hlt; [discriminate|].
  cbn [negb orb].
  destruct (String.eqb (trim (dataDirPath this)) EmptyString); [discriminate|].
  cbn [rbind]. intros [= <-].
  destruct (chainId this) as [q| | |] eqn:Hc; try discriminate.
  exists q, (Qfloor q).
  assert (Hq : Qeq q (inject_Z (Qfloor q))) by (now apply Qeq_bool_iff).
  assert (H1 : 1 <= Qfloor q).
  { cbn [number_lt1] in Hlt. apply negb_false_iff, Qle_bool_iff in Hlt.
    change 1 with (Qfloor (inject_Z 1)). rewrite Qfloor_Z.
    apply Qfloor_resp_le in Hlt. change (Qfloor 1) with 1 in Hlt. exact Hlt. }
  split; [reflexivity|]. split; [exact Hq|]. split; [exact H1|].
  rewrite (@keyForFeePool_integer rt q Hint). split.
  - intros Hn.
    destruct (@writeBigUInt64BE_value (Qfloor q) ltac:(lia)) as (bs & Hw & Hl & Hv).
    exists bs. split; [exact Hl|]. split; [exact Hv|].
    rewrite Hw. cbn [rbind]. unfold POOL_PREFIX.
    rewrite joinLenPrefix_two by (simpl; lia). rewrite Hl. reflexivity.
  - intros Hn. unfold writeBigUInt64BE.
    replace (Qfloor q <? 2 ^ 64) with false by (symmetry; apply Z.ltb_ge; lia).
    rewrite andb_false_r. reflexivity.
Qed.

(** The default chain id 1, and the chain id 2^64. *)
Lemma accepted_config_pool_key_witness :
  let show (n : JsNumber) := "1" in
  let trim (s : string) := s in
  Config_new show trim None None = Ok (mkConfig (num 1) "/tmp/plugin/")
  /\ Config_new show trim (Some (num (2 ^ 64))) None
     = Ok (mkConfig (num (2 ^ 64)) "/tmp/plugin/")
  /\ keyForFeePool Sample.rt (CidNumber (num (2 ^ 64)))
     = Throw RangeError_writeBigUInt64BE.
Proof.
  intros show trim. split; [reflexivity|]. split; [reflexivity|].
  destruct (@accepted_config_pool_key
              Sample.rt show trim (Some (num (2 ^ 64))) None
              (mkConfig (num (2 ^ 64)) "/tmp/plugin/") eq_refl)
    as (q & n & Hc & Hq & _ & _ & Hbig).
  apply Hbig. injection Hc as <-.
  unfold Qeq, inject_Z in Hq. cbn [Qnum Qden] in Hq. lia.
Defined.

(** ** marshal and unmarshal *)

(** X23. What marshal writes, unmarshal reads back, with one exception. For a
    codec that decodes the bytes it encodes a message to, unmarshal of the
    marshalled bytes gives the message again when the encoding has at least
    one byte, and null when the encoding is empty (in proto3, a message whose
    fields all have their default values): such a message cannot be told
    from an absent entry. *)
Theorem marshal_unmarshal_round_trip
        (T : Type) (messageType : ProtobufMessage T) (data : T) (encoded : bytes) :
  encode messageType data = Ok encoded ->
  decode messageType encoded = Ok data ->
  marshal messageType data = Ok encoded
  /\ unmarshal messageType (Some encoded)
     = Ok (match encoded with [] => None | _ :: _ => Some data end).
Proof.
  intros He Hd. unfold marshal, unmarshal. rewrite He. split; [reflexivity|].
  destruct encoded as [|b bs]; [reflexivity|].
  cbn [length]. replace (Z.of_nat (S (length bs)) =? 0) with false
    by (symmetry; apply Z.eqb_neq; lia).
  rewrite Hd. reflexivity.
Qed.

(** The account of A with a balance of 1000. *)
Lemma marshal_unmarshal_round_trip_witness :
  let a := mkAccount (VUint8Array Sample.addrA) (Long.ofU64 1000) in
  exists encoded,
    marshal Sample.AccountType a = Ok encoded
    /\ unmarshal Sample.AccountType (Some encoded) = Ok (Some a).
Proof.
  intros a. exists (Sample.unwrap (encode Sample.AccountType a)).
  exact (@marshal_unmarshal_round_trip
           Account Sample.AccountType a
           (Sample.unwrap (encode Sample.AccountType a)) eq_refl eq_refl).
Defined.
